(** * Decomposition pass of the PIR program: shallow embedding

    The pass of [python/paddle/decomposition/decomp.py] rewrites composite
    operators of a PIR block into primitive ones, for forward operators
    ([decompose], [_decompose_subgraph]) and for gradient operators
    ([decompose_pir_program], [_decomp_bwd_op]).  The rule of
    [python/paddle/decomposition/rules.py] embedded here is [mean].

    The block is a list of operations with unique identifiers; use edges are
    the operand lists, so rewiring a value is a substitution in the operands
    of every operation of the block.  Python exceptions are an [Outcome];
    code that mutates the block is a state transformer over [Store] that
    keeps the store reached when an exception is raised. *)

From Stdlib Require Import String List ZArith Bool Lia Ascii PeanoNat Permutation.
Import ListNotations.
Open Scope string_scope.
Open Scope list_scope.

Set Warnings "-register-all".

(** ** Exceptions and outcomes *)

Inductive Exn :=
| AssertionError
| ValueError
| TypeError
| RuntimeError
| IndexError
| KeyError
| AttributeError.

Inductive Outcome (A : Type) :=
| Ok (a : A)
| Raise (e : Exn).
Arguments Ok {A} a.
Arguments Raise {A} e.

(** ** Values, types, operations *)

Inductive DType := BOOL | INT32 | INT64 | FLOAT16 | BFLOAT16 | FLOAT32 | FLOAT64.

Definition Shape := list Z.

Definition TensorType : Type := DType * Shape.

(** A [pir.Value].  [Fake] is [pir.fake_op_result()], a value without
    implementation.  [OpRes owner slot ty] is the result number [slot] of the
    operation [owner]; its type is [None] for a result that the operation
    declares but does not produce, and [initialized()] is false on it. *)
Inductive Value :=
| Fake
| OpRes (owner : nat) (slot : nat) (ty : option TensorType).

Definition DType_eq_dec (a b : DType) : {a = b} + {a <> b}.
Proof. decide equality. Defined.

Definition Shape_eq_dec (a b : Shape) : {a = b} + {a <> b} :=
  list_eq_dec Z.eq_dec a b.

Definition TensorType_eq_dec (a b : TensorType) : {a = b} + {a <> b}.
Proof. decide equality; [apply Shape_eq_dec | apply DType_eq_dec]. Defined.

Definition Value_eq_dec (a b : Value) : {a = b} + {a <> b}.
Proof.
  decide equality; try apply Nat.eq_dec.
  decide equality. apply TensorType_eq_dec.
Defined.

Definition DType_eqb (a b : DType) : bool := if DType_eq_dec a b then true else false.
Definition Shape_eqb (a b : Shape) : bool := if Shape_eq_dec a b then true else false.
Definition Value_eqb (a b : Value) : bool := if Value_eq_dec a b then true else false.

Definition initialized (v : Value) : bool :=
  match v with
  | OpRes _ _ (Some _) => true
  | _ => false
  end.

(** The Python objects that reach the pass as rule arguments, rule results
    and attribute values.  [PyOther ty] stands for an object of any other
    type, named by [ty] (a float attribute, a dict, ...); [PyExc e] is an
    exception object held as a value. *)
Inductive PyVal :=
| PyNone
| PyBool (b : bool)
| PyInt (n : Z)
| PyStr (s : string)
| PyOpResult (v : Value)
| PyList (xs : list PyVal)
| PyTuple (xs : list PyVal)
| PyExc (e : Exn)
| PyOther (ty : string).

Record Operation := mkOp {
  op_id : nat;
  op_name : string;
  op_operands : list Value;
  op_results : list Value;
  op_input_names : list string;
  op_output_names : list string;
  op_attr_names : list string;
  op_attrs : list (string * PyVal)
}.

(** The mutable state: the operations of the global block in program order,
    the next fresh operation identifier, the insertion point of the builder
    ([None] is the end of the block, [Some i] is just before operation [i])
    and [core.prim_config["composite_ops_record"]]. *)
Record Store := mkStore {
  blk_ops : list Operation;
  next_id : nat;
  insertion_point : option nat;
  composite_ops_record : list string
}.

Definition M (A : Type) : Type := Store -> Outcome A * Store.

Definition ret {A} (a : A) : M A := fun s => (Ok a, s).
Definition raise {A} (e : Exn) : M A := fun s => (Raise e, s).
Definition bind {A B} (m : M A) (k : A -> M B) : M B :=
  fun s => match m s with
           | (Ok a, s') => k a s'
           | (Raise e, s') => (Raise e, s')
           end.
Definition lift {A} (o : Outcome A) : M A := fun s => (o, s).
Definition get_store : M Store := fun s => (Ok s, s).
Definition put_ops (l : list Operation) : M unit :=
  fun s => (Ok tt, mkStore l (next_id s) (insertion_point s) (composite_ops_record s)).

Declare Scope m_scope.
Delimit Scope m_scope with M.
Notation "x <- m ;; k" := (bind m (fun x => k))
  (at level 100, m at next level, right associativity) : m_scope.
Notation "' p <- m ;; k" := (bind m (fun p => k))
  (at level 100, p pattern, m at next level, right associativity) : m_scope.
Notation "m ;;; k" := (bind m (fun _ => k))
  (at level 100, right associativity) : m_scope.

(** ** Python sequences, dicts and strings *)

Fixpoint str_in (x : string) (l : list string) : bool :=
  match l with
  | [] => false
  | y :: r => if String.eqb x y then true else str_in x r
  end.

Fixpoint nat_in (x : nat) (l : list nat) : bool :=
  match l with
  | [] => false
  | y :: r => if Nat.eqb x y then true else nat_in x r
  end.

Fixpoint value_in (x : Value) (l : list Value) : bool :=
  match l with
  | [] => false
  | y :: r => if Value_eqb x y then true else value_in x r
  end.

Fixpoint z_in (x : Z) (l : list Z) : bool :=
  match l with
  | [] => false
  | y :: r => if Z.eqb x y then true else z_in x r
  end.

(** [sub in s] on Python strings. *)
Fixpoint substring_in (sub s : string) : bool :=
  if String.prefix sub s then true
  else match s with
       | EmptyString => false
       | String _ r => substring_in sub r
       end.

(** [s.endswith(suf)]. *)
Definition endswith (s suf : string) : bool :=
  let n := String.length s in
  let k := String.length suf in
  if Nat.leb k n then String.eqb (String.substring (n - k) k s) suf else false.

(** [l.index(x)] on a list of values: the first position, or ValueError. *)
Fixpoint value_index (x : Value) (l : list Value) : Outcome nat :=
  match l with
  | [] => Raise ValueError
  | y :: r => if Value_eqb x y then Ok 0
              else match value_index x r with
                   | Ok n => Ok (S n)
                   | Raise e => Raise e
                   end
  end.

(** [l[i]] with a non-negative index. *)
Definition getitem {A} (l : list A) (i : nat) : Outcome A :=
  match nth_error l i with
  | Some a => Ok a
  | None => Raise IndexError
  end.

(** [l[i] = x] with a non-negative index. *)
Fixpoint setitem {A} (l : list A) (i : nat) (x : A) : Outcome (list A) :=
  match l, i with
  | [], _ => Raise IndexError
  | _ :: r, O => Ok (x :: r)
  | y :: r, S j => match setitem r j x with
                   | Ok r' => Ok (y :: r')
                   | Raise e => Raise e
                   end
  end.

(** A dict keyed by values, in insertion order. *)
Definition VDict (A : Type) : Type := list (Value * A).

Fixpoint vdict_get {A} (d : VDict A) (k : Value) : option A :=
  match d with
  | [] => None
  | (k', a) :: r => if Value_eqb k k' then Some a else vdict_get r k
  end.

Definition vdict_mem {A} (d : VDict A) (k : Value) : bool :=
  match vdict_get d k with Some _ => true | None => false end.

(** [d[k] = a]: an existing key keeps its position. *)
Fixpoint vdict_set {A} (d : VDict A) (k : Value) (a : A) : VDict A :=
  match d with
  | [] => [(k, a)]
  | (k', a') :: r => if Value_eqb k k' then (k', a) :: r else (k', a') :: vdict_set r k a
  end.

Fixpoint vdict_remove {A} (d : VDict A) (k : Value) : VDict A :=
  match d with
  | [] => []
  | (k', a') :: r => if Value_eqb k k' then r else (k', a') :: vdict_remove r k
  end.

(** A dict keyed by strings. *)
Fixpoint sdict_get {A} (d : list (string * A)) (k : string) : option A :=
  match d with
  | [] => None
  | (k', a) :: r => if String.eqb k k' then Some a else sdict_get r k
  end.

(** ** Accessors of values *)

Definition py_is_none (x : PyVal) : bool :=
  match x with PyNone => true | _ => false end.

(** [len(x)]: TypeError on an object without length. *)
Definition py_len (x : PyVal) : Outcome nat :=
  match x with
  | PyList xs | PyTuple xs => Ok (List.length xs)
  | PyStr s => Ok (String.length s)
  | _ => Raise TypeError
  end.

Fixpoint chars (s : string) : list PyVal :=
  match s with
  | EmptyString => []
  | String c r => PyStr (String c EmptyString) :: chars r
  end.

(** The items of an iterable. *)
Definition py_items (x : PyVal) : Outcome (list PyVal) :=
  match x with
  | PyList xs | PyTuple xs => Ok xs
  | PyStr s => Ok (chars s)
  | _ => Raise TypeError
  end.

(** [v.dtype] and [v.shape] of a value; reading them on a value without a
    type raises. *)
Definition value_type (v : Value) : Outcome TensorType :=
  match v with
  | OpRes _ _ (Some ty) => Ok ty
  | _ => Raise ValueError
  end.

Definition py_type (x : PyVal) : Outcome TensorType :=
  match x with
  | PyOpResult v => value_type v
  | _ => Raise AttributeError
  end.

(** [type(x)] as it prints in a message. *)
Definition type_name (x : PyVal) : string :=
  match x with
  | PyNone => "NoneType"
  | PyBool _ => "bool"
  | PyInt _ => "int"
  | PyStr _ => "str"
  | PyOpResult _ => "OpResult"
  | PyList _ => "list"
  | PyTuple _ => "tuple"
  | PyExc _ => "Exception"
  | PyOther ty => ty
  end.

(** ** _build_tensor_tuple *)

Definition isinstance_OpResult (x : PyVal) : bool :=
  match x with PyOpResult _ => true | _ => false end.

(** [isinstance(x, typing.Sequence)]: lists, tuples and strings. *)
Definition isinstance_Sequence (x : PyVal) : bool :=
  match x with PyList _ | PyTuple _ | PyStr _ => true | _ => false end.

Definition _build_tensor_tuple (xs : PyVal) : Outcome PyVal :=
  if isinstance_OpResult xs then Ok (PyTuple [xs])
  else if isinstance_Sequence xs then
    match py_items xs with
    | Ok items => Ok (PyTuple items)
    | Raise e => Raise e
    end
  else Ok (PyExc TypeError).

(** ** The block *)

Fixpoint find_op (i : nat) (l : list Operation) : option Operation :=
  match l with
  | [] => None
  | o :: r => if Nat.eqb (op_id o) i then Some o else find_op i r
  end.

Definition ids (l : list Operation) : list nat := map op_id l.

(** [block.ops.index(op)]. *)
Fixpoint op_index (i : nat) (l : list Operation) : Outcome nat :=
  match l with
  | [] => Raise ValueError
  | o :: r => if Nat.eqb (op_id o) i then Ok 0
              else match op_index i r with
                   | Ok n => Ok (S n)
                   | Raise e => Raise e
                   end
  end.

(** Modelled from the spec: [Block.remove_op] of the PIR bindings.  The block
    without the operation [i]; the other operations keep their order. *)
Definition remove_id (i : nat) (l : list Operation) : list Operation :=
  filter (fun o => negb (Nat.eqb (op_id o) i)) l.

(** Modelled from the spec: [Block.move_op] of the PIR bindings, the
    move-to-position of a block.  The operation is taken out and put back
    just before the operation that stood at [offset]; the other operations
    keep their relative order. *)
Definition move_to (o : Operation) (offset : nat) (l : list Operation) : list Operation :=
  remove_id (op_id o) (firstn offset l) ++ o :: remove_id (op_id o) (skipn offset l).

Definition set_operands (o : Operation) (xs : list Value) : Operation :=
  mkOp (op_id o) (op_name o) xs (op_results o) (op_input_names o)
       (op_output_names o) (op_attr_names o) (op_attrs o).

Definition subst_value (old new v : Value) : Value :=
  if Value_eqb v old then new else v.

(** Modelled from the spec: [Value.replace_all_uses_with] of the PIR
    bindings, the rewiring of use edges.  Every use of [old] in the block
    becomes a use of [new]; a value without implementation has no use. *)
Definition rewire (old new : Value) (l : list Operation) : list Operation :=
  match old with
  | Fake => l
  | _ => map (fun o => set_operands o (map (subst_value old new) (op_operands o))) l
  end.

(** Result by result, as [Operation::ReplaceAllUsesWith] does. *)
Fixpoint rewire_all (olds news : list Value) (l : list Operation) : list Operation :=
  match olds, news with
  | old :: olds', new :: news' => rewire_all olds' news' (rewire old new l)
  | _, _ => l
  end.

(** Modelled from the spec: [Value.has_one_use] of the PIR bindings.  The
    uses of a value are the operand positions of the block that hold it. *)
Definition use_count (v : Value) (l : list Operation) : nat :=
  list_sum (map (fun o => count_occ Value_eq_dec (op_operands o) v) l).

Definition has_one_use (v : Value) (l : list Operation) : bool :=
  Nat.eqb (use_count v l) 1.

Fixpoint insert_before (i : nat) (o : Operation) (l : list Operation) : list Operation :=
  match l with
  | [] => [o]
  | x :: r => if Nat.eqb (op_id x) i then o :: x :: r else x :: insert_before i o r
  end.

Definition insert_at (ip : option nat) (o : Operation) (l : list Operation) : list Operation :=
  match ip with
  | None => l ++ [o]
  | Some i => insert_before i o l
  end.

(** The operands an operation has now: rewiring changes them after the
    operation was read from the block. *)
Definition operands_now (o : Operation) (s : Store) : list Value :=
  match find_op (op_id o) (blk_ops s) with
  | Some o' => op_operands o'
  | None => op_operands o
  end.

(** Modelled from the spec: [Value.get_defining_op] of the PIR bindings, the
    producer of a value; [None] when no operation of the block defines it. *)
Definition get_defining_op (v : Value) (s : Store) : option Operation :=
  match v with
  | Fake => None
  | OpRes owner _ _ => find_op owner (blk_ops s)
  end.

Definition block_remove_op (o : Operation) : M unit :=
  fun s => (Ok tt, mkStore (remove_id (op_id o) (blk_ops s)) (next_id s)
                           (insertion_point s) (composite_ops_record s)).

Definition block_move_op (o : Operation) (offset : nat) : M unit :=
  fun s => (Ok tt, mkStore (move_to o offset (blk_ops s)) (next_id s)
                           (insertion_point s) (composite_ops_record s)).

Definition set_insertion_point (o : Operation) : M unit :=
  fun s => (Ok tt, mkStore (blk_ops s) (next_id s) (Some (op_id o)) (composite_ops_record s)).

Definition set_insertion_point_to_end : M unit :=
  fun s => (Ok tt, mkStore (blk_ops s) (next_id s) None (composite_ops_record s)).

Definition record_composite_op (name : string) : M unit :=
  fun s => (Ok tt, mkStore (blk_ops s) (next_id s) (insertion_point s)
                           (if str_in name (composite_ops_record s)
                            then composite_ops_record s
                            else composite_ops_record s ++ [name])).

(** [value.replace_all_uses_with(new)], as a step on the store. *)
Definition value_replace_all_uses_with (old new : Value) : M unit :=
  fun s => (Ok tt, mkStore (rewire old new (blk_ops s)) (next_id s)
                           (insertion_point s) (composite_ops_record s)).

(** Modelled from the spec: [Operation.replace_all_uses_with] of the PIR
    bindings: one value per result, refused when the numbers differ. *)
Definition op_replace_all_uses_with (o : Operation) (news : list Value) : M unit :=
  fun s =>
    if Nat.eqb (List.length (op_results o)) (List.length news)
    then (Ok tt, mkStore (rewire_all (op_results o) news (blk_ops s)) (next_id s)
                         (insertion_point s) (composite_ops_record s))
    else (Raise RuntimeError, s).

(** The conversion of a Python sequence to a vector of values, as the
    binding of [replace_all_uses_with] does it. *)
Fixpoint as_values (xs : list PyVal) : Outcome (list Value) :=
  match xs with
  | [] => Ok []
  | PyOpResult v :: r => match as_values r with
                         | Ok vs => Ok (v :: vs)
                         | Raise e => Raise e
                         end
  | _ :: _ => Raise TypeError
  end.

Definition py_as_values (x : PyVal) : Outcome (list Value) :=
  match x with
  | PyList xs | PyTuple xs => as_values xs
  | _ => Raise TypeError
  end.

Fixpoint mk_results (owner : nat) (slot : nat) (tys : list TensorType) : list Value :=
  match tys with
  | [] => []
  | ty :: r => OpRes owner slot (Some ty) :: mk_results owner (S slot) r
  end.

(** Modelled from the spec: the graph builder with its insertion cursor.  A
    new operation, with a fresh identifier, is put at the insertion point. *)
Definition build_op (name : string) (operands : list Value)
    (in_names out_names : list string) (attrs : list (string * PyVal))
    (tys : list TensorType) : M (list Value) :=
  fun s =>
    let i := next_id s in
    let res := mk_results i 0 tys in
    let o := mkOp i name operands res in_names out_names (map fst attrs) attrs in
    (Ok res, mkStore (insert_at (insertion_point s) o (blk_ops s)) (S i)
                     (insertion_point s) (composite_ops_record s)).

Definition of_option (o : option Value) : PyVal :=
  match o with
  | Some v => PyOpResult v
  | None => PyNone
  end.

Definition combine_op_name : string := "builtin.combine".

(** ** The pass

    What the pass takes from the rest of the framework is a parameter: the
    tables [core.ops_contain_none], [decomp_ops_contain_unused_output] and
    [core.prim_config["forward_blacklist"]], the rule registry, the native
    decomposition ([has_decomp], [call_decomp]), the vector-Jacobian-product
    [core.call_vjp] and the reverse-mode differentiation [ir_backward.grad]. *)

Section Decomp.

Variable ops_contain_none : list string.
Variable decomp_ops_contain_unused_output : list (string * list nat).
Variable forward_blacklist : list string.
Variable get_decomp_rule : string -> option (list PyVal -> M PyVal).
Variable has_decomp : Operation -> bool.
Variable call_decomp : Operation -> M (list (list (option Value))).
Variable call_vjp :
  Operation -> list (list Value) -> list (list Value) -> list (list Value) ->
  list (list bool) -> M (list (list (option Value))).
Variable grad : list Value -> list Value -> list Value -> M (list Value).

(** [idx in decomp_ops_contain_unused_output[name]], for a listed name. *)
Definition unused_output (name : string) (idx : nat) : bool :=
  match sdict_get decomp_ops_contain_unused_output name with
  | Some l => nat_in idx l
  | None => false
  end.

Definition has_unused_output (name : string) : bool :=
  match sdict_get decomp_ops_contain_unused_output name with
  | Some _ => true
  | None => false
  end.

(** The loop of [_analyse_decomp_results].  Every original output is a result
    of the operation, so the branch for an output that is no [OpResult] has
    no input. *)
Fixpoint analyse_from (name : string) (idx : nat)
    (decomp_outs : list (list (option Value))) : Outcome (list PyVal) :=
  match decomp_outs with
  | [] => Ok []
  | value :: rest =>
      let first :=
        if unused_output name idx then
          match value with
          | [] => Raise IndexError
          | None :: _ => Ok PyNone
          | Some _ :: _ => Raise AssertionError
          end
        else
          match value with
          | [Some v] => Ok (PyOpResult v)
          | _ => Raise AssertionError
          end in
      match first with
      | Raise e => Raise e
      | Ok x => match analyse_from name (S idx) rest with
                | Ok r => Ok (x :: r)
                | Raise e => Raise e
                end
      end
  end.

Definition _analyse_decomp_results (orig_outs : list Value)
    (decomp_outs : list (list (option Value))) (op : Operation) : Outcome PyVal :=
  if Nat.eqb (List.length orig_outs) (List.length decomp_outs)
  then match analyse_from (op_name op) 0 decomp_outs with
       | Ok res => Ok (PyList res)
       | Raise e => Raise e
       end
  else Raise AssertionError.

(** One operand of the operation as an argument of its Python API. *)
Definition api_input (s : Store) (input : Value) : PyVal :=
  if initialized input then
    match get_defining_op input s with
    | Some prev_op =>
        if String.eqb (op_name prev_op) combine_op_name
        then PyList (map PyOpResult (operands_now prev_op s))
        else PyOpResult input
    | None => PyOpResult input
    end
  else PyNone.

Fixpoint attr_values (attrs : list (string * PyVal)) (names : list string)
  : Outcome (list PyVal) :=
  match names with
  | [] => Ok []
  | x :: r => match sdict_get attrs x with
              | None => Raise KeyError
              | Some a => match attr_values attrs r with
                          | Ok l => Ok (a :: l)
                          | Raise e => Raise e
                          end
              end
  end.

Definition _prepare_python_api_arguments (op : Operation) (s : Store) : Outcome PyVal :=
  let inputs := map (api_input s) (operands_now op s) in
  if String.eqb (op_name op) combine_op_name then Ok (PyTuple [PyList inputs])
  else match attr_values (op_attrs op) (op_attr_names op) with
       | Ok l => Ok (PyTuple (inputs ++ l))
       | Raise e => Raise e
       end.

(** The loop of [_check_op_results] over the zipped pairs.  The [return] that
    ends the loop body leaves the function after the first pair whose
    original output is not [None]. *)
Fixpoint check_pairs (op_name : string) (orig_vars : option (VDict nat))
    (pairs : list (option Value * PyVal)) (dst_vars : option (list PyVal))
  : Outcome (option (list PyVal)) :=
  match pairs with
  | [] => Ok dst_vars
  | (orig_out, new_out) :: rest =>
      if ((match orig_out with None => true | Some _ => false end) || py_is_none new_out)
         && negb (str_in op_name ops_contain_none)
      then Raise ValueError
      else
        match orig_out with
        | None => check_pairs op_name orig_vars rest dst_vars
        | Some orig =>
            if negb (py_is_none new_out) then
              let updated :=
                match orig_vars, dst_vars with
                | Some ov, Some dv =>
                    match vdict_get ov orig with
                    | Some i => match setitem dv i new_out with
                                | Ok dv' => Ok (Some dv')
                                | Raise e => Raise e
                                end
                    | None => Ok dst_vars
                    end
                | _, _ => Ok dst_vars
                end in
              match updated with
              | Raise e => Raise e
              | Ok dst_vars' =>
                  match value_type orig with
                  | Raise e => Raise e
                  | Ok (orig_dtype, orig_shape) =>
                      match py_type new_out with
                      | Raise e => Raise e
                      | Ok (new_dtype, new_shape) =>
                          if negb (DType_eqb orig_dtype new_dtype) then Raise AssertionError
                          else if z_in (-1) new_shape then Raise AssertionError
                          else if negb (Shape_eqb orig_shape new_shape) then Raise AssertionError
                          else if xorb false (py_is_none new_out) then Raise AssertionError
                          else Ok dst_vars'
                      end
                  end
              end
            else Ok dst_vars
        end
  end.

Definition _check_op_results (op_name : string) (orig_outs : list (option Value))
    (new_outs : PyVal) (orig_vars : option (VDict nat)) (dst_vars : option (list PyVal))
  : Outcome (option (list PyVal)) :=
  match py_len new_outs with
  | Raise e => Raise e
  | Ok n =>
      if negb (Nat.eqb (List.length orig_outs) n) then Raise AssertionError
      else match py_items new_outs with
           | Raise e => Raise e
           | Ok items => check_pairs op_name orig_vars (combine orig_outs items) dst_vars
           end
  end.

(** The argument [block] of [_decompose_subgraph]: the global block, a
    sequence of such arguments, or an object of another type. *)
Inductive BlockArg :=
| ABlock
| ASequence (items : list BlockArg)
| ANotBlock.

(** [ops_list[idx - 1]]: at [idx = 0] the index is [-1], the last one. *)
Definition previous_op (ops_list : list Operation) (idx : nat) : Outcome Operation :=
  match idx with
  | O => match ops_list with
         | [] => Raise IndexError
         | o :: r => Ok (last r o)
         end
  | S j => getitem ops_list j
  end.

(** The rewiring of the unused-output branch: result [idx] is rewired unless
    the table lists it. *)
Fixpoint rewire_used (name : string) (idx : nat) (orig_outs : list Value)
    (new_outs : list PyVal) : M unit :=
  match orig_outs with
  | [] => ret tt
  | orig :: rest =>
      (if unused_output name idx then ret tt
       else match nth_error new_outs idx with
            | None => raise IndexError
            | Some (PyOpResult v) => value_replace_all_uses_with orig v
            | Some _ => raise TypeError
            end) ;;;
      rewire_used name (S idx) rest new_outs
  end%M.

(** The rule path or the native path, then the conversion of the result. *)
Definition decomposed_outs (op : Operation) (orig_outs : list Value)
    (decom_rule : option (list PyVal -> M PyVal)) (has_sink_decomp_rule : bool)
    (input_args : PyVal) : M PyVal :=
  (if has_sink_decomp_rule then
     decomp_outs <- call_decomp op ;;
     lift (_analyse_decomp_results orig_outs decomp_outs op)
   else
     match decom_rule with
     | None => raise TypeError
     | Some rule =>
         args <- lift (py_items input_args) ;;
         xs <- rule args ;;
         lift (_build_tensor_tuple xs)
     end)%M.

(** The cleanup of the pending [builtin.combine]: it is removed unless one of
    its results [has_one_use]. *)
Definition cleanup_combine (temp_op : option Operation) : M unit :=
  match temp_op with
  | None => ret tt
  | Some t =>
      (s <- get_store ;;
       if existsb (fun item => has_one_use item (blk_ops s)) (op_results t)
       then ret tt
       else block_remove_op t)%M
  end.

(** One iteration of the loop of [_decompose_subgraph]; the state of the loop
    is [temp_op] and the list [dst_vars].  In the source the branch that
    rewires [orig_outs[0]] alone sits under the negation of its own test and
    is never taken. *)
Definition decompose_one (ops_list : list Operation) (orig_vars : option (VDict nat))
    (op_filter : Operation -> bool) (idx : nat) (op : Operation)
    (temp_op : option Operation) (dst_vars : option (list PyVal))
  : M (option Operation * option (list PyVal)) :=
  let op_name_ := op_name op in
  let decom_rule := get_decomp_rule op_name_ in
  let has_sink_decomp_rule := has_decomp op in
  let lower :=
    ((match decom_rule with Some _ => true | None => false end) || has_sink_decomp_rule)
    && op_filter op in
  let temp_op := if String.eqb (op_name op) combine_op_name then Some op else temp_op in
  (if lower then
     record_composite_op op_name_ ;;;
     (match temp_op with
      | Some t =>
          prev <- lift (previous_op ops_list idx) ;;
          if String.eqb (op_name prev) combine_op_name
          then set_insertion_point t
          else set_insertion_point op
      | None => set_insertion_point op
      end) ;;;
     s <- get_store ;;
     input_args <- lift (_prepare_python_api_arguments op s) ;;
     let orig_outs := op_results op in
     new_outs <- decomposed_outs op orig_outs decom_rule has_sink_decomp_rule input_args ;;
     dst_vars' <- lift (_check_op_results op_name_ (map Some orig_outs) new_outs
                                          orig_vars dst_vars) ;;
     (if has_unused_output (op_name op) then
        items <- lift (py_items new_outs) ;;
        rewire_used (op_name op) 0 orig_outs items
      else
        news <- lift (py_as_values new_outs) ;;
        op_replace_all_uses_with op news) ;;;
     block_remove_op op ;;;
     cleanup_combine temp_op ;;;
     ret (None, dst_vars')
   else ret (temp_op, dst_vars))%M.

Fixpoint decompose_loop (ops_list : list Operation) (orig_vars : option (VDict nat))
    (op_filter : Operation -> bool) (idx : nat) (todo : list Operation)
    (temp_op : option Operation) (dst_vars : option (list PyVal))
  : M (option (list PyVal)) :=
  match todo with
  | [] => ret dst_vars
  | op :: rest =>
      ('(temp_op', dst_vars') <-
         decompose_one ops_list orig_vars op_filter idx op temp_op dst_vars ;;
       decompose_loop ops_list orig_vars op_filter (S idx) rest temp_op' dst_vars')%M
  end.

Fixpoint _decompose_subgraph (block : BlockArg) (orig_vars : option (VDict nat))
    (dst_vars : option (list PyVal)) (op_filter : Operation -> bool)
  : M (option (list PyVal)) :=
  match block with
  | ABlock =>
      (s <- get_store ;;
       let ops_list := blk_ops s in
       decompose_loop ops_list orig_vars op_filter 0 ops_list None dst_vars)%M
  | ASequence items =>
      (fix each (l : list BlockArg) (dv : option (list PyVal)) : M (option (list PyVal)) :=
         match l with
         | [] => ret dv
         | item :: r =>
             (dv' <- _decompose_subgraph item orig_vars dv op_filter ;; each r dv')%M
         end) items dst_vars
  | ANotBlock => raise TypeError
  end.

(** ** decompose *)

(** The arguments of [decompose] as Python passes them: [program] may be no
    [Program], and a list may be no set. *)
Inductive ProgramArg := AProgram | ANotProgram.

Inductive SetArg :=
| ASet (names : list string)
| ANotSet.

(** The filter built from the two lists, [blacklist] being the union with
    [core.prim_config["forward_blacklist"]]. *)
Definition op_filter (blacklist whitelist : list string) (x : Operation) : bool :=
  if Nat.ltb 0 (List.length blacklist) && Nat.ltb 0 (List.length whitelist) then
    str_in (op_name x) whitelist && negb (str_in (op_name x) blacklist)
  else if Nat.ltb 0 (List.length blacklist) && Nat.eqb (List.length whitelist) 0 then
    negb (str_in (op_name x) blacklist)
  else if Nat.eqb (List.length blacklist) 0 && Nat.ltb 0 (List.length whitelist) then
    str_in (op_name x) whitelist
  else true.

Definition effective_blacklist (blacklist : list string) : list string :=
  forward_blacklist ++ blacklist.

(** [dst_vars_dct]: every item of [src_vars] with its position. *)
Fixpoint index_src_vars (idx : nat) (src_vars : list PyVal) (dct : VDict nat)
  : Outcome (VDict nat) :=
  match src_vars with
  | [] => Ok dct
  | PyOpResult v :: r => index_src_vars (S idx) r (vdict_set dct v idx)
  | _ :: _ => Raise TypeError
  end.

(** The last loop of [decompose]: a slot left at [None] takes the source
    variable. *)
Fixpoint fill_dst_vars (dst_vars src_vars : list PyVal) : Outcome (list PyVal) :=
  match dst_vars with
  | [] => Ok []
  | item :: r =>
      let filled :=
        match item with
        | PyOpResult _ => Ok item
        | PyNone => match src_vars with
                    | x :: _ => Ok x
                    | [] => Raise IndexError
                    end
        | _ => Raise TypeError
        end in
      match filled with
      | Raise e => Raise e
      | Ok x => match fill_dst_vars r (tl src_vars) with
                | Ok l => Ok (x :: l)
                | Raise e => Raise e
                end
      end
  end.

(** Modelled from the spec: [pir.core.program_guard(program)], which makes
    the program the current one; the builder is pointed at the end of its
    block. *)
Definition program_guard {A} (body : M A) : M A :=
  (set_insertion_point_to_end ;;; body)%M.

Definition decompose (fwd_prim_enabled : bool) (program : ProgramArg)
    (src_vars : list PyVal) (blacklist whitelist : SetArg) : M (list PyVal) :=
  if negb fwd_prim_enabled then ret src_vars
  else
    match program with
    | ANotProgram => raise TypeError
    | AProgram =>
        match blacklist with
        | ANotSet => raise TypeError
        | ASet bl =>
            match whitelist with
            | ANotSet => raise TypeError
            | ASet wl =>
                let bl := effective_blacklist bl in
                let dst_vars := repeat PyNone (List.length src_vars) in
                (dst_vars_dct <- lift (index_src_vars 0 src_vars []) ;;
                 dv <- program_guard
                         (_decompose_subgraph ABlock (Some dst_vars_dct) (Some dst_vars)
                                              (op_filter bl wl)) ;;
                 match dv with
                 | None => raise TypeError
                 | Some dst_vars' => lift (fill_dst_vars dst_vars' src_vars)
                 end)%M
            end
        end
    end.

(** ** The backward decomposer *)

(** [grad_var_to_var]: a dict from gradient values to forward values. *)
Definition GradMap : Type := VDict Value.

(** The update of [grad_var_to_var] in [_decomp_fwd_op]: the value of an item
    that is an original output becomes the new output at the same index. *)
Fixpoint remap_outputs (orig_outs news : list Value) (d : GradMap) : Outcome GradMap :=
  match d with
  | [] => Ok []
  | (grad_var, var) :: r =>
      let item :=
        if value_in var orig_outs then
          match value_index var orig_outs with
          | Raise e => Raise e
          | Ok i => match getitem news i with
                    | Ok v => Ok (grad_var, v)
                    | Raise e => Raise e
                    end
          end
        else Ok (grad_var, var) in
      match item with
      | Raise e => Raise e
      | Ok x => match remap_outputs orig_outs news r with
                | Ok r' => Ok (x :: r')
                | Raise e => Raise e
                end
      end
  end.

(** [_decomp_fwd_op].  The new outputs are converted to values where the
    source hands them to [replace_all_uses_with]; the update of the dict that
    precedes it is in the result, which an exception does not deliver. *)
Definition _decomp_fwd_op (fwd_prim_enabled : bool) (fwd_op : Operation)
    (grad_var_to_var : GradMap) : M (list Value * bool * GradMap) :=
  if negb fwd_prim_enabled then raise RuntimeError
  else
    program_guard
      (let op_name_ := op_name fwd_op in
       let orig_outs := op_results fwd_op in
       let decom_rule := get_decomp_rule op_name_ in
       let has_sink_decomp_rule := has_decomp fwd_op in
       let lower :=
         (match decom_rule with Some _ => true | None => false end) || has_sink_decomp_rule in
       if lower then
         (s <- get_store ;;
          input_args <- lift (_prepare_python_api_arguments fwd_op s) ;;
          set_insertion_point fwd_op ;;;
          new_outs <- decomposed_outs fwd_op orig_outs decom_rule has_sink_decomp_rule
                                      input_args ;;
          _ <- lift (_check_op_results op_name_ (map Some orig_outs) new_outs None None) ;;
          news <- lift (py_as_values new_outs) ;;
          d <- lift (remap_outputs orig_outs news grad_var_to_var) ;;
          op_replace_all_uses_with fwd_op news ;;;
          block_remove_op fwd_op ;;;
          ret (news, true, d))%M
       else ret (orig_outs, false, grad_var_to_var)).

Definition wrap {A} (l : list A) : list (list A) := map (fun x => [x]) l.

(** The inner function [_prepare_output_grads] of [_decomp_bwd_with_vjp]. *)
Fixpoint cut_gradients (fwd_inputs fwd_outputs bwd_inputs : list Value)
    (bwd_input_names : list string) (todo : list Value)
  : Outcome (list (list Value) * list string) :=
  match todo with
  | [] => Ok ([], [])
  | bwd_input :: rest =>
      if negb (value_in bwd_input fwd_inputs || value_in bwd_input fwd_outputs) then
        match value_index bwd_input bwd_inputs with
        | Raise e => Raise e
        | Ok i =>
            match getitem bwd_input_names i with
            | Raise e => Raise e
            | Ok n =>
                match cut_gradients fwd_inputs fwd_outputs bwd_inputs bwd_input_names rest with
                | Raise e => Raise e
                | Ok (gs, ns) => Ok ([bwd_input] :: gs, n :: ns)
                end
            end
        end
      else cut_gradients fwd_inputs fwd_outputs bwd_inputs bwd_input_names rest
  end.

Fixpoint add_fake_grads (grad_outputs : list (list Value)) (grad_output_names : list string)
    (index : nat) (fwd_output_names : list string) : Outcome (list (list Value)) :=
  match fwd_output_names with
  | [] => Ok []
  | fwd_output_name :: rest =>
      if str_in (fwd_output_name ++ "_grad") grad_output_names then
        match getitem grad_outputs index with
        | Raise e => Raise e
        | Ok g => match add_fake_grads grad_outputs grad_output_names (S index) rest with
                  | Ok l => Ok (g :: l)
                  | Raise e => Raise e
                  end
        end
      else
        match add_fake_grads grad_outputs grad_output_names index rest with
        | Ok l => Ok ([Fake] :: l)
        | Raise e => Raise e
        end
  end.

Definition _prepare_output_grads (fwd_op bwd_op : Operation) (s : Store)
  : Outcome (list (list Value)) :=
  let fwd_outputs := op_results fwd_op in
  let fwd_output_names := op_output_names fwd_op in
  if negb (Nat.eqb (List.length fwd_output_names) (List.length fwd_outputs))
  then Raise AssertionError
  else
    let bwd_inputs := operands_now bwd_op s in
    let bwd_input_names := op_input_names bwd_op in
    if negb (Nat.eqb (List.length bwd_input_names) (List.length bwd_inputs))
    then Raise AssertionError
    else
      let fwd_inputs := operands_now fwd_op s in
      match cut_gradients fwd_inputs fwd_outputs bwd_inputs bwd_input_names bwd_inputs with
      | Raise e => Raise e
      | Ok (grad_outputs, grad_output_names) =>
          add_fake_grads grad_outputs grad_output_names 0 fwd_output_names
      end.

(** The results recorded from the vjp: a fake value where the vjp gives
    [None] or a value that is not initialized. *)
Fixpoint vjp_results (new_grad_inputs : list (list (option Value))) : Outcome (list Value) :=
  match new_grad_inputs with
  | [] => Ok []
  | grad_input :: rest =>
      match grad_input with
      | [] => Raise IndexError
      | first :: _ =>
          let r := match first with
                   | Some v => if initialized v then v else Fake
                   | None => Fake
                   end in
          match vjp_results rest with
          | Ok l => Ok (r :: l)
          | Raise e => Raise e
          end
      end
  end.

(** The update of [grad_var_to_var] after a gradient operation is replaced:
    the item of an old result moves to the new result. *)
Fixpoint migrate_grads (grad_inputs res : list Value) (d : GradMap) : Outcome GradMap :=
  match grad_inputs with
  | [] => Ok d
  | grad_input :: rest =>
      match res with
      | [] => if vdict_mem d grad_input then Raise IndexError
              else migrate_grads rest [] d
      | r :: res' =>
          match vdict_get d grad_input with
          | Some var => migrate_grads rest res' (vdict_set (vdict_remove d grad_input) r var)
          | None => migrate_grads rest res' d
          end
      end
  end.

(** The loop that moves the operations [before_num_ops .. after_num_ops - 1]
    to [insert_idx], [insert_idx + 1], ... *)
Fixpoint move_appended (i : nat) (count : nat) (insert_idx : nat) : M unit :=
  match count with
  | O => ret tt
  | S count' =>
      (s <- get_store ;;
       o <- lift (getitem (blk_ops s) i) ;;
       block_move_op o insert_idx ;;;
       move_appended (S i) count' (S insert_idx))%M
  end.

Definition _decomp_bwd_with_vjp (fwd_op bwd_op : Operation) (grad_var_to_var : GradMap)
  : M (option (list Value) * bool * GradMap) :=
  (s <- get_store ;;
   let fwd_inputs_ := wrap (operands_now fwd_op s) in
   let fwd_outputs_ := wrap (op_results fwd_op) in
   grad_outputs_ <- lift (_prepare_output_grads fwd_op bwd_op s) ;;
   let stop_gradients_ := map (fun grad_input => [negb (initialized grad_input)])
                              (op_results bwd_op) in
   bwd_op_idx <- lift (op_index (op_id bwd_op) (blk_ops s)) ;;
   let before_num_ops := List.length (blk_ops s) in
   new_grad_inputs <- call_vjp fwd_op fwd_inputs_ fwd_outputs_ grad_outputs_ stop_gradients_ ;;
   s' <- get_store ;;
   let after_num_ops := List.length (blk_ops s') in
   if Nat.eqb after_num_ops (before_num_ops + 1)
      && String.eqb (op_name (last (blk_ops s') bwd_op)) (op_name bwd_op)
   then
     block_remove_op (last (blk_ops s') bwd_op) ;;;
     ret (None, false, grad_var_to_var)
   else
     res <- lift (vjp_results new_grad_inputs) ;;
     (if Nat.eqb (List.length res) (List.length (op_results bwd_op)) then ret tt
      else raise AssertionError) ;;;
     d <- lift (migrate_grads (op_results bwd_op) res grad_var_to_var) ;;
     move_appended before_num_ops (after_num_ops - before_num_ops) bwd_op_idx ;;;
     op_replace_all_uses_with bwd_op res ;;;
     block_remove_op bwd_op ;;;
     ret (Some res, true, d))%M.

(** [tuple(grad_var_to_var[k] for k in keys)]. *)
Fixpoint lookup_all (d : GradMap) (keys : list Value) : Outcome (list Value) :=
  match keys with
  | [] => Ok []
  | k :: r => match vdict_get d k with
              | None => Raise KeyError
              | Some v => match lookup_all d r with
                          | Ok l => Ok (v :: l)
                          | Raise e => Raise e
                          end
              end
  end.

(** The results recorded from [grad]: the next gradient for an initialized
    result, a fake value for the others. *)
Fixpoint grad_results (grad_inputs : list Value) (new_grad_inputs : list Value)
    (input_grads_idx : nat) : Outcome (list Value) :=
  match grad_inputs with
  | [] => Ok []
  | grad_input :: rest =>
      if initialized grad_input then
        match getitem new_grad_inputs input_grads_idx with
        | Raise e => Raise e
        | Ok v => match grad_results rest new_grad_inputs (S input_grads_idx) with
                  | Ok l => Ok (v :: l)
                  | Raise e => Raise e
                  end
        end
      else
        match grad_results rest new_grad_inputs input_grads_idx with
        | Ok l => Ok (Fake :: l)
        | Raise e => Raise e
        end
  end.

Definition _decomp_bwd_without_vjp (bwd_op : Operation) (grad_var_to_var : GradMap)
    (fwd_inputs : list Value) (fwd_outputs_after_decompose : option (list Value))
  : M (option (list Value) * bool * GradMap) :=
  match fwd_outputs_after_decompose with
  | None => raise RuntimeError
  | Some fwd_outputs =>
      (s <- get_store ;;
       let bwd_inputs := operands_now bwd_op s in
       let grad_inputs := op_results bwd_op in
       let grad_outputs :=
         filter (fun bwd_input =>
                   negb (value_in bwd_input fwd_inputs || value_in bwd_input fwd_outputs))
                bwd_inputs in
       fwd_outputs_ <- lift (lookup_all grad_var_to_var grad_outputs) ;;
       fwd_inputs_ <- lift (lookup_all grad_var_to_var (filter initialized grad_inputs)) ;;
       bwd_op_idx <- lift (op_index (op_id bwd_op) (blk_ops s)) ;;
       let before_num_ops := List.length (blk_ops s) in
       new_grad_inputs <- grad fwd_outputs_ fwd_inputs_ grad_outputs ;;
       s' <- get_store ;;
       let after_num_ops := List.length (blk_ops s') in
       res <- lift (grad_results grad_inputs new_grad_inputs 0) ;;
       d <- lift (migrate_grads grad_inputs res grad_var_to_var) ;;
       move_appended before_num_ops (after_num_ops - before_num_ops) bwd_op_idx ;;;
       op_replace_all_uses_with bwd_op res ;;;
       block_remove_op bwd_op ;;;
       ret (Some res, true, d))%M
  end.

Definition out_grad_name : list string := ["out_grad"; "Out_grad"; "loss_grad"].

Fixpoint get_fwd_op_from (s : Store) (operands : list Value) (d : GradMap)
    (idx : nat) (names : list string) : Outcome (option Operation) :=
  match names with
  | [] => Ok None
  | input_name :: rest =>
      if str_in input_name out_grad_name then
        match getitem operands idx with
        | Raise e => Raise e
        | Ok out_grad =>
            match vdict_get d out_grad with
            | Some out => Ok (get_defining_op out s)
            | None => get_fwd_op_from s operands d (S idx) rest
            end
        end
      else get_fwd_op_from s operands d (S idx) rest
  end.

Definition _get_fwd_op (bwd_op : Operation) (grad_var_to_var_map : GradMap) (s : Store)
  : Outcome (option Operation) :=
  get_fwd_op_from s (operands_now bwd_op s) grad_var_to_var_map 0 (op_input_names bwd_op).

(** The inputs of the gradient operation whose name has no ["_grad"]. *)
Fixpoint related_inputs (names : list string) (bwd_inputs : list Value) : list Value :=
  match names, bwd_inputs with
  | name :: ns, x :: xs =>
      if negb (substring_in "_grad" name) then x :: related_inputs ns xs
      else related_inputs ns xs
  | _, _ => []
  end.

Definition full_int_array : string := "pd_op.full_int_array".

(** The last loop of [_check_op]. *)
Fixpoint all_related (s : Store) (fwd_inputs fwd_outputs : list Value)
    (operands : list Value) : Outcome bool :=
  match operands with
  | [] => Ok true
  | operand :: rest =>
      if value_in operand fwd_inputs then all_related s fwd_inputs fwd_outputs rest
      else if value_in operand fwd_outputs then all_related s fwd_inputs fwd_outputs rest
      else match get_defining_op operand s with
           | None => Raise AttributeError
           | Some o => if String.eqb (op_name o) full_int_array
                       then all_related s fwd_inputs fwd_outputs rest
                       else Ok false
           end
  end.

Definition _check_op (fwd_op : option Operation) (bwd_op : Operation) (s : Store)
  : Outcome bool :=
  match fwd_op with
  | None => Ok false
  | Some fwd =>
      if negb (String.eqb (op_name fwd ++ "_grad") (op_name bwd_op)) then Ok false
      else
        let bwd_op_input_names := op_input_names bwd_op in
        let bwd_inputs := operands_now bwd_op s in
        if negb (Nat.eqb (List.length bwd_op_input_names) (List.length bwd_inputs))
        then Raise AssertionError
        else
          all_related s (operands_now fwd s) (op_results fwd)
                      (related_inputs bwd_op_input_names bwd_inputs)
  end.

Definition _decomp_bwd_op (fwd_prim_enabled bwd_prim_enabled : bool)
    (bwd_op : Operation) (grad_var_to_var : GradMap)
  : M (option (list Value) * bool * GradMap) :=
  if negb bwd_prim_enabled then raise RuntimeError
  else
    (s <- get_store ;;
     fwd_op <- lift (_get_fwd_op bwd_op grad_var_to_var s) ;;
     ok <- lift (_check_op fwd_op bwd_op s) ;;
     match fwd_op, ok with
     | Some fwd, true =>
         '(new_grads, bwd_has_decomposed, d) <-
            _decomp_bwd_with_vjp fwd bwd_op grad_var_to_var ;;
         if negb bwd_has_decomposed then
           s1 <- get_store ;;
           let fwd_inputs := operands_now fwd s1 in
           '(new_fwd_outputs, fwd_has_decomposed, d1) <-
              _decomp_fwd_op fwd_prim_enabled fwd d ;;
           if fwd_has_decomposed then
             _decomp_bwd_without_vjp bwd_op d1 fwd_inputs (Some new_fwd_outputs)
           else ret (new_grads, bwd_has_decomposed, d1)
         else ret (new_grads, bwd_has_decomposed, d)
     | _, _ => ret (None, false, grad_var_to_var)
     end)%M.

(** ** The program driver *)

(** The process-wide switches: [core._is_fwd_prim_enabled()],
    [core._is_bwd_prim_enabled()], the flag [FLAGS_enable_pir_api] and
    [paddle.base.framework.global_var._use_pir_api_]. *)
Record Flags := mkFlags {
  prim_forward_enabled : bool;
  prim_backward_enabled : bool;
  FLAGS_enable_pir_api : bool;
  use_pir_api_ : bool
}.

Record World := mkWorld {
  flags : Flags;
  store : Store
}.

(** What the driver logs. *)
Record Report := mkReport {
  num_bwd_ops_decomposed : nat;
  bwd_ops_decomposed : list string;
  num_bwd_ops_undecomposed : nat;
  bwd_ops_undecomposed : list string
}.

Fixpoint bwd_ops_names (ops : list Operation) (bwd_ops : list string) : list string :=
  match ops with
  | [] => bwd_ops
  | op :: rest =>
      if (endswith (op_name op) "_grad" || endswith (op_name op) "_grad_")
         && negb (str_in (op_name op) bwd_ops)
      then bwd_ops_names rest (bwd_ops ++ [op_name op])
      else bwd_ops_names rest bwd_ops
  end.

Definition _get_bwd_ops_name (s : Store) : list string := bwd_ops_names (blk_ops s) [].

(** The choice among the values of one name, written twice in
    [_translate_gradvartovar_to_pir]: for the gradient and for the variable. *)
Definition select_var (s : Store) (vars : list Value) : Outcome (list Value) :=
  match vars with
  | [v] => Ok [v]
  | _ =>
      let by_last :=
        match vars with
        | [] => Raise IndexError
        | v0 :: r =>
            match get_defining_op (last r v0) s with
            | None => Raise AttributeError
            | Some last_op => if endswith (op_name last_op) "_" then Ok [v0] else Ok []
            end
        end in
      match vars with
      | [_; v1] =>
          match get_defining_op v1 s with
          | None => Raise AttributeError
          | Some o => if String.eqb (op_name o) "builtin.slice" then Ok [v1] else by_last
          end
      | _ => by_last
      end
  end.

Fixpoint translate_items (s : Store) (param_mapping : list (string * list Value))
    (items : list (string * string)) (pir_grad_var_to_var : GradMap) : Outcome GradMap :=
  match items with
  | [] => Ok pir_grad_var_to_var
  | (grad_var, var) :: rest =>
      match sdict_get param_mapping grad_var, sdict_get param_mapping var with
      | Some gs, Some vs =>
          match gs, vs with
          | [g], [v] => translate_items s param_mapping rest (vdict_set pir_grad_var_to_var g v)
          | _, _ =>
              match select_var s gs with
              | Raise e => Raise e
              | Ok new_grad_vars =>
                  match select_var s vs with
                  | Raise e => Raise e
                  | Ok new_vars =>
                      match new_grad_vars, new_vars with
                      | [g], [v] =>
                          translate_items s param_mapping rest
                                          (vdict_set pir_grad_var_to_var g v)
                      | _, _ => Raise AssertionError
                      end
                  end
              end
          end
      | _, _ => translate_items s param_mapping rest pir_grad_var_to_var
      end
  end.

Definition _translate_gradvartovar_to_pir (param_mapping : list (string * list Value))
    (grad_var_to_var : list (string * string)) (s : Store) : Outcome GradMap :=
  translate_items s param_mapping grad_var_to_var [].

Definition add_name (name : string) (l : list string) : list string :=
  if str_in name l then l else l ++ [name].

(** The body of the loop over the operations of the program. *)
Definition driver_step (fwd_prim_enabled bwd_prim_enabled : bool) (bwd_ops : list string)
    (op : Operation) (d : GradMap) (r : Report) : M (GradMap * Report) :=
  if str_in (op_name op) bwd_ops then
    ('(_, has_decomposed, d') <- _decomp_bwd_op fwd_prim_enabled bwd_prim_enabled op d ;;
     if has_decomposed then
       ret (d', mkReport (num_bwd_ops_decomposed r + 1)
                         (add_name (op_name op) (bwd_ops_decomposed r))
                         (num_bwd_ops_undecomposed r) (bwd_ops_undecomposed r))
     else
       ret (d', mkReport (num_bwd_ops_decomposed r) (bwd_ops_decomposed r)
                         (num_bwd_ops_undecomposed r + 1)
                         (add_name (op_name op) (bwd_ops_undecomposed r))))%M
  else ret (d, r).

Fixpoint driver_loop (fwd_prim_enabled bwd_prim_enabled : bool) (bwd_ops : list string)
    (ops : list Operation) (d : GradMap) (r : Report) : M Report :=
  match ops with
  | [] => ret r
  | op :: rest =>
      ('(d', r') <- driver_step fwd_prim_enabled bwd_prim_enabled bwd_ops op d r ;;
       driver_loop fwd_prim_enabled bwd_prim_enabled bwd_ops rest d' r')%M
  end.

(** The part of [decompose_pir_program] under [program_guard], before the
    switches are set back. *)
Definition driver_body (fwd_prim_enabled bwd_prim_enabled : bool)
    (param_mapping : list (string * list Value))
    (grad_var_to_var : list (string * string)) : M Report :=
  program_guard
    (s <- get_store ;;
     pir_grad_var_to_var <-
       lift (_translate_gradvartovar_to_pir param_mapping grad_var_to_var s) ;;
     let ops := blk_ops s in
     let bwd_ops := _get_bwd_ops_name s in
     driver_loop fwd_prim_enabled bwd_prim_enabled bwd_ops ops pir_grad_var_to_var
                 (mkReport 0 [] 0 []))%M.

(** [decompose_pir_program].  The switches are read and set before the body;
    the statements that set them back are the last ones of the body, so an
    exception raised before them leaves the switches as they were set. *)
Definition decompose_pir_program (param_mapping : list (string * list Value))
    (grad_var_to_var : list (string * string)) (w : World) : Outcome Report * World :=
  let prev_fwd_prim_state := prim_forward_enabled (flags w) in
  let prev_bwd_prim_state := prim_backward_enabled (flags w) in
  let prev_pir_api_flag := FLAGS_enable_pir_api (flags w) in
  let enabled := mkFlags true true true (use_pir_api_ (flags w)) in
  match driver_body (prim_forward_enabled enabled) (prim_backward_enabled enabled)
                    param_mapping grad_var_to_var (store w) with
  | (Ok report, s') =>
      (Ok report,
       mkWorld (mkFlags prev_fwd_prim_state prev_bwd_prim_state prev_pir_api_flag
                        prev_pir_api_flag) s')
  | (Raise e, s') => (Raise e, mkWorld enabled s')
  end.

(** [decompose] on the world: it reads the forward switch. *)
Definition decompose_in (program : ProgramArg) (src_vars : list PyVal)
    (blacklist whitelist : SetArg) (w : World) : Outcome (list PyVal) * World :=
  match decompose (prim_forward_enabled (flags w)) program src_vars blacklist whitelist
                  (store w) with
  | (o, s') => (o, mkWorld (flags w) s')
  end.

End Decomp.

(** ** The rule of [mean] *)

Definition dtype_name (d : DType) : string :=
  match d with
  | BOOL => "bool"
  | INT32 => "int32"
  | INT64 => "int64"
  | FLOAT16 => "float16"
  | BFLOAT16 => "uint16"
  | FLOAT32 => "float32"
  | FLOAT64 => "float64"
  end.

(** [shape[i]] with Python's indexing: a negative index counts from the end. *)
Definition shape_getitem (shape : Shape) (i : Z) : Outcome Z :=
  let n := Z.of_nat (List.length shape) in
  let j := if Z.ltb i 0 then (i + n)%Z else i in
  if Z.ltb j 0 || Z.leb n j then Raise IndexError
  else getitem shape (Z.to_nat j).

Module primitives.

(** Modelled from the spec: the primitives [sum], [fill_constant] and the
    division of values, of the module [primitives] that [rules.py] imports.
    Each builds one operation at the insertion point.  [sum] keeps the dtype
    and drops the reduced dimensions (or keeps them with size 1);
    [fill_constant] has the shape and dtype it is given; the division has the
    dtype of its first operand and the broadcast shape. *)
Definition normalize_axis (rank : nat) (a : Z) : Outcome nat :=
  let n := Z.of_nat rank in
  let j := if Z.ltb a 0 then (a + n)%Z else a in
  if Z.ltb j 0 || Z.leb n j then Raise ValueError else Ok (Z.to_nat j).

Fixpoint normalize_axes (rank : nat) (axes : list Z) : Outcome (list nat) :=
  match axes with
  | [] => Ok []
  | a :: r => match normalize_axis rank a with
              | Raise e => Raise e
              | Ok j => match normalize_axes rank r with
                        | Ok l => Ok (j :: l)
                        | Raise e => Raise e
                        end
              end
  end.

Fixpoint reduce_shape (axes : list nat) (keepdim : bool) (idx : nat) (shape : Shape) : Shape :=
  match shape with
  | [] => []
  | d :: r =>
      if nat_in idx axes
      then (if keepdim then 1%Z :: reduce_shape axes keepdim (S idx) r
            else reduce_shape axes keepdim (S idx) r)
      else d :: reduce_shape axes keepdim (S idx) r
  end.

(** Modelled from the spec: [sum(x, axis, keepdim)] of the primitives. *)
Definition sum (x : Value) (axis : list Z) (keepdim : bool) : M Value :=
  match value_type x with
  | Raise e => raise e
  | Ok (dtype, shape) =>
      match normalize_axes (List.length shape) axis with
      | Raise e => raise e
      | Ok axes =>
          (res <- build_op "pd_op.sum" [x] ["x"] ["out"]
                           [("axis", PyList (map PyInt axis)); ("keepdim", PyBool keepdim)]
                           [(dtype, reduce_shape axes keepdim 0 shape)] ;;
           lift (getitem res 0))%M
      end
  end.

(** Modelled from the spec: [fill_constant(shape, value, dtype)] of the
    primitives. *)
Definition fill_constant (shape : Shape) (value : Z) (dtype : DType) : M Value :=
  (res <- build_op "pd_op.full" [] [] ["out"]
                   [("shape", PyList (map PyInt shape)); ("value", PyInt value);
                    ("dtype", PyStr (dtype_name dtype))]
                   [(dtype, shape)] ;;
   lift (getitem res 0))%M.

(** Modelled from the spec: the broadcast of two shapes, aligned on their
    last dimensions. *)
Fixpoint broadcast_rev (a b : Shape) : Outcome Shape :=
  match a, b with
  | [], _ => Ok b
  | _, [] => Ok a
  | x :: a', y :: b' =>
      match broadcast_rev a' b' with
      | Raise e => Raise e
      | Ok r => if Z.eqb x y then Ok (x :: r)
                else if Z.eqb x 1 then Ok (y :: r)
                else if Z.eqb y 1 then Ok (x :: r)
                else Raise ValueError
      end
  end.

Definition broadcast (a b : Shape) : Outcome Shape :=
  match broadcast_rev (rev a) (rev b) with
  | Ok r => Ok (rev r)
  | Raise e => Raise e
  end.

(** Modelled from the spec: [x / y] on values, the primitive [divide]. *)
Definition divide (x y : Value) : M Value :=
  match value_type x, value_type y with
  | Ok (dtype, xs), Ok (_, ys) =>
      match broadcast xs ys with
      | Raise e => raise e
      | Ok shape =>
          (res <- build_op "pd_op.divide" [x; y] ["x"; "y"] ["out"] [] [(dtype, shape)] ;;
           lift (getitem res 0))%M
      end
  | Raise e, _ => raise e
  | _, Raise e => raise e
  end.

End primitives.

Module rules.

(** [isinstance(axis, int)]: a bool is an int. *)
Definition as_int (x : PyVal) : option Z :=
  match x with
  | PyInt n => Some n
  | PyBool b => Some (if b then 1%Z else 0%Z)
  | _ => None
  end.

Fixpoint as_ints (xs : list PyVal) : Outcome (list Z) :=
  match xs with
  | [] => Ok []
  | x :: r => match as_int x with
              | None => Raise TypeError
              | Some n => match as_ints r with
                          | Ok l => Ok (n :: l)
                          | Raise e => Raise e
                          end
              end
  end.

(** [value_to_fill]: the product of the sizes of the reduced dimensions. *)
Fixpoint product_of_dims (x_shape : Shape) (axes : list Z) (value_to_fill : Z) : Outcome Z :=
  match axes with
  | [] => Ok value_to_fill
  | axis :: r => match shape_getitem x_shape axis with
                 | Raise e => Raise e
                 | Ok d => product_of_dims x_shape r (value_to_fill * d)%Z
                 end
  end.

(** [mean(x, axis, keepdim)], registered for ["pd_op.mean"]. *)
Definition mean (args : list PyVal) : M PyVal :=
  match args with
  | [x; axis; keepdim] =>
      match x with
      | PyOpResult xv =>
          match value_type xv with
          | Raise e => raise e
          | Ok (_, x_shape) =>
              let axis :=
                match axis with
                | PyNone | PyList [] =>
                    PyTuple (map (fun i => PyInt (Z.of_nat i)) (seq 0 (List.length x_shape)))
                | _ => axis
                end in
              let axes :=
                match as_int axis with
                | Some n => Ok [n]
                | None => match axis with
                          | PyList l | PyTuple l => as_ints l
                          | _ => Raise TypeError
                          end
                end in
              match axes, keepdim with
              | Raise e, _ => raise e
              | Ok axes, PyBool kd =>
                  (sum_x <- primitives.sum xv axes kd ;;
                   value_to_fill <- lift (product_of_dims x_shape axes 1%Z) ;;
                   ty <- lift (value_type sum_x) ;;
                   norm <- primitives.fill_constant [] value_to_fill (fst ty) ;;
                   res <- primitives.divide sum_x norm ;;
                   ret (PyOpResult res))%M
              | Ok _, _ => raise TypeError
              end
          end
      | _ => raise AttributeError
      end
  | _ => raise TypeError
  end.

(** The registry of [register.get_decomp_rule], with the rule embedded here. *)
Definition get_decomp_rule (name : string) : option (list PyVal -> M PyVal) :=
  if String.eqb name "pd_op.mean" then Some mean else None.

End rules.

(** * Example programs *)

(** The store [s] with the operations [l]. *)
Definition with_ops (s : Store) (l : list Operation) : Store :=
  mkStore l (next_id s) (insertion_point s) (composite_ops_record s).

(** A new operation at the end of the block, as the engines append them. *)
Definition append_op (name : string) (operands : list Value)
    (in_names out_names : list string) (tys : list TensorType) : M (list Value) :=
  fun s =>
    let i := next_id s in
    let res := mk_results i 0 tys in
    let o := mkOp i name operands res in_names out_names [] [] in
    (Ok res, mkStore (blk_ops s ++ [o]) (S i) (insertion_point s) (composite_ops_record s)).

Definition f32 (shape : Shape) : option TensorType := Some (FLOAT32, shape).

Definition no_rule (name : string) : option (list PyVal -> M PyVal) := None.
Definition no_decomp (o : Operation) : bool := false.
Definition no_call_decomp (o : Operation) : M (list (list (option Value))) :=
  raise RuntimeError.
Definition no_grad (outputs inputs out_grads : list Value) : M (list Value) :=
  raise RuntimeError.

(** A block where one [builtin.combine] feeds an [add_n], which has a native
    decomposition, and two [stack] operations, which have none. *)
Module CombineExample.

Definition a : Value := OpRes 0 0 (f32 [2]%Z).
Definition b : Value := OpRes 1 0 (f32 [2]%Z).
(** The vector type of the combined value is written as a tensor type. *)
Definition c : Value := OpRes 2 0 (f32 [2; 2]%Z).
Definition y : Value := OpRes 3 0 (f32 [2]%Z).

Definition data_a := mkOp 0 "pd_op.data" [] [a] [] ["out"] [] [].
Definition data_b := mkOp 1 "pd_op.data" [] [b] [] ["out"] [] [].
Definition combine := mkOp 2 "builtin.combine" [a; b] [c] [] ["out"] [] [].
Definition add_n := mkOp 3 "pd_op.add_n" [c] [y] ["inputs"] ["out"] [] [].
Definition stack1 :=
  mkOp 4 "pd_op.stack" [c] [OpRes 4 0 (f32 [2; 2]%Z)] ["x"] ["out"] [] [].
Definition stack2 :=
  mkOp 5 "pd_op.stack" [c] [OpRes 5 0 (f32 [2; 2]%Z)] ["x"] ["out"] [] [].
Definition relu := mkOp 6 "pd_op.relu" [y] [OpRes 6 0 (f32 [2]%Z)] ["x"] ["out"] [] [].

(** The block with two surviving consumers of the combine, and with one. *)
Definition two_consumers : Store :=
  mkStore [data_a; data_b; combine; add_n; stack1; stack2; relu] 7 None [].
Definition one_consumer : Store :=
  mkStore [data_a; data_b; combine; add_n; stack1; relu] 7 None [].

Definition has_decomp (o : Operation) : bool := String.eqb (op_name o) "pd_op.add_n".

(** The native decomposition of [add_n] over two combined inputs: one [add]. *)
Definition call_decomp (o : Operation) : M (list (list (option Value))) :=
  fun s =>
    match operands_now o s, op_results o with
    | [packed], [OpRes _ _ (Some ty)] =>
        match get_defining_op packed s with
        | Some prev =>
            match build_op "pd_op.add" (operands_now prev s) ["x"; "y"] ["out"] [] [ty] s with
            | (Ok [r], s') => (Ok [[Some r]], s')
            | (_, s') => (Raise RuntimeError, s')
            end
        | None => (Raise RuntimeError, s)
        end
    | _, _ => (Raise RuntimeError, s)
    end.

Definition run (s : Store) : Outcome (list PyVal) * Store :=
  decompose [] [] [] no_rule has_decomp call_decomp true AProgram [PyOpResult y]
            (ASet []) (ASet []) s.

End CombineExample.

(** A block with [tanh] and its gradient operation. *)
Module TanhExample.

Definition x : Value := OpRes 0 0 (f32 [2]%Z).
Definition out : Value := OpRes 1 0 (f32 [2]%Z).
Definition out_grad : Value := OpRes 2 0 (f32 [2]%Z).
Definition x_grad : Value := OpRes 3 0 (f32 [2]%Z).

Definition data_x := mkOp 0 "pd_op.data" [] [x] [] ["out"] [] [].
Definition tanh := mkOp 1 "pd_op.tanh" [x] [out] ["x"] ["out"] [] [].
Definition data_g := mkOp 2 "pd_op.data" [] [out_grad] [] ["out"] [] [].
Definition tanh_grad :=
  mkOp 3 "pd_op.tanh_grad" [out; out_grad] [x_grad] ["out"; "out_grad"] ["x_grad"] [] [].
Definition fetch := mkOp 4 "pd_op.fetch" [x_grad] [OpRes 4 0 (f32 [2]%Z)] ["x"] ["out"] [] [].

Definition block : Store := mkStore [data_x; tanh; data_g; tanh_grad; fetch] 5 None [].

Definition grad_var_to_var : GradMap := [(out_grad, out); (x_grad, x)].

(** The names of the variables and their values, as the driver takes them. *)
Definition param_mapping : list (string * list Value) :=
  [("x", [x]); ("out", [out]); ("out@GRAD", [out_grad]); ("x@GRAD", [x_grad])].
Definition grad_names : list (string * string) :=
  [("out@GRAD", "out"); ("x@GRAD", "x")].

(** A mapping where a gradient name has two values, the second one from an
    operation that is neither a slice nor an in-place variant. *)
Definition param_mapping_two_values : list (string * list Value) :=
  [("x", [x]); ("out", [out]); ("out@GRAD", [out_grad]);
   ("x@GRAD", [x_grad; OpRes 4 0 (f32 [2]%Z)])].

(** A vjp without composite rule: it appends the gradient operation again. *)
Definition vjp_same_op (fwd_op : Operation) (inputs outputs out_grads : list (list Value))
    (stop_gradients : list (list bool)) : M (list (list (option Value))) :=
  fun s =>
    match append_op (op_name fwd_op ++ "_grad") (concat outputs ++ concat out_grads)
                    ["out"; "out_grad"] ["x_grad"] [(FLOAT32, [2]%Z)] s with
    | (Ok [r], s') => (Ok [[Some r]], s')
    | (_, s') => (Raise RuntimeError, s')
    end.

(** A vjp with the composite rule of tanh: out_grad * (1 - out * out). *)
Definition vjp_composite (fwd_op : Operation) (inputs outputs out_grads : list (list Value))
    (stop_gradients : list (list bool)) : M (list (list (option Value))) :=
  match concat outputs, concat out_grads with
  | [o], [g] =>
      (sq <- append_op "pd_op.multiply" [o; o] ["x"; "y"] ["out"] [(FLOAT32, [2]%Z)] ;;
       one <- append_op "pd_op.full" [] [] ["out"] [(FLOAT32, [1]%Z)] ;;
       df <- append_op "pd_op.subtract" (one ++ sq) ["x"; "y"] ["out"] [(FLOAT32, [2]%Z)] ;;
       r <- append_op "pd_op.multiply" (g :: df) ["x"; "y"] ["out"] [(FLOAT32, [2]%Z)] ;;
       ret (map (fun v => [Some v]) r))%M
  | _, _ => raise RuntimeError
  end.

(** A vjp that appends two operations and hands back no result. *)
Definition vjp_no_result (fwd_op : Operation) (inputs outputs out_grads : list (list Value))
    (stop_gradients : list (list bool)) : M (list (list (option Value))) :=
  (_ <- append_op "pd_op.full" [] [] ["out"] [(FLOAT32, [1]%Z)] ;;
   _ <- append_op "pd_op.full" [] [] ["out"] [(FLOAT32, [1]%Z)] ;;
   ret [])%M.

Definition bwd_op_with (vjp : Operation -> list (list Value) -> list (list Value) ->
                              list (list Value) -> list (list bool) ->
                              M (list (list (option Value))))
  : M (option (list Value) * bool * GradMap) :=
  _decomp_bwd_op [] [] no_rule no_decomp no_call_decomp vjp no_grad true true
                 tanh_grad grad_var_to_var.

Definition driver_with (vjp : Operation -> list (list Value) -> list (list Value) ->
                              list (list Value) -> list (list bool) ->
                              M (list (list (option Value))))
    (pm : list (string * list Value)) (w : World) : Outcome Report * World :=
  decompose_pir_program [] [] no_rule no_decomp no_call_decomp vjp no_grad
                        pm grad_names w.

Definition all_disabled : World := mkWorld (mkFlags false false false false) block.

End TanhExample.

Module ValidatorExample.

Definition out0 : Value := OpRes 7 0 (Some (FLOAT32, [2; 3]%Z)).
Definition out1 : Value := OpRes 7 1 (Some (FLOAT32, [2]%Z)).
Definition new0 : Value := OpRes 9 0 (Some (FLOAT32, [2; 3]%Z)).
(** A replacement of another dtype and another shape, with a dimension -1. *)
Definition new1 : Value := OpRes 10 0 (Some (INT64, [-1; 5]%Z)).

End ValidatorExample.

(** A block with [mean] over the second axis of a 4 x 5 input, and a variable
    map whose forward value is the output of [mean]. *)
Module MeanExample.

Definition x : Value := OpRes 0 0 (f32 [4; 5]%Z).
Definition y : Value := OpRes 1 0 (f32 [4]%Z).
Definition y_grad : Value := OpRes 9 0 (f32 [4]%Z).

Definition data_x := mkOp 0 "pd_op.data" [] [x] [] ["out"] [] [].
Definition mean_op :=
  mkOp 1 "pd_op.mean" [x] [y] ["x"] ["out"] ["axis"; "keepdim"]
       [("axis", PyList [PyInt 1]); ("keepdim", PyBool false)].
Definition relu := mkOp 2 "pd_op.relu" [y] [OpRes 2 0 (f32 [4]%Z)] ["x"] ["out"] [] [].

Definition block : Store := mkStore [data_x; mean_op; relu] 3 None [].

Definition grad_var_to_var : GradMap := [(y_grad, y); (x, x)].

Definition fwd : M (list Value * bool * GradMap) :=
  _decomp_fwd_op [] [] rules.get_decomp_rule no_decomp no_call_decomp true
                 mean_op grad_var_to_var.

End MeanExample.

(** A reverse-mode differentiation for the block of tanh: two operations
    appended to the block, and one gradient. *)
Module FallbackExample.

Definition grad (outputs inputs out_grads : list Value) : M (list Value) :=
  (sq <- append_op "pd_op.multiply" (outputs ++ outputs) ["x"; "y"] ["out"]
                   [(FLOAT32, [2]%Z)] ;;
   append_op "pd_op.multiply" (out_grads ++ sq) ["x"; "y"] ["out"] [(FLOAT32, [2]%Z)])%M.

Definition run (d : GradMap) : M (option (list Value) * bool * GradMap) :=
  _decomp_bwd_without_vjp grad TanhExample.tanh_grad d [TanhExample.x]
                          (Some [TanhExample.out]).

End FallbackExample.

(** A block with [mean] and its gradient operation; the vjp has no
    composite rule for it, and [grad] differentiates the decomposed forward
    operations with two appended operations. *)
Module MeanGradExample.

Definition x : Value := OpRes 0 0 (f32 [4; 5]%Z).
Definition y : Value := OpRes 1 0 (f32 [4]%Z).
Definition y_grad : Value := OpRes 2 0 (f32 [4]%Z).
Definition x_grad : Value := OpRes 3 0 (f32 [4; 5]%Z).

Definition data_x := mkOp 0 "pd_op.data" [] [x] [] ["out"] [] [].
Definition mean_op :=
  mkOp 1 "pd_op.mean" [x] [y] ["x"] ["out"] ["axis"; "keepdim"]
       [("axis", PyList [PyInt 1]); ("keepdim", PyBool false)].
Definition data_g := mkOp 2 "pd_op.data" [] [y_grad] [] ["out"] [] [].
Definition mean_grad :=
  mkOp 3 "pd_op.mean_grad" [x; y_grad] [x_grad] ["x"; "out_grad"] ["x_grad"]
       ["axis"; "keepdim"] [("axis", PyList [PyInt 1]); ("keepdim", PyBool false)].
Definition fetch :=
  mkOp 4 "pd_op.fetch" [x_grad] [OpRes 4 0 (f32 [4; 5]%Z)] ["x"] ["out"] [] [].

Definition block : Store := mkStore [data_x; mean_op; data_g; mean_grad; fetch] 5 None [].

Definition grad_var_to_var : GradMap := [(y_grad, y); (x_grad, x)].

Definition call_vjp (fwd_op : Operation) (inputs outputs out_grads : list (list Value))
    (stop_gradients : list (list bool)) : M (list (list (option Value))) :=
  (r <- append_op (op_name fwd_op ++ "_grad") (concat inputs ++ concat out_grads)
                  ["x"; "out_grad"] ["x_grad"] [(FLOAT32, [4; 5]%Z)] ;;
   ret (map (fun v => [Some v]) r))%M.

Definition grad (outputs inputs out_grads : list Value) : M (list Value) :=
  (e <- append_op "pd_op.expand" out_grads ["x"] ["out"] [(FLOAT32, [4; 5]%Z)] ;;
   c <- append_op "pd_op.full" [] [] ["out"] [(FLOAT32, [])] ;;
   append_op "pd_op.divide" (e ++ c) ["x"; "y"] ["out"] [(FLOAT32, [4; 5]%Z)])%M.

Definition bwd : M (option (list Value) * bool * GradMap) :=
  _decomp_bwd_op [] [] rules.get_decomp_rule no_decomp no_call_decomp call_vjp grad
                 true true mean_grad grad_var_to_var.

End MeanGradExample.

(** * Specifications *)

(** What [_decomp_bwd_with_vjp] records for one result of the vjp: the first
    value of the entry, or a fake value when that is [None] or not
    initialized. *)
Definition recorded (grad_input : list (option Value)) (r : Value) : Prop :=
  match grad_input with
  | Some v :: _ => r = (if initialized v then v else Fake)
  | None :: _ => r = Fake
  | [] => False
  end.

(** The vjp appended exactly one operation, named as the gradient operation. *)
Definition same_op_appended (app : list Operation) (bwd_op : Operation) : Prop :=
  exists o, app = [o] /\ op_name o = op_name bwd_op.

(** An input of the gradient operation that the forward operation accounts
    for: one of its operands, one of its results, or the result of a
    [pd_op.full_int_array]. *)
Definition traces_to (fwd : Operation) (s : Store) (input : Value) : Prop :=
  In input (operands_now fwd s)
  \/ In input (op_results fwd)
  \/ exists o, get_defining_op input s = Some o /\ op_name o = "pd_op.full_int_array".

(** The pairing of a gradient operation with the forward operation found for
    it, in the words of the specification. *)
Definition paired (fwd_op : option Operation) (bwd_op : Operation) (s : Store) : Prop :=
  exists fwd,
    fwd_op = Some fwd
    /\ (op_name fwd ++ "_grad")%string = op_name bwd_op
    /\ forall i name input,
         nth_error (op_input_names bwd_op) i = Some name ->
         nth_error (operands_now bwd_op s) i = Some input ->
         substring_in "_grad" name = false ->
         traces_to fwd s input.

(** A name of gradient operation, as [_get_bwd_ops_name] tests it. *)
Definition is_grad_name (name : string) : bool :=
  endswith name "_grad" || endswith name "_grad_".

(** The gradient and forward values that the names of one item stand for,
    when each name has exactly one value. *)
Definition translated (param_mapping : list (string * list Value))
    (items : list (string * string)) (g v : Value) : Prop :=
  exists grad_var var,
    In (grad_var, var) items
    /\ sdict_get param_mapping grad_var = Some [g]
    /\ sdict_get param_mapping var = Some [v].

(** One item of [grad_var_to_var] after [_decomp_fwd_op]: the key is kept,
    and a value that was an original output is the new output of the same
    position. *)
Definition remapped (orig_outs news : list Value) (before after : Value * Value) : Prop :=
  fst after = fst before
  /\ ((value_in (snd before) orig_outs = false /\ snd after = snd before)
      \/ exists i, value_index (snd before) orig_outs = Ok i
                   /\ nth_error news i = Some (snd after)).

(** What [_decomp_bwd_without_vjp] records for one result slot: the fake
    value exactly for a slot that is not initialized. *)
Definition slot_filled (grad_input r : Value) : Prop :=
  initialized grad_input = false -> r = Fake.

(** What the loop of the driver keeps of a report: the two lists have no name twice and
    hold names of [bwd_ops] only. *)
Definition report_ok (bwd_ops : list string) (r : Report) : Prop :=
  NoDup (bwd_ops_decomposed r)
  /\ NoDup (bwd_ops_undecomposed r)
  /\ forall n, In n (bwd_ops_decomposed r) \/ In n (bwd_ops_undecomposed r) ->
               In n bwd_ops.

(** The operations of [ops] that the loop of the driver hands to
    [_decomp_bwd_op]. *)
Definition visited (bwd_ops : list string) (ops : list Operation) : nat :=
  List.length (filter (fun op => str_in (op_name op) bwd_ops) ops).

(** A store whose operation identifiers are below the next fresh one. *)
Definition well_numbered (s : Store) : Prop :=
  forall o, In o (blk_ops s) -> op_id o < next_id s.

(** What a rule, or the native decomposition, does to a well numbered store
    when it only builds operations: the store stays well numbered, the
    operations that were in the block are still there as they were, and the
    record of the decomposed operations is not touched. *)
Definition builds_only {A} (m : M A) : Prop :=
  forall s,
    well_numbered s ->
    well_numbered (snd (m s))
    /\ (forall i o, find_op i (blk_ops s) = Some o ->
                    find_op i (blk_ops (snd (m s))) = Some o)
    /\ composite_ops_record (snd (m s)) = composite_ops_record s.

(** An operation that the pass has left alone, in a store reached from one
    whose record was [record0]: its name has not been added to the record
    of the decomposed operations and, unless it is a [builtin.combine], it is
    in the block as it was, up to the rewiring of its operands. *)
Definition left_alone (x : Operation) (record0 : list string) (s : Store) : Prop :=
  well_numbered s
  /\ (In (op_name x) (composite_ops_record s) -> In (op_name x) record0)
  /\ (op_name x <> combine_op_name ->
      exists operands, find_op (op_id x) (blk_ops s) = Some (set_operands x operands)).

(** A step that keeps [P] on the store, however it ends, and whose result
    satisfies [Q] when it returns. *)
Definition hoare {A} (P : Store -> Prop) (m : M A) (Q : A -> Prop) : Prop :=
  forall s, P s -> P (snd (m s)) /\ forall a, fst (m s) = Ok a -> Q a.

(** * Properties *)

(** ** Membership and list lemmas *)

Lemma Value_eqb_eq a b : Value_eqb a b = true <-> a = b.
Proof. unfold Value_eqb. destruct (Value_eq_dec a b); split; congruence. Qed.

Lemma Value_eqb_refl a : Value_eqb a a = true.
Proof. apply Value_eqb_eq. reflexivity. Qed.

Lemma str_in_In x l : str_in x l = true <-> In x l.
Proof.
  induction l as [| y r IH]; simpl.
  - split; [discriminate | tauto].
  - destruct (String.eqb x y) eqn:E.
    + apply String.eqb_eq in E. subst. tauto.
    + apply String.eqb_neq in E. rewrite IH. split; [tauto |].
      intros [H | H]; [congruence | exact H].
Qed.

Lemma value_in_In x l : value_in x l = true <-> In x l.
Proof.
  induction l as [| y r IH]; simpl.
  - split; [discriminate | tauto].
  - destruct (Value_eqb x y) eqn:E.
    + apply Value_eqb_eq in E. subst. tauto.
    + rewrite IH. split; [tauto |].
      intros [H | H]; [| exact H].
      subst. rewrite Value_eqb_refl in E. discriminate.
Qed.

(** ** The conversion of the rule result *)

(** C10: a rule result that is neither an [OpResult] nor a sequence is not
    refused by [_build_tensor_tuple]: the call returns normally, and what it
    returns is the [TypeError] object it built. *)
Theorem build_tensor_tuple_returns_the_exception (xs : PyVal) :
  isinstance_OpResult xs = false ->
  isinstance_Sequence xs = false ->
  _build_tensor_tuple xs = Ok (PyExc TypeError).
Proof.
  intros H1 H2. unfold _build_tensor_tuple. rewrite H1, H2. reflexivity.
Qed.

Lemma build_tensor_tuple_returns_the_exception_witness :
  isinstance_OpResult (PyInt 3) = false /\
  isinstance_Sequence (PyInt 3) = false /\
  _build_tensor_tuple (PyInt 3) = Ok (PyExc TypeError).
Proof.
  split; [reflexivity |]. split; [reflexivity |].
  apply (build_tensor_tuple_returns_the_exception (PyInt 3)); reflexivity.
Defined.

(** The exception object reaches the validator, whose [len] refuses it. *)
Lemma check_op_results_on_exception_object none name orig_outs ov dv :
  _check_op_results none name orig_outs (PyExc TypeError) ov dv = Raise TypeError.
Proof. reflexivity. Qed.

(** ** The result validator *)

Section Validator.

Variable ops_contain_none : list string.

(** The loop leaves at the first pair whose original output is a value:
    the pairs after it are not read. *)
Lemma check_pairs_stops_at_first_value name ov orig new_out rest dv :
  check_pairs ops_contain_none name ov ((Some orig, new_out) :: rest) dv =
  check_pairs ops_contain_none name ov [(Some orig, new_out)] dv.
Proof.
  simpl.
  destruct (py_is_none new_out && negb (str_in name ops_contain_none)); [reflexivity |].
  destruct (negb (py_is_none new_out)); reflexivity.
Qed.

(** The count is checked before any pair. *)
Lemma check_op_results_count name orig_outs items ov dv :
  List.length orig_outs <> List.length items ->
  _check_op_results ops_contain_none name orig_outs (PyTuple items) ov dv
  = Raise AssertionError.
Proof.
  intros H. unfold _check_op_results. simpl.
  apply Nat.eqb_neq in H. rewrite H. reflexivity.
Qed.

End Validator.

(** C1, on the code: with two results, a second replacement whose dtype
    and shape differ from the original and whose shape has a dimension -1
    passes the validator.  The same pair alone is refused. *)
Theorem check_op_results_accepts_bad_second_pair :
  _check_op_results [] "pd_op.layer_norm"
    [Some ValidatorExample.out0; Some ValidatorExample.out1]
    (PyTuple [PyOpResult ValidatorExample.new0; PyOpResult ValidatorExample.new1])
    None None = Ok None
  /\
  _check_op_results [] "pd_op.layer_norm"
    [Some ValidatorExample.out1]
    (PyTuple [PyOpResult ValidatorExample.new1])
    None None = Raise AssertionError.
Proof. split; reflexivity. Qed.

(** ** The eligibility filter *)

Lemma not_str_in x l : negb (str_in x l) = true <-> ~ In x l.
Proof.
  rewrite negb_true_iff. split.
  - intros H Hin. apply str_in_In in Hin. congruence.
  - intros H. destruct (str_in x l) eqn:E; [| reflexivity].
    apply str_in_In in E. contradiction.
Qed.

Lemma op_filter_both bl wl x :
  bl <> [] -> wl <> [] ->
  op_filter bl wl x = str_in (op_name x) wl && negb (str_in (op_name x) bl).
Proof.
  intros Hb Hw. unfold op_filter.
  destruct bl; [congruence |]. destruct wl; [congruence |]. reflexivity.
Qed.

Lemma op_filter_only_blacklist bl x :
  bl <> [] -> op_filter bl [] x = negb (str_in (op_name x) bl).
Proof. intros Hb. unfold op_filter. destruct bl; [congruence |]. reflexivity. Qed.

Lemma op_filter_only_whitelist wl x :
  wl <> [] -> op_filter [] wl x = str_in (op_name x) wl.
Proof. intros Hw. unfold op_filter. destruct wl; [congruence |]. reflexivity. Qed.

Lemma op_filter_listed_in_both bl wl x :
  In (op_name x) bl -> In (op_name x) wl -> op_filter bl wl x = false.
Proof.
  intros Hb Hw.
  rewrite op_filter_both.
  - apply str_in_In in Hb. rewrite Hb. apply andb_false_r.
  - intros E. rewrite E in Hb. inversion Hb.
  - intros E. rewrite E in Hw. inversion Hw.
Qed.

(** An operation that the filter refuses is passed over: its iteration
    changes nothing but the pending [builtin.combine]. *)
Lemma decompose_one_refused none unused rule has_dec call ops_list ov f idx x temp dv s :
  f x = false ->
  decompose_one none unused rule has_dec call ops_list ov f idx x temp dv s
  = (Ok (if String.eqb (op_name x) combine_op_name then Some x else temp, dv), s).
Proof.
  intros H. unfold decompose_one. rewrite H, andb_false_r. reflexivity.
Qed.

(** The filter of [decompose] is, case by case on the two lists, the one
    of its docstring (the blacklist being the one in force, joined with the
    configured one); an operation named in both lists is refused by it, and
    one iteration of the loop passes over such an operation. *)
Lemma op_filter_cases
    (forward_blacklist blacklist whitelist : list string) (x : Operation) :
  let bl := effective_blacklist forward_blacklist blacklist in
  (bl <> [] -> whitelist <> [] ->
   (op_filter bl whitelist x = true <->
    In (op_name x) whitelist /\ ~ In (op_name x) bl))
  /\ (bl <> [] -> whitelist = [] ->
      (op_filter bl whitelist x = true <-> ~ In (op_name x) bl))
  /\ (bl = [] -> whitelist <> [] ->
      (op_filter bl whitelist x = true <-> In (op_name x) whitelist))
  /\ (bl = [] -> whitelist = [] -> op_filter bl whitelist x = true)
  /\ (In (op_name x) blacklist -> In (op_name x) whitelist ->
      op_filter bl whitelist x = false
      /\ forall none unused rule has_dec call ops_list ov idx temp dv s,
           decompose_one none unused rule has_dec call ops_list ov
                         (op_filter bl whitelist) idx x temp dv s
           = (Ok (if String.eqb (op_name x) combine_op_name then Some x else temp, dv), s)).
Proof.
  intros bl.
  split; [| split; [| split; [| split]]].
  - intros Hb Hw. rewrite op_filter_both by assumption.
    rewrite andb_true_iff, not_str_in, str_in_In. reflexivity.
  - intros Hb Hw. rewrite Hw, op_filter_only_blacklist by assumption.
    apply not_str_in.
  - intros Hb Hw. rewrite Hb, op_filter_only_whitelist by assumption.
    apply str_in_In.
  - intros Hb Hw. rewrite Hb, Hw. reflexivity.
  - intros Hb Hw.
    assert (Hbl : In (op_name x) bl) by (apply in_or_app; right; exact Hb).
    split.
    + apply op_filter_listed_in_both; assumption.
    + intros. apply decompose_one_refused.
      apply op_filter_listed_in_both; assumption.
Qed.

(** ** The rule of mean *)

Lemma DType_eqb_refl d : DType_eqb d d = true.
Proof. unfold DType_eqb. destruct (DType_eq_dec d d); congruence. Qed.

(** C9: on an input of shape [4,5] and dtype [d], with [axis = [1]] and
    [keepdim] false, the rule of mean builds the sum over axis 1, the
    constant 5 of shape [] and dtype [d], and their quotient, in this order
    at the insertion point; the quotient, of shape [4] and dtype [d], is what
    it returns, and the validator accepts it for an original output of shape
    [4] and dtype [d]. *)
Theorem mean_axis1_of_4x5 (d : DType) (s : Store) (owner slot : nat) :
  let x := OpRes owner slot (Some (d, [4; 5]%Z)) in
  let i := next_id s in
  let sum_x := OpRes i 0 (Some (d, [4]%Z)) in
  let norm := OpRes (S i) 0 (Some (d, [])) in
  let res := OpRes (S (S i)) 0 (Some (d, [4]%Z)) in
  let sum_op :=
    mkOp i "pd_op.sum" [x] [sum_x] ["x"] ["out"] ["axis"; "keepdim"]
         [("axis", PyList [PyInt 1]); ("keepdim", PyBool false)] in
  let full_op :=
    mkOp (S i) "pd_op.full" [] [norm] [] ["out"] ["shape"; "value"; "dtype"]
         [("shape", PyList []); ("value", PyInt 5); ("dtype", PyStr (dtype_name d))] in
  let divide_op :=
    mkOp (S (S i)) "pd_op.divide" [sum_x; norm] [res] ["x"; "y"] ["out"] [] [] in
  let ip := insertion_point s in
  rules.mean [PyOpResult x; PyList [PyInt 1]; PyBool false] s
  = (Ok (PyOpResult res),
     mkStore (insert_at ip divide_op (insert_at ip full_op (insert_at ip sum_op (blk_ops s))))
             (S (S (S i))) ip (composite_ops_record s))
  /\ _build_tensor_tuple (PyOpResult res) = Ok (PyTuple [PyOpResult res])
  /\ forall none name orig_owner orig_slot,
       _check_op_results none name [Some (OpRes orig_owner orig_slot (Some (d, [4]%Z)))]
                         (PyTuple [PyOpResult res]) None None
       = Ok None.
Proof.
  cbv zeta. split; [| split].
  - destruct s as [ops n ip rec]. reflexivity.
  - reflexivity.
  - intros none name oo os. unfold _check_op_results. simpl.
    rewrite DType_eqb_refl. simpl.
    destruct d; reflexivity.
Qed.

(** ** Steps of the state transformers *)

Lemma bind_ok {A B} (m : M A) (k : A -> M B) s a s' :
  m s = (Ok a, s') -> bind m k s = k a s'.
Proof. intros H. unfold bind. rewrite H. reflexivity. Qed.

Lemma bind_raise {A B} (m : M A) (k : A -> M B) s e s' :
  m s = (Raise e, s') -> bind m k s = (Raise e, s').
Proof. intros H. unfold bind. rewrite H. reflexivity. Qed.

Lemma bind_lift_ok {A B} (o : Outcome A) (k : A -> M B) s a :
  o = Ok a -> bind (lift o) k s = k a s.
Proof. intros H. subst. reflexivity. Qed.

Lemma bind_lift_raise {A B} (o : Outcome A) (k : A -> M B) s e :
  o = Raise e -> bind (lift o) k s = (Raise e, s).
Proof. intros H. subst. reflexivity. Qed.

Lemma bind_get_store {B} (k : Store -> M B) s : bind get_store k s = k s s.
Proof. reflexivity. Qed.

(** ** Removing and moving operations *)

Lemma remove_id_app i l1 l2 :
  remove_id i (l1 ++ l2) = remove_id i l1 ++ remove_id i l2.
Proof. apply filter_app. Qed.

Lemma remove_id_notin i l : ~ In i (ids l) -> remove_id i l = l.
Proof.
  induction l as [| o r IH]; simpl; intros H; [reflexivity |].
  destruct (Nat.eqb (op_id o) i) eqn:E.
  - apply Nat.eqb_eq in E. exfalso. apply H. left. exact E.
  - simpl. f_equal. apply IH. intros Hin. apply H. right. exact Hin.
Qed.

Lemma remove_id_head o l : remove_id (op_id o) (o :: l) = remove_id (op_id o) l.
Proof. unfold remove_id. simpl. rewrite Nat.eqb_refl. reflexivity. Qed.

Lemma ids_app l1 l2 : ids (l1 ++ l2) = ids l1 ++ ids l2.
Proof. apply map_app. Qed.

Lemma getitem_middle {A} (l1 l2 : list A) (a : A) :
  getitem (l1 ++ a :: l2) (List.length l1) = Ok a.
Proof.
  unfold getitem. rewrite nth_error_app2 by lia.
  rewrite Nat.sub_diag. reflexivity.
Qed.

(** One move takes an appended operation to the end of the prefix. *)
Lemma move_to_appended pre post a rest :
  NoDup (ids (pre ++ post ++ a :: rest)) ->
  move_to a (List.length pre) (pre ++ post ++ a :: rest) = (pre ++ [a]) ++ post ++ rest.
Proof.
  intros Hnd. unfold move_to.
  rewrite firstn_app, firstn_all, Nat.sub_diag, firstn_O, app_nil_r.
  rewrite skipn_app, skipn_all, Nat.sub_diag, skipn_O. simpl.
  rewrite !ids_app in Hnd. simpl in Hnd.
  assert (Hpre : ~ In (op_id a) (ids pre)).
  { intros Hin. apply NoDup_app_remove_r in Hnd as Hp.
    rewrite app_assoc in Hnd. apply NoDup_remove_2 in Hnd.
    apply Hnd. apply in_or_app. left. apply in_or_app. left. exact Hin. }
  assert (Hpost : ~ In (op_id a) (ids post)).
  { intros Hin. rewrite app_assoc in Hnd. apply NoDup_remove_2 in Hnd.
    apply Hnd. apply in_or_app. left. apply in_or_app. right. exact Hin. }
  assert (Hrest : ~ In (op_id a) (ids rest)).
  { intros Hin. rewrite app_assoc in Hnd. apply NoDup_remove_2 in Hnd.
    apply Hnd. apply in_or_app. right. exact Hin. }
  rewrite (remove_id_notin _ pre Hpre).
  rewrite remove_id_app, remove_id_head.
  rewrite (remove_id_notin _ post Hpost), (remove_id_notin _ rest Hrest).
  rewrite <- app_assoc. reflexivity.
Qed.

Lemma NoDup_ids_moved pre post a rest :
  NoDup (ids (pre ++ post ++ a :: rest)) ->
  NoDup (ids ((pre ++ [a]) ++ post ++ rest)).
Proof.
  intros H. rewrite !ids_app in *. simpl in *.
  rewrite <- app_assoc. simpl.
  apply NoDup_app_remove_l in H as Hr.
  rewrite app_assoc in H.
  apply NoDup_remove in H. destruct H as [H1 H2].
  rewrite <- app_assoc in H1, H2.
  apply Permutation_NoDup with (l := op_id a :: ids pre ++ ids post ++ ids rest).
  - apply Permutation_middle.
  - constructor; assumption.
Qed.

(** The loop of moves: the appended operations end up, in their order,
    between the prefix and the rest of the block. *)
Lemma move_appended_spec app : forall pre post s,
  blk_ops s = pre ++ post ++ app ->
  NoDup (ids (pre ++ post ++ app)) ->
  move_appended (List.length pre + List.length post) (List.length app) (List.length pre) s
  = (Ok tt, with_ops s (pre ++ app ++ post)).
Proof.
  induction app as [| a rest IH]; intros pre post s Hops Hnd.
  - simpl. rewrite app_nil_r in Hops. unfold ret, with_ops. rewrite <- Hops.
    destruct s; reflexivity.
  - simpl. rewrite bind_get_store.
    assert (Hget : getitem (blk_ops s) (List.length pre + List.length post) = Ok a).
    { rewrite Hops, app_assoc, <- length_app. apply getitem_middle. }
    rewrite (bind_lift_ok _ _ _ _ Hget).
    unfold bind at 1. unfold block_move_op at 1.
    rewrite Hops, move_to_appended by exact Hnd.
    specialize (IH (pre ++ [a]) post
                   (mkStore ((pre ++ [a]) ++ post ++ rest) (next_id s)
                            (insertion_point s) (composite_ops_record s))
                   eq_refl (NoDup_ids_moved _ _ _ _ Hnd)).
    rewrite length_app in IH. simpl in IH.
    replace (List.length pre + 1 + List.length post)
      with (S (List.length pre + List.length post)) in IH by lia.
    replace (List.length pre + 1) with (S (List.length pre)) in IH by lia.
    rewrite IH. unfold with_ops. simpl.
    rewrite <- !app_assoc. reflexivity.
Qed.

Lemma op_index_split i l idx :
  op_index i l = Ok idx ->
  exists o, l = firstn idx l ++ o :: skipn (S idx) l
            /\ op_id o = i /\ List.length (firstn idx l) = idx.
Proof.
  revert idx. induction l as [| x r IH]; simpl; intros idx H; [discriminate |].
  destruct (Nat.eqb (op_id x) i) eqn:E.
  - inversion H; subst. exists x. simpl. apply Nat.eqb_eq in E. auto.
  - destruct (op_index i r) as [n | e] eqn:Er; [| discriminate].
    inversion H; subst. destruct (IH n eq_refl) as [o [H1 [H2 H3]]].
    exists o. cbn [firstn skipn app List.length].
    split; [f_equal; exact H1 | split; [exact H2 | f_equal; exact H3]].
Qed.

Lemma ids_rewire old new l : ids (rewire old new l) = ids l.
Proof.
  unfold rewire, ids. destruct old; [reflexivity |].
  rewrite map_map. reflexivity.
Qed.

Lemma remove_id_rewire i old new l :
  remove_id i (rewire old new l) = rewire old new (remove_id i l).
Proof.
  unfold rewire. destruct old; [reflexivity |].
  induction l as [| o r IH]; simpl; [reflexivity |].
  destruct (Nat.eqb (op_id o) i); simpl; rewrite IH; reflexivity.
Qed.

Lemma remove_id_rewire_all i olds : forall news l,
  remove_id i (rewire_all olds news l) = rewire_all olds news (remove_id i l).
Proof.
  induction olds as [| old olds IH]; intros news l; simpl; [reflexivity |].
  destruct news as [| new news]; [reflexivity |].
  rewrite IH, remove_id_rewire. reflexivity.
Qed.

Lemma migrate_grads_ok grad_inputs : forall res d,
  List.length grad_inputs <= List.length res ->
  exists d', migrate_grads grad_inputs res d = Ok d'.
Proof.
  induction grad_inputs as [| g r IH]; intros res d H; simpl.
  - exists d. reflexivity.
  - destruct res as [| x res']; simpl in H; [lia |].
    destruct (vdict_get d g); apply IH; lia.
Qed.

Lemma vjp_results_recorded new_grad_inputs : forall res,
  vjp_results new_grad_inputs = Ok res -> Forall2 recorded new_grad_inputs res.
Proof.
  induction new_grad_inputs as [| g r IH]; intros res H; simpl in H.
  - inversion H. constructor.
  - destruct g as [| first tl]; [discriminate |].
    destruct (vjp_results r) as [l | e]; [| discriminate].
    inversion H; subst. constructor; [| apply IH; reflexivity].
    destruct first; reflexivity.
Qed.

(** ** The vjp path *)

Section VjpPath.

Variable call_vjp :
  Operation -> list (list Value) -> list (list Value) -> list (list Value) ->
  list (list bool) -> M (list (list (option Value))).

Variables fwd_op bwd_op : Operation.
Variable d : GradMap.
Variables s s' : Store.
Variable grad_outputs : list (list Value).
Variable idx : nat.
Variable new_grad_inputs : list (list (option Value)).
Variable app : list Operation.

Hypothesis prepared : _prepare_output_grads fwd_op bwd_op s = Ok grad_outputs.
Hypothesis in_block : op_index (op_id bwd_op) (blk_ops s) = Ok idx.
Hypothesis vjp_returns :
  call_vjp fwd_op (wrap (operands_now fwd_op s)) (wrap (op_results fwd_op)) grad_outputs
           (map (fun grad_input => [negb (initialized grad_input)]) (op_results bwd_op)) s
  = (Ok new_grad_inputs, s').
Hypothesis vjp_appends : blk_ops s' = blk_ops s ++ app.
Hypothesis distinct_ids : NoDup (ids (blk_ops s')).

(** The function up to the test on the appended operations. *)
Lemma decomp_bwd_with_vjp_start :
  _decomp_bwd_with_vjp call_vjp fwd_op bwd_op d s
  = (if Nat.eqb (List.length (blk_ops s')) (List.length (blk_ops s) + 1)
        && String.eqb (op_name (last (blk_ops s') bwd_op)) (op_name bwd_op)
     then
       (block_remove_op (last (blk_ops s') bwd_op) ;;;
        ret (None, false, d))%M
     else
       (res <- lift (vjp_results new_grad_inputs) ;;
        (if Nat.eqb (List.length res) (List.length (op_results bwd_op)) then ret tt
         else raise AssertionError) ;;;
        d' <- lift (migrate_grads (op_results bwd_op) res d) ;;
        move_appended (List.length (blk_ops s))
                      (List.length (blk_ops s') - List.length (blk_ops s)) idx ;;;
        op_replace_all_uses_with bwd_op res ;;;
        block_remove_op bwd_op ;;;
        ret (Some res, true, d'))%M) s'.
Proof.
  unfold _decomp_bwd_with_vjp.
  rewrite bind_get_store.
  rewrite (bind_lift_ok _ _ _ _ prepared).
  rewrite (bind_lift_ok _ _ _ _ in_block).
  rewrite (bind_ok _ _ _ _ _ vjp_returns).
  rewrite bind_get_store. reflexivity.
Qed.

Lemma test_on_appended :
  Nat.eqb (List.length (blk_ops s')) (List.length (blk_ops s) + 1)
  && String.eqb (op_name (last (blk_ops s') bwd_op)) (op_name bwd_op) = true
  <-> same_op_appended app bwd_op.
Proof.
  rewrite vjp_appends, length_app, andb_true_iff, Nat.eqb_eq, String.eqb_eq.
  unfold same_op_appended. split.
  - intros [Hlen Hname].
    destruct app as [| o [| o2 r]]; simpl in Hlen; try lia.
    exists o. rewrite last_last in Hname. auto.
  - intros [o [Happ Hname]]. subst app. rewrite last_last. simpl. split; [lia | exact Hname].
Qed.

(** The undo: the appended operation is removed and the block is the one
    before the call. *)
Lemma decomp_bwd_with_vjp_undo :
  same_op_appended app bwd_op ->
  _decomp_bwd_with_vjp call_vjp fwd_op bwd_op d s
  = (Ok (None, false, d), with_ops s' (blk_ops s)).
Proof.
  intros Hsame. rewrite decomp_bwd_with_vjp_start.
  pose proof (proj2 test_on_appended Hsame) as Htest. rewrite Htest.
  destruct Hsame as [o [Happ _]]. subst app.
  unfold bind, block_remove_op, ret, with_ops.
  rewrite vjp_appends, last_last, remove_id_app, remove_id_head. simpl.
  rewrite vjp_appends, ids_app in distinct_ids. simpl in distinct_ids.
  apply NoDup_remove_2 in distinct_ids. rewrite app_nil_r in distinct_ids.
  rewrite remove_id_notin by exact distinct_ids.
  rewrite app_nil_r. reflexivity.
Qed.

(** The replacement: the appended operations stand where the gradient
    operation stood, the uses of its results are rewired and it is removed. *)
Lemma decomp_bwd_with_vjp_replace res :
  ~ same_op_appended app bwd_op ->
  vjp_results new_grad_inputs = Ok res ->
  List.length res = List.length (op_results bwd_op) ->
  exists d',
    migrate_grads (op_results bwd_op) res d = Ok d'
    /\ _decomp_bwd_with_vjp call_vjp fwd_op bwd_op d s
       = (Ok (Some res, true, d'),
          with_ops s' (rewire_all (op_results bwd_op) res
                         (firstn idx (blk_ops s) ++ app ++ skipn (S idx) (blk_ops s)))).
Proof.
  intros Hother Hres Hlen.
  destruct (migrate_grads_ok (op_results bwd_op) res d) as [d' Hd']; [lia |].
  exists d'. split; [exact Hd' |].
  rewrite decomp_bwd_with_vjp_start.
  destruct (Nat.eqb (List.length (blk_ops s')) (List.length (blk_ops s) + 1)
            && String.eqb (op_name (last (blk_ops s') bwd_op)) (op_name bwd_op)) eqn:Htest.
  { exfalso. apply Hother. apply test_on_appended. exact Htest. }
  rewrite (bind_lift_ok _ _ _ _ Hres).
  rewrite Hlen, Nat.eqb_refl.
  unfold bind at 1. unfold ret at 1.
  rewrite (bind_lift_ok _ _ _ _ Hd').
  destruct (op_index_split _ _ _ in_block) as [o [Hsplit [Hid Hpre]]].
  set (pre := firstn idx (blk_ops s)) in *.
  set (post := skipn (S idx) (blk_ops s)) in *.
  assert (Hops' : blk_ops s' = pre ++ (o :: post) ++ app).
  { rewrite vjp_appends, Hsplit at 1. rewrite <- app_assoc. reflexivity. }
  assert (Hnd : NoDup (ids (pre ++ (o :: post) ++ app))).
  { rewrite <- Hops'. exact distinct_ids. }
  assert (Hcount : List.length (blk_ops s') - List.length (blk_ops s) = List.length app).
  { rewrite vjp_appends, length_app. lia. }
  assert (Hbefore : List.length (blk_ops s) = List.length pre + List.length (o :: post)).
  { rewrite Hsplit at 1. rewrite length_app. reflexivity. }
  pose proof (move_appended_spec app pre (o :: post) s' Hops' Hnd) as Hmove.
  rewrite <- Hbefore, <- Hcount, Hpre in Hmove.
  rewrite (bind_ok _ _ _ _ _ Hmove).
  unfold bind, op_replace_all_uses_with, block_remove_op, ret, with_ops. simpl.
  rewrite Hlen, Nat.eqb_refl. simpl.
  rewrite remove_id_rewire_all.
  rewrite !remove_id_app. rewrite <- Hid, remove_id_head.
  rewrite !ids_app in Hnd. simpl in Hnd.
  assert (H1 : ~ In (op_id o) (ids pre)).
  { intros Hin. apply NoDup_remove_2 in Hnd. apply Hnd.
    apply in_or_app. left. exact Hin. }
  assert (H2 : ~ In (op_id o) (ids post) /\ ~ In (op_id o) (ids app)).
  { apply NoDup_remove_2 in Hnd. split; intros Hin; apply Hnd;
      apply in_or_app; right; apply in_or_app; [left | right]; exact Hin. }
  destruct H2 as [H2 H3].
  rewrite !remove_id_notin by assumption. reflexivity.
Qed.

Lemma decomp_bwd_with_vjp_count res :
  ~ same_op_appended app bwd_op ->
  vjp_results new_grad_inputs = Ok res ->
  List.length res <> List.length (op_results bwd_op) ->
  _decomp_bwd_with_vjp call_vjp fwd_op bwd_op d s = (Raise AssertionError, s').
Proof.
  intros Hother Hres Hlen.
  rewrite decomp_bwd_with_vjp_start.
  destruct (Nat.eqb (List.length (blk_ops s')) (List.length (blk_ops s) + 1)
            && String.eqb (op_name (last (blk_ops s') bwd_op)) (op_name bwd_op)) eqn:Htest.
  { exfalso. apply Hother. apply test_on_appended. exact Htest. }
  rewrite (bind_lift_ok _ _ _ _ Hres).
  apply Nat.eqb_neq in Hlen. rewrite Hlen. reflexivity.
Qed.

End VjpPath.

Lemma decomp_bwd_with_vjp_empty_entry call_vjp fwd_op bwd_op d s s' grad_outputs idx
    new_grad_inputs app e :
  _prepare_output_grads fwd_op bwd_op s = Ok grad_outputs ->
  op_index (op_id bwd_op) (blk_ops s) = Ok idx ->
  call_vjp fwd_op (wrap (operands_now fwd_op s)) (wrap (op_results fwd_op)) grad_outputs
           (map (fun grad_input => [negb (initialized grad_input)]) (op_results bwd_op)) s
  = (Ok new_grad_inputs, s') ->
  blk_ops s' = blk_ops s ++ app ->
  ~ same_op_appended app bwd_op ->
  vjp_results new_grad_inputs = Raise e ->
  _decomp_bwd_with_vjp call_vjp fwd_op bwd_op d s = (Raise e, s').
Proof.
  intros Hprep Hidx Hvjp Happ Hother Hres.
  rewrite (decomp_bwd_with_vjp_start call_vjp fwd_op bwd_op d s s' grad_outputs idx
             new_grad_inputs Hprep Hidx Hvjp).
  destruct (Nat.eqb (List.length (blk_ops s')) (List.length (blk_ops s) + 1)
            && String.eqb (op_name (last (blk_ops s') bwd_op)) (op_name bwd_op)) eqn:Htest.
  { exfalso. apply Hother. apply (test_on_appended bwd_op s s' app Happ). exact Htest. }
  rewrite (bind_lift_raise _ _ _ _ Hres). reflexivity.
Qed.

(** C3, amended: given that the vjp was invoked and only appended operations
    to the block.  When it appended exactly one operation, named as the
    gradient operation, [_decomp_bwd_with_vjp] removes it and returns
    not-decomposed, and the block is the one before the call.  In every other
    case the recorded results are one per entry of the vjp result (a fake
    value where the entry is [None] or not initialized); when their number is
    the number of result slots of the gradient operation, they are returned
    with [True], the appended operations stand in their order where the
    gradient operation stood, the uses of its results are rewired and it is
    gone; when the number differs, the function raises the assertion error
    and the appended operations stay at the end of the block. *)
Theorem decomp_bwd_with_vjp_outcomes call_vjp fwd_op bwd_op d s s' grad_outputs idx
    new_grad_inputs app :
  _prepare_output_grads fwd_op bwd_op s = Ok grad_outputs ->
  op_index (op_id bwd_op) (blk_ops s) = Ok idx ->
  call_vjp fwd_op (wrap (operands_now fwd_op s)) (wrap (op_results fwd_op)) grad_outputs
           (map (fun grad_input => [negb (initialized grad_input)]) (op_results bwd_op)) s
  = (Ok new_grad_inputs, s') ->
  blk_ops s' = blk_ops s ++ app ->
  NoDup (ids (blk_ops s')) ->
  (same_op_appended app bwd_op ->
   _decomp_bwd_with_vjp call_vjp fwd_op bwd_op d s
   = (Ok (None, false, d), with_ops s' (blk_ops s)))
  /\ (~ same_op_appended app bwd_op ->
      forall res, vjp_results new_grad_inputs = Ok res ->
        Forall2 recorded new_grad_inputs res
        /\ (List.length res = List.length (op_results bwd_op) ->
            exists d',
              migrate_grads (op_results bwd_op) res d = Ok d'
              /\ _decomp_bwd_with_vjp call_vjp fwd_op bwd_op d s
                 = (Ok (Some res, true, d'),
                    with_ops s' (rewire_all (op_results bwd_op) res
                                   (firstn idx (blk_ops s) ++ app
                                    ++ skipn (S idx) (blk_ops s)))))
        /\ (List.length res <> List.length (op_results bwd_op) ->
            _decomp_bwd_with_vjp call_vjp fwd_op bwd_op d s = (Raise AssertionError, s'))).
Proof.
  intros Hprep Hidx Hvjp Happ Hnd. split.
  - intros Hsame.
    exact (decomp_bwd_with_vjp_undo call_vjp fwd_op bwd_op d s s' grad_outputs idx
             new_grad_inputs app Hprep Hidx Hvjp Happ Hnd Hsame).
  - intros Hother res Hres. split; [| split].
    + apply vjp_results_recorded. exact Hres.
    + intros Hlen.
      exact (decomp_bwd_with_vjp_replace call_vjp fwd_op bwd_op d s s' grad_outputs idx
               new_grad_inputs app Hprep Hidx Hvjp Happ Hnd res Hother Hres Hlen).
    + intros Hlen.
      exact (decomp_bwd_with_vjp_count call_vjp fwd_op bwd_op d s s' grad_outputs idx
               new_grad_inputs app Hprep Hidx Hvjp Happ res Hother Hres Hlen).
Qed.

Ltac distinct_ids :=
  repeat (constructor; [simpl; intuition discriminate |]); constructor.

Lemma decomp_bwd_with_vjp_outcomes_witness :
  _decomp_bwd_with_vjp TanhExample.vjp_same_op TanhExample.tanh TanhExample.tanh_grad
                       TanhExample.grad_var_to_var TanhExample.block
  = (Ok (None, false, TanhExample.grad_var_to_var),
     mkStore (blk_ops TanhExample.block) 6 None []).
Proof.
  refine (proj1 (decomp_bwd_with_vjp_outcomes
                   TanhExample.vjp_same_op TanhExample.tanh TanhExample.tanh_grad
                   TanhExample.grad_var_to_var TanhExample.block
                   (mkStore (blk_ops TanhExample.block
                             ++ [mkOp 5 "pd_op.tanh_grad" [TanhExample.out; TanhExample.out_grad]
                                      [OpRes 5 0 (f32 [2]%Z)] ["out"; "out_grad"] ["x_grad"]
                                      [] []]) 6 None [])
                   [[TanhExample.out_grad]] 3 [[Some (OpRes 5 0 (f32 [2]%Z))]]
                   [mkOp 5 "pd_op.tanh_grad" [TanhExample.out; TanhExample.out_grad]
                         [OpRes 5 0 (f32 [2]%Z)] ["out"; "out_grad"] ["x_grad"] [] []]
                   _ _ _ _ _) _).
  - reflexivity.
  - reflexivity.
  - reflexivity.
  - reflexivity.
  - simpl. distinct_ids.
  - eexists. split; reflexivity.
Defined.

(** The replacement on the block of tanh, with the composite vjp: the four
    appended operations stand where the gradient operation stood. *)
Example decomp_bwd_with_vjp_replaces_tanh_grad :
  exists s',
    _decomp_bwd_with_vjp TanhExample.vjp_composite TanhExample.tanh TanhExample.tanh_grad
                         TanhExample.grad_var_to_var TanhExample.block
    = (Ok (Some [OpRes 8 0 (f32 [2]%Z)], true,
           [(TanhExample.out_grad, TanhExample.out); (OpRes 8 0 (f32 [2]%Z), TanhExample.x)]),
       s')
    /\ ids (blk_ops s') = [0; 1; 2; 5; 6; 7; 8; 4]
    /\ find_op 4 (blk_ops s')
       = Some (set_operands TanhExample.fetch [OpRes 8 0 (f32 [2]%Z)]).
Proof.
  destruct (decomp_bwd_with_vjp_replace
              TanhExample.vjp_composite TanhExample.tanh TanhExample.tanh_grad
              TanhExample.grad_var_to_var TanhExample.block
              (snd (TanhExample.vjp_composite TanhExample.tanh [[TanhExample.x]]
                      [[TanhExample.out]] [[TanhExample.out_grad]] [[false]]
                      TanhExample.block))
              [[TanhExample.out_grad]] 3 [[Some (OpRes 8 0 (f32 [2]%Z))]]
              (skipn 5 (blk_ops (snd (TanhExample.vjp_composite TanhExample.tanh
                                        [[TanhExample.x]] [[TanhExample.out]]
                                        [[TanhExample.out_grad]] [[false]]
                                        TanhExample.block))))
              eq_refl eq_refl eq_refl eq_refl
              ltac:(simpl; distinct_ids)
              [OpRes 8 0 (f32 [2]%Z)]
              ltac:(intros [o [H _]]; discriminate)
              eq_refl eq_refl) as [d' [Hd H]].
  eexists. split; [| split].
  - rewrite H. inversion Hd. reflexivity.
  - reflexivity.
  - reflexivity.
Qed.

(** C3, as stated, fails: a vjp that appends two operations and hands back
    no result is one of the other cases, and the call raises the assertion
    error instead of returning one result for the result slot of the
    gradient operation; the gradient operation is still in the block. *)
Lemma decomp_bwd_with_vjp_count_mismatch :
  let r := _decomp_bwd_with_vjp TanhExample.vjp_no_result TanhExample.tanh
             TanhExample.tanh_grad TanhExample.grad_var_to_var TanhExample.block in
  fst r = Raise AssertionError
  /\ List.length (op_results TanhExample.tanh_grad) = 1
  /\ ids (blk_ops (snd r)) = [0; 1; 2; 3; 4; 5; 6].
Proof. repeat split. Qed.

(** ** The pairing check *)

Lemma all_related_true s fwd : forall operands,
  all_related s (operands_now fwd s) (op_results fwd) operands = Ok true
  <-> Forall (traces_to fwd s) operands.
Proof.
  induction operands as [| x r IH]; simpl.
  - split; [constructor | reflexivity].
  - destruct (value_in x (operands_now fwd s)) eqn:E1.
    { rewrite IH. split.
      - intros H. constructor; [left; apply value_in_In; exact E1 | exact H].
      - intros H. inversion H; assumption. }
    destruct (value_in x (op_results fwd)) eqn:E2.
    { rewrite IH. split.
      - intros H. constructor; [right; left; apply value_in_In; exact E2 | exact H].
      - intros H. inversion H; assumption. }
    assert (N1 : ~ In x (operands_now fwd s)).
    { intros Hin. apply value_in_In in Hin. congruence. }
    assert (N2 : ~ In x (op_results fwd)).
    { intros Hin. apply value_in_In in Hin. congruence. }
    destruct (get_defining_op x s) as [o |] eqn:Ed.
    + destruct (String.eqb (op_name o) full_int_array) eqn:En.
      * rewrite IH. split.
        -- intros H. constructor; [| exact H].
           right; right. exists o. split; [exact Ed |].
           apply String.eqb_eq. exact En.
        -- intros H. inversion H; assumption.
      * split; [discriminate |].
        intros H. inversion H as [| ? ? Hx _]; subst.
        destruct Hx as [Hx | [Hx | [o' [Ho' Hn]]]]; try contradiction.
        rewrite Ed in Ho'. inversion Ho'; subst o'.
        apply String.eqb_neq in En. unfold full_int_array in En. contradiction.
    + split; [discriminate |].
      intros H. inversion H as [| ? ? Hx _]; subst.
      destruct Hx as [Hx | [Hx | [o' [Ho' _]]]]; try contradiction.
      rewrite Ed in Ho'. discriminate.
Qed.

Lemma related_inputs_In x : forall names inputs,
  In x (related_inputs names inputs)
  <-> exists i name, nth_error names i = Some name
                     /\ nth_error inputs i = Some x
                     /\ substring_in "_grad" name = false.
Proof.
  induction names as [| n ns IH]; intros inputs; simpl.
  - split; [intros [] |]. intros [i [name [H _]]]. destruct i; discriminate.
  - destruct inputs as [| y ys].
    + simpl. split; [intros [] |].
      intros [i [name [_ [H _]]]]. destruct i; discriminate.
    + destruct (substring_in "_grad" n) eqn:E; simpl.
      * rewrite IH. split.
        -- intros [i [name H]]. exists (S i), name. exact H.
        -- intros [i [name [H1 [H2 H3]]]]. destruct i as [| i].
           ++ simpl in H1. inversion H1; subst. congruence.
           ++ exists i, name. auto.
      * rewrite IH. split.
        -- intros [H | [i [name H]]].
           ++ subst. exists 0, n. auto.
           ++ exists (S i), name. exact H.
        -- intros [i [name [H1 [H2 H3]]]]. destruct i as [| i].
           ++ simpl in H2. inversion H2. left. reflexivity.
           ++ right. exists i, name. auto.
Qed.

Lemma check_op_paired fwd_op bwd_op s :
  List.length (op_input_names bwd_op) = List.length (operands_now bwd_op s) ->
  (_check_op fwd_op bwd_op s = Ok true <-> paired fwd_op bwd_op s).
Proof.
  intros Hlen. unfold _check_op, paired.
  destruct fwd_op as [fwd |].
  - destruct (String.eqb (op_name fwd ++ "_grad") (op_name bwd_op)) eqn:En; simpl.
    + apply String.eqb_eq in En. rewrite Hlen, Nat.eqb_refl. simpl.
      rewrite all_related_true, Forall_forall. split.
      * intros H. exists fwd. split; [reflexivity |]. split; [exact En |].
        intros i name input H1 H2 H3. apply H. apply related_inputs_In.
        exists i, name. auto.
      * intros [fwd' [Hf [_ H]]]. inversion Hf; subst fwd'.
        intros x Hx. apply related_inputs_In in Hx.
        destruct Hx as [i [name [H1 [H2 H3]]]]. exact (H i name x H1 H2 H3).
    + apply String.eqb_neq in En. split; [discriminate |].
      intros [fwd' [Hf [Hn _]]]. inversion Hf; subst. contradiction.
  - split; [discriminate |]. intros [fwd [Hf _]]. discriminate.
Qed.

Section BackwardOp.

Variable ops_contain_none : list string.
Variable decomp_ops_contain_unused_output : list (string * list nat).
Variable get_decomp_rule : string -> option (list PyVal -> M PyVal).
Variable has_decomp : Operation -> bool.
Variable call_decomp : Operation -> M (list (list (option Value))).
Variable call_vjp :
  Operation -> list (list Value) -> list (list Value) -> list (list Value) ->
  list (list bool) -> M (list (list (option Value))).
Variable grad : list Value -> list Value -> list Value -> M (list Value).

Let decomp_bwd_op :=
  _decomp_bwd_op ops_contain_none decomp_ops_contain_unused_output get_decomp_rule
                 has_decomp call_decomp call_vjp grad.
Let decomp_fwd_op :=
  _decomp_fwd_op ops_contain_none decomp_ops_contain_unused_output get_decomp_rule
                 has_decomp call_decomp.
Let step :=
  driver_step ops_contain_none decomp_ops_contain_unused_output get_decomp_rule
              has_decomp call_decomp call_vjp grad.
Let loop :=
  driver_loop ops_contain_none decomp_ops_contain_unused_output get_decomp_rule
              has_decomp call_decomp call_vjp grad.

(** A failed check ends [_decomp_bwd_op] before anything is done. *)
Lemma decomp_bwd_op_check_fails fwd_enabled bwd_op d s fwd_op :
  _get_fwd_op bwd_op d s = Ok fwd_op ->
  _check_op fwd_op bwd_op s = Ok false ->
  decomp_bwd_op fwd_enabled true bwd_op d s = (Ok (None, false, d), s).
Proof.
  intros Hget Hcheck. unfold decomp_bwd_op, _decomp_bwd_op. simpl.
  rewrite bind_get_store, (bind_lift_ok _ _ _ _ Hget), (bind_lift_ok _ _ _ _ Hcheck).
  destruct fwd_op; reflexivity.
Qed.

(** A rewritten gradient operation passed the check. *)
Lemma decomp_bwd_op_decomposed_checked fwd_enabled bwd_enabled bwd_op d s r d' s' :
  decomp_bwd_op fwd_enabled bwd_enabled bwd_op d s = (Ok (r, true, d'), s') ->
  exists fwd, _get_fwd_op bwd_op d s = Ok (Some fwd)
              /\ _check_op (Some fwd) bwd_op s = Ok true.
Proof.
  unfold decomp_bwd_op, _decomp_bwd_op. destruct bwd_enabled; simpl; [| discriminate].
  rewrite bind_get_store.
  destruct (_get_fwd_op bwd_op d s) as [fwd_op | e] eqn:Hget; [| discriminate].
  rewrite (bind_lift_ok _ _ _ _ eq_refl).
  destruct (_check_op fwd_op bwd_op s) as [ok | e] eqn:Hcheck; [| discriminate].
  rewrite (bind_lift_ok _ _ _ _ eq_refl).
  destruct fwd_op as [fwd |]; [| discriminate].
  destruct ok; [| discriminate].
  intros _. exists fwd. split; [reflexivity | exact Hcheck].
Qed.

(** C2, amended: for the forward operation that [_get_fwd_op] finds through
    the variable map, [_check_op] returns [True] exactly when the forward
    operation exists, its name with the suffix ["_grad"] is the name of the
    gradient operation, and every input of the gradient operation whose
    declared name has no ["_grad"] is an operand or a result of the forward
    operation or the result of a [pd_op.full_int_array]; when it returns
    [False], [_decomp_bwd_op] returns not-decomposed and the store is the one
    it was called in; and a gradient operation is rewritten only if the
    check held. *)
Theorem decomp_bwd_op_pairing fwd_enabled bwd_op d s fwd_op :
  _get_fwd_op bwd_op d s = Ok fwd_op ->
  List.length (op_input_names bwd_op) = List.length (operands_now bwd_op s) ->
  (_check_op fwd_op bwd_op s = Ok true <-> paired fwd_op bwd_op s)
  /\ (_check_op fwd_op bwd_op s = Ok false ->
      decomp_bwd_op fwd_enabled true bwd_op d s = (Ok (None, false, d), s))
  /\ (forall r d' s',
        decomp_bwd_op fwd_enabled true bwd_op d s = (Ok (r, true, d'), s') ->
        paired fwd_op bwd_op s).
Proof.
  intros Hget Hlen. split; [| split].
  - apply check_op_paired. exact Hlen.
  - apply decomp_bwd_op_check_fails. exact Hget.
  - intros r d' s' H.
    destruct (decomp_bwd_op_decomposed_checked _ _ _ _ _ _ _ _ H) as [fwd [Hg Hc]].
    rewrite Hget in Hg. inversion Hg; subst fwd_op.
    apply check_op_paired; assumption.
Qed.

Lemma add_name_In name x l : In name l -> In name (add_name x l).
Proof.
  intros H. unfold add_name. destruct (str_in x l); [exact H |].
  apply in_or_app. left. exact H.
Qed.

Lemma add_name_here x l : In x (add_name x l).
Proof.
  unfold add_name. destruct (str_in x l) eqn:E.
  - apply str_in_In. exact E.
  - apply in_or_app. right. left. reflexivity.
Qed.

(** A name reported as undecomposed stays in the report. *)
Lemma driver_step_keeps_undecomposed name fwd_enabled bwd_enabled bwd_ops op d r s d' r' s' :
  step fwd_enabled bwd_enabled bwd_ops op d r s = (Ok (d', r'), s') ->
  In name (bwd_ops_undecomposed r) -> In name (bwd_ops_undecomposed r').
Proof.
  unfold step, driver_step. destruct (str_in (op_name op) bwd_ops).
  - unfold bind.
    destruct (_decomp_bwd_op _ _ _ _ _ _ _ _ _ op d s) as [[[[g hd] d1] | e] s1];
      [| discriminate].
    destruct hd; unfold ret; intros H Hin; inversion H; subst; simpl.
    + exact Hin.
    + apply add_name_In. exact Hin.
  - unfold ret. intros H Hin. inversion H; subst. exact Hin.
Qed.

Lemma driver_loop_keeps_undecomposed name fwd_enabled bwd_enabled bwd_ops ops :
  forall d r s r' s',
    loop fwd_enabled bwd_enabled bwd_ops ops d r s = (Ok r', s') ->
    In name (bwd_ops_undecomposed r) -> In name (bwd_ops_undecomposed r').
Proof.
  induction ops as [| op rest IH]; intros d r s r' s' H Hin.
  - inversion H; subst. exact Hin.
  - unfold loop in H. simpl in H. unfold bind in H.
    destruct (driver_step _ _ _ _ _ _ _ fwd_enabled bwd_enabled bwd_ops op d r s)
      as [[[d1 r1] | e] s1] eqn:Hstep; [| discriminate].
    apply (IH d1 r1 s1 r' s' H).
    exact (driver_step_keeps_undecomposed name _ _ _ _ _ _ _ _ _ _ Hstep Hin).
Qed.

(** C4, amended: a gradient operation whose paired forward operation has no
    composite vjp rule (the vjp appends the gradient operation again) and
    neither a registered rule nor a native decomposition.  [_decomp_fwd_op]
    returns the original results and [False]; [_decomp_bwd_op] returns
    not-decomposed and the block is the one before the call, with the forward
    and the gradient operation in it; the driver counts the operation as
    undecomposed, goes on with the loop, and the name is in the undecomposed
    list of every report the loop ends with. *)
Theorem undecomposable_reported bwd_op d s fwd s' grad_outputs idx new_grad_inputs app :
  _get_fwd_op bwd_op d s = Ok (Some fwd) ->
  _check_op (Some fwd) bwd_op s = Ok true ->
  _prepare_output_grads fwd bwd_op s = Ok grad_outputs ->
  op_index (op_id bwd_op) (blk_ops s) = Ok idx ->
  call_vjp fwd (wrap (operands_now fwd s)) (wrap (op_results fwd)) grad_outputs
           (map (fun grad_input => [negb (initialized grad_input)]) (op_results bwd_op)) s
  = (Ok new_grad_inputs, s') ->
  blk_ops s' = blk_ops s ++ app ->
  NoDup (ids (blk_ops s')) ->
  same_op_appended app bwd_op ->
  get_decomp_rule (op_name fwd) = None ->
  has_decomp fwd = false ->
  let after := mkStore (blk_ops s) (next_id s') None (composite_ops_record s') in
  decomp_fwd_op true fwd d (with_ops s' (blk_ops s)) = (Ok (op_results fwd, false, d), after)
  /\ decomp_bwd_op true true bwd_op d s = (Ok (None, false, d), after)
  /\ forall bwd_ops r rest,
       str_in (op_name bwd_op) bwd_ops = true ->
       let r1 := mkReport (num_bwd_ops_decomposed r) (bwd_ops_decomposed r)
                          (num_bwd_ops_undecomposed r + 1)
                          (add_name (op_name bwd_op) (bwd_ops_undecomposed r)) in
       step true true bwd_ops bwd_op d r s = (Ok (d, r1), after)
       /\ loop true true bwd_ops (bwd_op :: rest) d r s = loop true true bwd_ops rest d r1 after
       /\ forall r' s'',
            loop true true bwd_ops (bwd_op :: rest) d r s = (Ok r', s'') ->
            In (op_name bwd_op) (bwd_ops_undecomposed r').
Proof.
  intros Hget Hcheck Hprep Hidx Hvjp Happ Hnd Hsame Hrule Hnat after.
  assert (Hfwd : decomp_fwd_op true fwd d (with_ops s' (blk_ops s))
                 = (Ok (op_results fwd, false, d), after)).
  { unfold decomp_fwd_op, _decomp_fwd_op, program_guard. simpl.
    rewrite Hrule, Hnat. reflexivity. }
  assert (Hbwd : decomp_bwd_op true true bwd_op d s = (Ok (None, false, d), after)).
  { unfold decomp_bwd_op, _decomp_bwd_op. simpl.
    rewrite bind_get_store, (bind_lift_ok _ _ _ _ Hget), (bind_lift_ok _ _ _ _ Hcheck).
    rewrite (bind_ok _ _ _ _ _
               (decomp_bwd_with_vjp_undo call_vjp fwd bwd_op d s s' grad_outputs idx
                  new_grad_inputs app Hprep Hidx Hvjp Happ Hnd Hsame)).
    simpl. rewrite bind_get_store.
    fold decomp_fwd_op. rewrite (bind_ok _ _ _ _ _ Hfwd). reflexivity. }
  split; [exact Hfwd |]. split; [exact Hbwd |].
  intros bwd_ops r rest Hin r1.
  assert (Hstep : step true true bwd_ops bwd_op d r s = (Ok (d, r1), after)).
  { unfold step, driver_step. rewrite Hin.
    fold decomp_bwd_op. rewrite (bind_ok _ _ _ _ _ Hbwd). reflexivity. }
  assert (Hloop : loop true true bwd_ops (bwd_op :: rest) d r s
                  = loop true true bwd_ops rest d r1 after).
  { unfold loop. simpl. fold step. rewrite (bind_ok _ _ _ _ _ Hstep). reflexivity. }
  split; [exact Hstep |]. split; [exact Hloop |].
  intros r' s'' H. rewrite Hloop in H.
  apply (driver_loop_keeps_undecomposed _ _ _ _ _ _ _ _ _ _ H).
  apply add_name_here.
Qed.

End BackwardOp.

Lemma decomp_bwd_op_pairing_witness :
  _decomp_bwd_op [] [] no_rule no_decomp no_call_decomp TanhExample.vjp_composite no_grad
                 true true TanhExample.tanh_grad
                 [(TanhExample.out_grad, TanhExample.x)] TanhExample.block
  = (Ok (None, false, [(TanhExample.out_grad, TanhExample.x)]), TanhExample.block).
Proof.
  refine (proj1 (proj2 (decomp_bwd_op_pairing
                          [] [] no_rule no_decomp no_call_decomp TanhExample.vjp_composite
                          no_grad true TanhExample.tanh_grad
                          [(TanhExample.out_grad, TanhExample.x)] TanhExample.block
                          (Some TanhExample.data_x) _ _)) _).
  - reflexivity.
  - reflexivity.
  - reflexivity.
Defined.

(** C2, as stated, fails: the forward operation found for the gradient
    operation of tanh passes the check, and the gradient operation is not
    rewritten, because the vjp has no composite rule and the forward
    operation has no decomposition. *)
Lemma paired_and_not_rewritten :
  _get_fwd_op TanhExample.tanh_grad TanhExample.grad_var_to_var TanhExample.block
  = Ok (Some TanhExample.tanh)
  /\ _check_op (Some TanhExample.tanh) TanhExample.tanh_grad TanhExample.block = Ok true
  /\ paired (Some TanhExample.tanh) TanhExample.tanh_grad TanhExample.block
  /\ fst (TanhExample.bwd_op_with TanhExample.vjp_same_op TanhExample.block)
     = Ok (None, false, TanhExample.grad_var_to_var)
  /\ blk_ops (snd (TanhExample.bwd_op_with TanhExample.vjp_same_op TanhExample.block))
     = blk_ops TanhExample.block.
Proof.
  split; [reflexivity |]. split; [reflexivity |]. split.
  - apply check_op_paired; reflexivity.
  - split; reflexivity.
Qed.

Lemma undecomposable_reported_witness :
  _decomp_bwd_op [] [] no_rule no_decomp no_call_decomp TanhExample.vjp_same_op no_grad
                 true true TanhExample.tanh_grad TanhExample.grad_var_to_var
                 TanhExample.block
  = (Ok (None, false, TanhExample.grad_var_to_var),
     mkStore (blk_ops TanhExample.block) 6 None []).
Proof.
  refine (proj1 (proj2 (undecomposable_reported
                          [] [] no_rule no_decomp no_call_decomp TanhExample.vjp_same_op
                          no_grad TanhExample.tanh_grad TanhExample.grad_var_to_var
                          TanhExample.block TanhExample.tanh
                          (mkStore (blk_ops TanhExample.block
                                    ++ [mkOp 5 "pd_op.tanh_grad"
                                             [TanhExample.out; TanhExample.out_grad]
                                             [OpRes 5 0 (f32 [2]%Z)] ["out"; "out_grad"]
                                             ["x_grad"] [] []]) 6 None [])
                          [[TanhExample.out_grad]] 3 [[Some (OpRes 5 0 (f32 [2]%Z))]]
                          [mkOp 5 "pd_op.tanh_grad" [TanhExample.out; TanhExample.out_grad]
                                [OpRes 5 0 (f32 [2]%Z)] ["out"; "out_grad"] ["x_grad"] [] []]
                          _ _ _ _ _ _ _ _ _ _))).
  - reflexivity.
  - reflexivity.
  - reflexivity.
  - reflexivity.
  - reflexivity.
  - reflexivity.
  - simpl. distinct_ids.
  - eexists. split; reflexivity.
  - reflexivity.
  - reflexivity.
Defined.

(** C4, as stated, fails: tanh has neither a registered rule nor a native
    decomposition, and with a composite vjp rule its gradient operation is
    rewritten: the driver reports it as decomposed and the gradient
    operation is no more in the block. *)
Lemma rewritten_through_vjp_without_forward_rule :
  let r := TanhExample.driver_with TanhExample.vjp_composite TanhExample.param_mapping
             TanhExample.all_disabled in
  no_rule (op_name TanhExample.tanh) = None
  /\ no_decomp TanhExample.tanh = false
  /\ fst r = Ok (mkReport 1 ["pd_op.tanh_grad"] 0 [])
  /\ find_op (op_id TanhExample.tanh_grad) (blk_ops (store (snd r))) = None
  /\ ids (blk_ops (store (snd r))) = [0; 1; 2; 5; 6; 7; 8; 4].
Proof. repeat split. Qed.

(** ** The switches of the driver *)

Section Driver.

Variable ops_contain_none : list string.
Variable decomp_ops_contain_unused_output : list (string * list nat).
Variable forward_blacklist : list string.
Variable get_decomp_rule : string -> option (list PyVal -> M PyVal).
Variable has_decomp : Operation -> bool.
Variable call_decomp : Operation -> M (list (list (option Value))).
Variable call_vjp :
  Operation -> list (list Value) -> list (list Value) -> list (list Value) ->
  list (list bool) -> M (list (list (option Value))).
Variable grad : list Value -> list Value -> list Value -> M (list Value).

Let driver :=
  decompose_pir_program ops_contain_none decomp_ops_contain_unused_output get_decomp_rule
                        has_decomp call_decomp call_vjp grad.
Let forward :=
  decompose_in ops_contain_none decomp_ops_contain_unused_output forward_blacklist
               get_decomp_rule has_decomp call_decomp.

(** C5, amended: [decompose_pir_program] runs its body with the three
    switches enabled; when it returns, the forward-prim, backward-prim and
    pir-api switches have the values they had on entry; when an exception
    leaves it, none is set back: the three are enabled. *)
Theorem driver_restores_on_return_only pm g2v (w : World) :
  fst (driver pm g2v w)
  = fst (driver_body ops_contain_none decomp_ops_contain_unused_output get_decomp_rule
                     has_decomp call_decomp call_vjp grad true true pm g2v (store w))
  /\ match driver pm g2v w with
     | (Ok _, w') =>
         prim_forward_enabled (flags w') = prim_forward_enabled (flags w)
         /\ prim_backward_enabled (flags w') = prim_backward_enabled (flags w)
         /\ FLAGS_enable_pir_api (flags w') = FLAGS_enable_pir_api (flags w)
     | (Raise _, w') =>
         prim_forward_enabled (flags w') = true
         /\ prim_backward_enabled (flags w') = true
         /\ FLAGS_enable_pir_api (flags w') = true
     end.
Proof.
  unfold driver, decompose_pir_program. simpl.
  destruct (driver_body _ _ _ _ _ _ _ true true pm g2v (store w)) as [[r | e] s'];
    simpl; auto.
Qed.

(** C8, amended: with the forward switch disabled [decompose] returns
    [src_vars] and the program is unchanged; [decompose_pir_program] does not
    read the switches it enables: what it reports and the program it leaves
    are the same whatever the switches were on entry. *)
Theorem disabled_switches :
  (forall program src_vars blacklist whitelist w,
     prim_forward_enabled (flags w) = false ->
     forward program src_vars blacklist whitelist w = (Ok src_vars, w))
  /\ (forall pm g2v w1 w2,
        store w1 = store w2 ->
        fst (driver pm g2v w1) = fst (driver pm g2v w2)
        /\ store (snd (driver pm g2v w1)) = store (snd (driver pm g2v w2))).
Proof.
  split.
  - intros program src_vars bl wl [f st] H. simpl in H.
    unfold forward, decompose_in, decompose. simpl. rewrite H. reflexivity.
  - intros pm g2v w1 w2 H. unfold driver, decompose_pir_program. simpl. rewrite H.
    destruct (driver_body _ _ _ _ _ _ _ true true pm g2v (store w2)) as [[r | e] s'];
      simpl; auto.
Qed.

End Driver.

Lemma disabled_switches_witness :
  decompose_in [] [] [] rules.get_decomp_rule no_decomp no_call_decomp
               AProgram [PyOpResult TanhExample.out] (ASet []) (ASet [])
               TanhExample.all_disabled
  = (Ok [PyOpResult TanhExample.out], TanhExample.all_disabled).
Proof.
  apply (proj1 (disabled_switches [] [] [] rules.get_decomp_rule no_decomp no_call_decomp
                                  TanhExample.vjp_composite no_grad)).
  reflexivity.
Defined.

(** C5, as stated, fails: the translation of the variable map raises the
    assertion error, and the switches that were disabled on entry are left
    enabled. *)
Lemma switches_left_enabled_on_exception :
  let r := TanhExample.driver_with TanhExample.vjp_composite
             TanhExample.param_mapping_two_values TanhExample.all_disabled in
  fst r = Raise AssertionError
  /\ flags TanhExample.all_disabled = mkFlags false false false false
  /\ flags (snd r) = mkFlags true true true false.
Proof. repeat split. Qed.

(** C8, as stated, fails: with the backward switch disabled on entry,
    [decompose_pir_program] rewrites the gradient operation of tanh. *)
Lemma driver_rewrites_with_backward_disabled :
  let r := TanhExample.driver_with TanhExample.vjp_composite TanhExample.param_mapping
             TanhExample.all_disabled in
  prim_backward_enabled (flags TanhExample.all_disabled) = false
  /\ fst r = Ok (mkReport 1 ["pd_op.tanh_grad"] 0 [])
  /\ ids (blk_ops (store TanhExample.all_disabled)) = [0; 1; 2; 3; 4]
  /\ ids (blk_ops (store (snd r))) = [0; 1; 2; 5; 6; 7; 8; 4].
Proof. repeat split. Qed.

(** ** The cleanup of the combine *)

(** C6, on the code: after the [add_n] fed by a [builtin.combine] is
    decomposed and removed, the combine still feeds the two [stack]
    operations; no result of it has exactly one use, and the combine is
    removed from the block while the two operations still use its result.
    With one [stack] operation the combine is kept. *)
Theorem combine_removed_under_two_consumers :
  let r := CombineExample.run CombineExample.two_consumers in
  fst r = Ok [PyOpResult (OpRes 7 0 (f32 [2]%Z))]
  /\ find_op (op_id CombineExample.combine) (blk_ops (snd r)) = None
  /\ use_count CombineExample.c (blk_ops (snd r)) = 2
  /\ map op_name (blk_ops (snd r))
     = ["pd_op.data"; "pd_op.data"; "pd_op.add"; "pd_op.stack"; "pd_op.stack"; "pd_op.relu"]
  /\ find_op (op_id CombineExample.combine)
             (blk_ops (snd (CombineExample.run CombineExample.one_consumer)))
     = Some CombineExample.combine.
Proof. repeat split. Qed.

(** * Further properties of the pass *)

Lemma bind_inv {A B} (m : M A) (k : A -> M B) s b s' :
  bind m k s = (Ok b, s') ->
  exists a s1, m s = (Ok a, s1) /\ k a s1 = (Ok b, s').
Proof.
  unfold bind. destruct (m s) as [[a | e] s1]; [| discriminate].
  intros H. exists a, s1. split; [reflexivity | exact H].
Qed.

Lemma lift_inv {A} (o : Outcome A) s a s' :
  lift o s = (Ok a, s') -> o = Ok a /\ s' = s.
Proof. unfold lift. intros H. inversion H. split; reflexivity. Qed.

(** ** The names of the gradient operations *)

Lemma bwd_ops_names_In ops : forall acc n,
  In n (bwd_ops_names ops acc)
  <-> In n acc \/ exists op, In op ops /\ op_name op = n /\ is_grad_name n = true.
Proof.
  induction ops as [| op rest IH]; intros acc n; simpl.
  - split; [auto |]. intros [H | [op [[] _]]]. exact H.
  - fold (is_grad_name (op_name op)).
    destruct (is_grad_name (op_name op)) eqn:Eg; simpl.
    + destruct (str_in (op_name op) acc) eqn:Ein; simpl; rewrite IH.
      * split.
        -- intros [H | [o [H1 H2]]]; [left; exact H |].
           right. exists o. split; [right; exact H1 | exact H2].
        -- intros [H | [o [[H1 | H1] [H2 H3]]]]; [left; exact H | |].
           ++ subst o. left. rewrite <- H2. apply str_in_In. exact Ein.
           ++ right. exists o. auto.
      * rewrite in_app_iff. simpl. split.
        -- intros [[H | [H | []]] | [o [H1 H2]]].
           ++ left. exact H.
           ++ right. exists op. subst n. auto.
           ++ right. exists o. split; [right; exact H1 | exact H2].
        -- intros [H | [o [[H1 | H1] [H2 H3]]]].
           ++ left. left. exact H.
           ++ subst o. left. right. left. exact H2.
           ++ right. exists o. auto.
    + rewrite IH. split.
      * intros [H | [o [H1 H2]]]; [left; exact H |].
        right. exists o. split; [right; exact H1 | exact H2].
      * intros [H | [o [[H1 | H1] [H2 H3]]]]; [left; exact H | |].
        -- subst o. rewrite H2 in Eg. congruence.
        -- right. exists o. auto.
Qed.

Lemma bwd_ops_names_NoDup ops : forall acc,
  NoDup acc -> NoDup (bwd_ops_names ops acc).
Proof.
  induction ops as [| op rest IH]; intros acc H; simpl; [exact H |].
  destruct ((endswith (op_name op) "_grad" || endswith (op_name op) "_grad_")
            && negb (str_in (op_name op) acc)) eqn:E.
  - apply IH. apply andb_true_iff in E. destruct E as [_ E].
    apply not_str_in in E.
    apply NoDup_rev in H. rewrite <- (rev_involutive (acc ++ [op_name op])).
    apply NoDup_rev. rewrite rev_app_distr. simpl. constructor; [| exact H].
    rewrite <- in_rev. exact E.
  - apply IH. exact H.
Qed.

(** X1: the list of [_get_bwd_ops_name] has every name once, and its names
    are those of the operations of the block that end with ["_grad"] or
    ["_grad_"]. *)
Theorem get_bwd_ops_name_distinct_and_complete (s : Store) :
  NoDup (_get_bwd_ops_name s)
  /\ forall n, In n (_get_bwd_ops_name s)
               <-> exists op, In op (blk_ops s) /\ op_name op = n /\ is_grad_name n = true.
Proof.
  split.
  - apply bwd_ops_names_NoDup. constructor.
  - intros n. unfold _get_bwd_ops_name. rewrite bwd_ops_names_In. simpl. tauto.
Qed.

(** ** The report of the driver *)

Lemma add_name_NoDup x l : NoDup l -> NoDup (add_name x l).
Proof.
  intros H. unfold add_name. destruct (str_in x l) eqn:E; [exact H |].
  rewrite <- (rev_involutive (l ++ [x])). apply NoDup_rev.
  rewrite rev_app_distr. simpl. constructor.
  - rewrite <- in_rev. intros Hin. apply str_in_In in Hin. congruence.
  - apply NoDup_rev. exact H.
Qed.

Lemma add_name_inv n x l : In n (add_name x l) -> n = x \/ In n l.
Proof.
  unfold add_name. destruct (str_in x l); [auto |].
  rewrite in_app_iff. simpl. intros [H | [H | []]]; auto.
Qed.

Section DriverReport.

Variable ops_contain_none : list string.
Variable decomp_ops_contain_unused_output : list (string * list nat).
Variable get_decomp_rule : string -> option (list PyVal -> M PyVal).
Variable has_decomp : Operation -> bool.
Variable call_decomp : Operation -> M (list (list (option Value))).
Variable call_vjp :
  Operation -> list (list Value) -> list (list Value) -> list (list Value) ->
  list (list bool) -> M (list (list (option Value))).
Variable grad : list Value -> list Value -> list Value -> M (list Value).

Let step :=
  driver_step ops_contain_none decomp_ops_contain_unused_output get_decomp_rule
              has_decomp call_decomp call_vjp grad.
Let loop :=
  driver_loop ops_contain_none decomp_ops_contain_unused_output get_decomp_rule
              has_decomp call_decomp call_vjp grad.
Let driver :=
  decompose_pir_program ops_contain_none decomp_ops_contain_unused_output get_decomp_rule
                        has_decomp call_decomp call_vjp grad.

Lemma driver_step_report fwd_enabled bwd_enabled bwd_ops op d r s d' r' s' :
  step fwd_enabled bwd_enabled bwd_ops op d r s = (Ok (d', r'), s') ->
  report_ok bwd_ops r ->
  report_ok bwd_ops r'
  /\ num_bwd_ops_decomposed r' + num_bwd_ops_undecomposed r'
     = num_bwd_ops_decomposed r + num_bwd_ops_undecomposed r + visited bwd_ops [op].
Proof.
  unfold step, driver_step, visited. simpl.
  destruct (str_in (op_name op) bwd_ops) eqn:Ein.
  - unfold bind.
    destruct (_decomp_bwd_op _ _ _ _ _ _ _ _ _ op d s) as [[[[g hd] d1] | e] s1];
      [| discriminate].
    apply str_in_In in Ein.
    destruct hd; unfold ret; intros H [H1 [H2 H3]]; inversion H; subst; simpl;
      (split; [| lia]); unfold report_ok; simpl.
    + split; [apply add_name_NoDup; exact H1 |]. split; [exact H2 |].
      intros n [Hn | Hn]; [| apply H3; right; exact Hn].
      apply add_name_inv in Hn. destruct Hn as [Hn | Hn]; [subst; exact Ein |].
      apply H3. left. exact Hn.
    + split; [exact H1 |]. split; [apply add_name_NoDup; exact H2 |].
      intros n [Hn | Hn]; [apply H3; left; exact Hn |].
      apply add_name_inv in Hn. destruct Hn as [Hn | Hn]; [subst; exact Ein |].
      apply H3. right. exact Hn.
  - unfold ret. intros H Hok. inversion H; subst. split; [exact Hok | simpl; lia].
Qed.

Lemma driver_loop_report fwd_enabled bwd_enabled bwd_ops ops :
  forall d r s r' s',
    loop fwd_enabled bwd_enabled bwd_ops ops d r s = (Ok r', s') ->
    report_ok bwd_ops r ->
    report_ok bwd_ops r'
    /\ num_bwd_ops_decomposed r' + num_bwd_ops_undecomposed r'
       = num_bwd_ops_decomposed r + num_bwd_ops_undecomposed r + visited bwd_ops ops.
Proof.
  induction ops as [| op rest IH]; intros d r s r' s' H Hok.
  - inversion H; subst. split; [exact Hok | unfold visited; simpl; lia].
  - unfold loop in H. simpl in H. apply bind_inv in H.
    destruct H as [[d1 r1] [s1 [Hstep Hrest]]].
    destruct (driver_step_report _ _ _ _ _ _ _ _ _ _ Hstep Hok) as [Hok1 Hsum1].
    destruct (IH d1 r1 s1 r' s' Hrest Hok1) as [Hok' Hsum'].
    split; [exact Hok' |].
    rewrite Hsum', Hsum1. unfold visited. simpl.
    destruct (str_in (op_name op) bwd_ops); simpl; lia.
Qed.

(** X2: when [decompose_pir_program] returns, the two counts of its report
    add up to the number of operations of the program, as it was on entry,
    whose name ends with ["_grad"] or ["_grad_"]; each of the two lists of
    names has every name once, and holds such names only. *)
Theorem driver_counts_every_gradient_op pm g2v (w w' : World) (report : Report) :
  driver pm g2v w = (Ok report, w') ->
  num_bwd_ops_decomposed report + num_bwd_ops_undecomposed report
  = List.length (filter (fun op => is_grad_name (op_name op)) (blk_ops (store w)))
  /\ NoDup (bwd_ops_decomposed report)
  /\ NoDup (bwd_ops_undecomposed report)
  /\ forall n, In n (bwd_ops_decomposed report) \/ In n (bwd_ops_undecomposed report) ->
               is_grad_name n = true.
Proof.
  unfold driver, decompose_pir_program. simpl.
  destruct (driver_body _ _ _ _ _ _ _ true true pm g2v (store w)) as [[r | e] s'] eqn:Hbody;
    [| discriminate].
  intros H. inversion H; subst r w'. clear H.
  unfold driver_body, program_guard in Hbody.
  apply bind_inv in Hbody. destruct Hbody as [[] [s0 [Hset Hbody]]].
  unfold set_insertion_point_to_end in Hset. inversion Hset; subst s0. clear Hset.
  rewrite bind_get_store in Hbody.
  apply bind_inv in Hbody. destruct Hbody as [d0 [s1 [Htr Hloop]]].
  apply lift_inv in Htr. destruct Htr as [_ Hs1]. subst s1. simpl in Hloop.
  assert (Hok0 : report_ok (bwd_ops_names (blk_ops (store w)) []) (mkReport 0 [] 0 [])).
  { unfold report_ok. simpl. split; [constructor |]. split; [constructor |].
    intros n [[] | []]. }
  destruct (driver_loop_report _ _ _ _ _ _ _ _ _ Hloop Hok0) as [[H1 [H2 H3]] Hsum].
  simpl in Hsum. split; [| split; [exact H1 | split; [exact H2 |]]].
  - rewrite Hsum. unfold visited. f_equal. apply filter_ext_in.
    intros op Hop. unfold _get_bwd_ops_name. simpl.
    destruct (is_grad_name (op_name op)) eqn:Eg.
    + apply str_in_In. apply bwd_ops_names_In. right. exists op. auto.
    + destruct (str_in (op_name op) (bwd_ops_names (blk_ops (store w)) [])) eqn:E;
        [| reflexivity].
      apply str_in_In, bwd_ops_names_In in E.
      destruct E as [[] | [o [_ [_ Hg]]]]. congruence.
  - intros n Hn. apply H3 in Hn. apply bwd_ops_names_In in Hn.
    destruct Hn as [[] | [o [_ [_ Hg]]]]. exact Hg.
Qed.

End DriverReport.

Lemma driver_counts_every_gradient_op_witness :
  let r := TanhExample.driver_with TanhExample.vjp_same_op TanhExample.param_mapping
             TanhExample.all_disabled in
  num_bwd_ops_decomposed (mkReport 0 [] 1 ["pd_op.tanh_grad"])
  + num_bwd_ops_undecomposed (mkReport 0 [] 1 ["pd_op.tanh_grad"])
  = List.length (filter (fun op => is_grad_name (op_name op))
                        (blk_ops (store TanhExample.all_disabled))).
Proof.
  intros r.
  apply (driver_counts_every_gradient_op
           [] [] no_rule no_decomp no_call_decomp TanhExample.vjp_same_op no_grad
           TanhExample.param_mapping TanhExample.grad_names TanhExample.all_disabled
           (snd r) (mkReport 0 [] 1 ["pd_op.tanh_grad"])).
  reflexivity.
Defined.

(** ** The search of the forward operation *)

Lemma get_fwd_op_from_no_out_grad s operands d : forall names idx,
  Forall (fun n => str_in n out_grad_name = false) names ->
  get_fwd_op_from s operands d idx names = Ok None.
Proof.
  induction names as [| n r IH]; intros idx H; cbn [get_fwd_op_from]; [reflexivity |].
  inversion H; subst. rewrite H2. apply IH. exact H3.
Qed.

Lemma get_fwd_op_from_unmapped s operands d : forall names idx,
  List.length names + idx <= List.length operands ->
  (forall i x, idx <= i -> nth_error operands i = Some x -> vdict_get d x = None) ->
  get_fwd_op_from s operands d idx names = Ok None.
Proof.
  induction names as [| n r IH]; intros idx Hlen Hun; cbn [get_fwd_op_from];
    [reflexivity |].
  simpl in Hlen.
  destruct (str_in n out_grad_name).
  - unfold getitem. destruct (nth_error operands idx) as [x |] eqn:E.
    + rewrite (Hun idx x (le_n _) E). apply IH; [lia |].
      intros i y Hi. apply Hun. lia.
    + apply nth_error_None in E. lia.
  - apply IH; [lia |]. intros i y Hi. apply Hun. lia.
Qed.

(** X3: a gradient operation is left alone by [_decomp_bwd_op], which
    returns not-decomposed in the store it was called in, when none of its
    declared input names is ["out_grad"], ["Out_grad"] or ["loss_grad"], and
    also when none of its inputs is a key of the variable map. *)
Theorem decomp_bwd_op_without_forward_op
    none unused rule has_dec call vjp grad fwd_enabled bwd_op d s :
  Forall (fun n => str_in n out_grad_name = false) (op_input_names bwd_op)
  \/ (List.length (op_input_names bwd_op) <= List.length (operands_now bwd_op s)
      /\ forall x, In x (operands_now bwd_op s) -> vdict_get d x = None) ->
  _get_fwd_op bwd_op d s = Ok None
  /\ _decomp_bwd_op none unused rule has_dec call vjp grad fwd_enabled true bwd_op d s
     = (Ok (None, false, d), s).
Proof.
  intros H.
  assert (Hget : _get_fwd_op bwd_op d s = Ok None).
  { unfold _get_fwd_op. destruct H as [H | [Hlen Hun]].
    - apply get_fwd_op_from_no_out_grad. exact H.
    - apply get_fwd_op_from_unmapped; [lia |].
      intros i x _ Hx. apply Hun. apply nth_error_In in Hx. exact Hx. }
  split; [exact Hget |].
  apply (decomp_bwd_op_check_fails none unused rule has_dec call vjp grad
           fwd_enabled bwd_op d s None Hget).
  reflexivity.
Qed.

Lemma decomp_bwd_op_without_forward_op_witness :
  _get_fwd_op TanhExample.tanh TanhExample.grad_var_to_var TanhExample.block = Ok None
  /\ _decomp_bwd_op [] [] no_rule no_decomp no_call_decomp TanhExample.vjp_composite no_grad
                    true true TanhExample.tanh TanhExample.grad_var_to_var TanhExample.block
     = (Ok (None, false, TanhExample.grad_var_to_var), TanhExample.block).
Proof.
  apply (decomp_bwd_op_without_forward_op
           [] [] no_rule no_decomp no_call_decomp TanhExample.vjp_composite no_grad
           true TanhExample.tanh TanhExample.grad_var_to_var TanhExample.block).
  left. repeat constructor.
Defined.

(** ** The gradients handed to the vjp *)





(** ** The results of the native decomposition *)

Lemma analyse_from_spec unused name : forall decomp_outs idx res,
  analyse_from unused name idx decomp_outs = Ok res ->
  List.length res = List.length decomp_outs
  /\ forall k value,
       nth_error decomp_outs k = Some value ->
       if unused_output unused name (idx + k)
       then (exists tl, value = None :: tl) /\ nth_error res k = Some PyNone
       else exists v, value = [Some v] /\ nth_error res k = Some (PyOpResult v).
Proof.
  induction decomp_outs as [| value rest IH]; intros idx res H; simpl in H.
  - inversion H; subst. split; [reflexivity |]. intros k v Hk. destruct k; discriminate.
  - destruct (unused_output unused name idx) eqn:Eu.
    + destruct value as [| [v |] tl]; try discriminate.
      destruct (analyse_from unused name (S idx) rest) as [r | e] eqn:Er; [| discriminate].
      inversion H; subst. destruct (IH (S idx) r Er) as [Hlen Hnth].
      split; [simpl; lia |]. intros k value Hk. destruct k as [| k]; simpl in Hk.
      * inversion Hk; subst. rewrite Nat.add_0_r, Eu. split; [eexists |]; reflexivity.
      * replace (idx + S k) with (S idx + k) by lia. apply Hnth. exact Hk.
    + destruct value as [| [v |] [| x tl]]; try discriminate.
      destruct (analyse_from unused name (S idx) rest) as [r | e] eqn:Er; [| discriminate].
      inversion H; subst. destruct (IH (S idx) r Er) as [Hlen Hnth].
      split; [simpl; lia |]. intros k value Hk. destruct k as [| k]; simpl in Hk.
      * inversion Hk; subst. rewrite Nat.add_0_r, Eu. exists v. split; reflexivity.
      * replace (idx + S k) with (S idx + k) by lia. apply Hnth. exact Hk.
Qed.

(** X5: [_analyse_decomp_results] refuses decomposition results whose number
    is not the number of original outputs; when it returns, it returns a
    list with one item per original output: [None] at a position that the
    table of unused outputs lists for the operation, where the native result
    starts with [None], and elsewhere the value of a native result that is
    exactly one value. *)
Theorem analyse_decomp_results_one_per_output unused orig_outs decomp_outs op :
  (List.length orig_outs <> List.length decomp_outs ->
   _analyse_decomp_results unused orig_outs decomp_outs op = Raise AssertionError)
  /\ forall r,
       _analyse_decomp_results unused orig_outs decomp_outs op = Ok r ->
       exists res,
         r = PyList res
         /\ List.length res = List.length orig_outs
         /\ forall k value,
              nth_error decomp_outs k = Some value ->
              if unused_output unused (op_name op) k
              then (exists tl, value = None :: tl) /\ nth_error res k = Some PyNone
              else exists v, value = [Some v] /\ nth_error res k = Some (PyOpResult v).
Proof.
  unfold _analyse_decomp_results. split.
  - intros H. apply Nat.eqb_neq in H. rewrite H. reflexivity.
  - intros r. destruct (Nat.eqb (List.length orig_outs) (List.length decomp_outs)) eqn:E;
      [| discriminate].
    destruct (analyse_from unused (op_name op) 0 decomp_outs) as [res | e] eqn:Ea;
      [| discriminate].
    intros H. inversion H; subst. exists res.
    destruct (analyse_from_spec unused (op_name op) decomp_outs 0 res Ea) as [Hlen Hnth].
    apply Nat.eqb_eq in E. split; [reflexivity |]. split; [lia |]. exact Hnth.
Qed.

Lemma analyse_decomp_results_one_per_output_witness :
  _analyse_decomp_results [("pd_op.batch_norm", [1])]
    [CombineExample.a; CombineExample.b] [[Some CombineExample.a]] CombineExample.add_n
  = Raise AssertionError.
Proof.
  apply (analyse_decomp_results_one_per_output [("pd_op.batch_norm", [1])]
           [CombineExample.a; CombineExample.b] [[Some CombineExample.a]]
           CombineExample.add_n).
  simpl. lia.
Defined.

(** ** The arguments of a rule *)

Lemma attr_values_present attrs : forall names,
  Forall (fun n => sdict_get attrs n <> None) names ->
  exists l, attr_values attrs names = Ok l /\ List.length l = List.length names.
Proof.
  induction names as [| n r IH]; intros H; simpl.
  - exists []. split; reflexivity.
  - inversion H; subst. destruct (sdict_get attrs n) as [a |]; [| congruence].
    destruct (IH H3) as [l [Hl Hlen]]. rewrite Hl.
    exists (a :: l). split; [reflexivity | simpl; lia].
Qed.

Lemma attr_values_missing attrs : forall names,
  Exists (fun n => sdict_get attrs n = None) names ->
  attr_values attrs names = Raise KeyError.
Proof.
  induction names as [| n r IH]; intros H; simpl.
  - inversion H.
  - destruct (sdict_get attrs n) as [a |] eqn:E; [| reflexivity].
    inversion H; subst; [congruence |]. rewrite (IH H1). reflexivity.
Qed.

(** X6: for an operation other than [builtin.combine],
    [_prepare_python_api_arguments] returns one argument per operand followed
    by one per declared attribute, the argument of an operand that is not
    initialized being [None]; it raises KeyError when a declared attribute
    name has no value.  For [builtin.combine] it returns a single argument,
    the list of the inputs. *)
Theorem prepare_python_api_arguments_shape (op : Operation) (s : Store) :
  (op_name op <> combine_op_name ->
   (Forall (fun n => sdict_get (op_attrs op) n <> None) (op_attr_names op) ->
    exists args,
      _prepare_python_api_arguments op s = Ok (PyTuple args)
      /\ List.length args
         = List.length (operands_now op s) + List.length (op_attr_names op)
      /\ forall i x, nth_error (operands_now op s) i = Some x ->
                     initialized x = false -> nth_error args i = Some PyNone)
   /\ (Exists (fun n => sdict_get (op_attrs op) n = None) (op_attr_names op) ->
       _prepare_python_api_arguments op s = Raise KeyError))
  /\ (op_name op = combine_op_name ->
      exists inputs,
        _prepare_python_api_arguments op s = Ok (PyTuple [PyList inputs])
        /\ List.length inputs = List.length (operands_now op s)).
Proof.
  unfold _prepare_python_api_arguments. split.
  - intros Hn. apply String.eqb_neq in Hn. rewrite Hn. split.
    + intros Hattrs. destruct (attr_values_present _ _ Hattrs) as [l [Hl Hlen]].
      rewrite Hl. eexists. split; [reflexivity |]. split.
      * rewrite length_app, length_map. lia.
      * intros i x Hx Hinit.
        rewrite nth_error_app1
          by (rewrite length_map; apply nth_error_Some; congruence).
        rewrite nth_error_map, Hx. simpl. unfold api_input. rewrite Hinit. reflexivity.
    + intros Hmiss. rewrite (attr_values_missing _ _ Hmiss). reflexivity.
  - intros Hn. apply String.eqb_eq in Hn. rewrite Hn.
    eexists. split; [reflexivity |]. apply length_map.
Qed.

Lemma prepare_python_api_arguments_shape_witness :
  exists inputs,
    _prepare_python_api_arguments CombineExample.combine CombineExample.two_consumers
    = Ok (PyTuple [PyList inputs])
    /\ List.length inputs
       = List.length (operands_now CombineExample.combine CombineExample.two_consumers).
Proof.
  apply (prepare_python_api_arguments_shape CombineExample.combine
           CombineExample.two_consumers).
  reflexivity.
Defined.

(** ** What the validator checks *)

Lemma z_in_In x l : z_in x l = true <-> In x l.
Proof.
  induction l as [| y r IH]; simpl.
  - split; [discriminate | tauto].
  - destruct (Z.eqb x y) eqn:E.
    + apply Z.eqb_eq in E. subst. tauto.
    + apply Z.eqb_neq in E. rewrite IH. split; [tauto |].
      intros [H | H]; [congruence | exact H].
Qed.

Lemma setitem_spec {A} (x : A) : forall l i l',
  setitem l i x = Ok l' ->
  List.length l' = List.length l
  /\ nth_error l' i = Some x
  /\ forall j, j <> i -> nth_error l' j = nth_error l j.
Proof.
  induction l as [| y r IH]; intros i l' H; simpl in H; [discriminate |].
  destruct i as [| i].
  - inversion H; subst. split; [reflexivity |]. split; [reflexivity |].
    intros j Hj. destruct j; [congruence | reflexivity].
  - destruct (setitem r i x) as [r' |] eqn:E; [| discriminate].
    inversion H; subst. destruct (IH i r' E) as [H1 [H2 H3]].
    split; [simpl; lia |]. split; [exact H2 |].
    intros j Hj. destruct j; [reflexivity |]. simpl. apply H3. lia.
Qed.

Lemma setitem_out_of_range {A} (x : A) : forall l i,
  List.length l <= i -> setitem l i x = Raise IndexError.
Proof.
  induction l as [| y r IH]; intros i H; simpl; [reflexivity |].
  destruct i as [| i]; simpl in H; [lia |].
  rewrite IH by lia. reflexivity.
Qed.

(** X7: when the validator returns for an operation whose first original
    output and first replacement are values, the two have the same dtype and
    the same shape, the shape has no dimension -1, and the numbers of
    original outputs and of replacements are equal. *)
Theorem check_op_results_first_pair_agrees none name orig os new ns ov dv r :
  _check_op_results none name (Some orig :: os) (PyTuple (PyOpResult new :: ns)) ov dv
  = Ok r ->
  List.length os = List.length ns
  /\ exists dtype shape,
       value_type orig = Ok (dtype, shape)
       /\ value_type new = Ok (dtype, shape)
       /\ ~ In (-1)%Z shape.
Proof.
  unfold _check_op_results. simpl.
  destruct (Nat.eqb (List.length os) (List.length ns)) eqn:El; simpl; [| discriminate].
  apply Nat.eqb_eq in El.
  match goal with
  | |- match ?u with _ => _ end = _ -> _ => destruct u as [dv' | e]; [| discriminate]
  end.
  destruct (value_type orig) as [[od osh] | e]; [| discriminate].
  destruct (value_type new) as [[nd nsh] | e]; [| discriminate].
  unfold DType_eqb, Shape_eqb.
  destruct (DType_eq_dec od nd) as [Hd | Hd]; simpl; [| discriminate].
  destruct (z_in (-1) nsh) eqn:Ez; [discriminate |].
  destruct (Shape_eq_dec osh nsh) as [Hs | Hs]; simpl; [| discriminate].
  intros _. split; [exact El |]. exists nd, nsh. subst.
  split; [reflexivity |]. split; [reflexivity |].
  intros Hin. apply z_in_In in Hin. congruence.
Qed.

Lemma check_op_results_first_pair_agrees_witness :
  List.length [Some ValidatorExample.out1] = List.length [PyOpResult ValidatorExample.new1]
  /\ exists dtype shape,
       value_type ValidatorExample.out0 = Ok (dtype, shape)
       /\ value_type ValidatorExample.new0 = Ok (dtype, shape)
       /\ ~ In (-1)%Z shape.
Proof.
  apply (check_op_results_first_pair_agrees [] "pd_op.layer_norm"
           ValidatorExample.out0 [Some ValidatorExample.out1]
           ValidatorExample.new0 [PyOpResult ValidatorExample.new1] None None None).
  reflexivity.
Defined.

(** X8: when the validator returns and the first original output is a key of
    [orig_vars], the slot of [dst_vars] that the key names holds the first
    replacement and the other slots are as they were; when it is no key,
    [dst_vars] is as it was.  A key that names a slot beyond the list makes
    the validator raise IndexError. *)
Theorem check_op_results_tracks_replacement none name orig os new ns ov dv :
  (forall r,
     _check_op_results none name (Some orig :: os) (PyTuple (PyOpResult new :: ns))
                       (Some ov) (Some dv) = Ok r ->
     match vdict_get ov orig with
     | Some i =>
         exists dv', r = Some dv'
                     /\ List.length dv' = List.length dv
                     /\ nth_error dv' i = Some (PyOpResult new)
                     /\ forall j, j <> i -> nth_error dv' j = nth_error dv j
     | None => r = Some dv
     end)
  /\ (forall i, vdict_get ov orig = Some i -> List.length dv <= i ->
      List.length os = List.length ns ->
      _check_op_results none name (Some orig :: os) (PyTuple (PyOpResult new :: ns))
                        (Some ov) (Some dv) = Raise IndexError).
Proof.
  split.
  - intros r. unfold _check_op_results. simpl.
    destruct (Nat.eqb (List.length os) (List.length ns)); simpl; [| discriminate].
    destruct (vdict_get ov orig) as [i |].
    + destruct (setitem dv i (PyOpResult new)) as [dv' | e] eqn:Es; [| discriminate].
      destruct (value_type orig) as [[od osh] | e]; [| discriminate].
      destruct (value_type new) as [[nd nsh] | e]; [| discriminate].
      destruct (negb (DType_eqb od nd)); [discriminate |].
      destruct (z_in (-1) nsh); [discriminate |].
      destruct (negb (Shape_eqb osh nsh)); [discriminate |]. simpl.
      intros H. inversion H; subst. exists dv'.
      destruct (setitem_spec _ _ _ _ Es) as [H1 [H2 H3]]. auto.
    + destruct (value_type orig) as [[od osh] | e]; [| discriminate].
      destruct (value_type new) as [[nd nsh] | e]; [| discriminate].
      destruct (negb (DType_eqb od nd)); [discriminate |].
      destruct (z_in (-1) nsh); [discriminate |].
      destruct (negb (Shape_eqb osh nsh)); [discriminate |]. simpl.
      intros H. inversion H. reflexivity.
  - intros i Hi Hlen Hn. unfold _check_op_results. simpl.
    apply Nat.eqb_eq in Hn. rewrite Hn. simpl. rewrite Hi.
    rewrite setitem_out_of_range by exact Hlen. reflexivity.
Qed.

Lemma check_op_results_tracks_replacement_witness :
  _check_op_results [] "pd_op.layer_norm" [Some ValidatorExample.out0]
                    (PyTuple [PyOpResult ValidatorExample.new0])
                    (Some [(ValidatorExample.out0, 3)]) (Some [PyNone; PyNone])
  = Raise IndexError.
Proof.
  apply (proj2 (check_op_results_tracks_replacement [] "pd_op.layer_norm"
                  ValidatorExample.out0 [] ValidatorExample.new0 []
                  [(ValidatorExample.out0, 3)] [PyNone; PyNone]) 3).
  - reflexivity.
  - simpl. lia.
  - reflexivity.
Defined.

(** ** The variables that [decompose] returns *)

Lemma index_src_vars_refuses : forall src_vars idx dct,
  Exists (fun x => isinstance_OpResult x = false) src_vars ->
  index_src_vars idx src_vars dct = Raise TypeError.
Proof.
  induction src_vars as [| x r IH]; intros idx dct H; [inversion H |].
  destruct x; try reflexivity. simpl.
  apply IH. inversion H; subst; [discriminate | assumption].
Qed.

Lemma index_src_vars_accepts : forall src_vars idx dct,
  Forall (fun x => isinstance_OpResult x = true) src_vars ->
  exists dct', index_src_vars idx src_vars dct = Ok dct'.
Proof.
  induction src_vars as [| x r IH]; intros idx dct H; simpl.
  - exists dct. reflexivity.
  - inversion H; subst. destruct x; try discriminate. apply IH. assumption.
Qed.

Lemma index_src_vars_ok : forall src_vars idx dct dct',
  index_src_vars idx src_vars dct = Ok dct' ->
  Forall (fun x => isinstance_OpResult x = true) src_vars.
Proof.
  induction src_vars as [| x r IH]; intros idx dct dct' H; [constructor |].
  destruct x; try discriminate. simpl in H.
  constructor; [reflexivity | exact (IH _ _ _ H)].
Qed.

Lemma check_pairs_keeps_size none name ov : forall pairs dv dv',
  check_pairs none name ov pairs dv = Ok dv' ->
  option_map (@List.length PyVal) dv' = option_map (@List.length PyVal) dv.
Proof.
  induction pairs as [| [orig_out new_out] rest IH]; intros dv dv' H; simpl in H.
  - inversion H. reflexivity.
  - destruct ((match orig_out with None => true | Some _ => false end || py_is_none new_out)
              && negb (str_in name none)); [discriminate |].
    destruct orig_out as [orig |]; [| exact (IH _ _ H)].
    destruct (negb (py_is_none new_out)); [| inversion H; reflexivity].
    assert (Hup : forall u,
               match ov, dv with
               | Some ov0, Some dv0 =>
                   match vdict_get ov0 orig with
                   | Some i => match setitem dv0 i new_out with
                               | Ok dv1 => Ok (Some dv1)
                               | Raise e => Raise e
                               end
                   | None => Ok dv
                   end
               | _, _ => Ok dv
               end = Ok u ->
               option_map (@List.length PyVal) u = option_map (@List.length PyVal) dv).
    { intros u Hu. destruct ov as [ov0 |]; [| inversion Hu; reflexivity].
      destruct dv as [dv0 |]; [| inversion Hu; reflexivity].
      destruct (vdict_get ov0 orig) as [i |]; [| inversion Hu; reflexivity].
      destruct (setitem dv0 i new_out) as [dv1 | e] eqn:Es; [| discriminate].
      inversion Hu; subst. simpl. f_equal. apply (setitem_spec _ _ _ _ Es). }
    match type of H with
    | match ?u with _ => _ end = _ => destruct u as [u' | e] eqn:Eu; [| discriminate]
    end.
    specialize (Hup u' eq_refl).
    destruct (value_type orig) as [[od osh] | e]; [| discriminate].
    destruct (py_type new_out) as [[nd nsh] | e]; [| discriminate].
    destruct (negb (DType_eqb od nd)); [discriminate |].
    destruct (z_in (-1) nsh); [discriminate |].
    destruct (negb (Shape_eqb osh nsh)); [discriminate |].
    destruct (py_is_none new_out); [discriminate |].
    inversion H; subst. exact Hup.
Qed.

Lemma check_op_results_keeps_size none name orig_outs new_outs ov dv dv' :
  _check_op_results none name orig_outs new_outs ov dv = Ok dv' ->
  option_map (@List.length PyVal) dv' = option_map (@List.length PyVal) dv.
Proof.
  unfold _check_op_results.
  destruct (py_len new_outs) as [n | e]; [| discriminate].
  destruct (negb (Nat.eqb (List.length orig_outs) n)); [discriminate |].
  destruct (py_items new_outs) as [items | e]; [| discriminate].
  apply check_pairs_keeps_size.
Qed.

Lemma fill_dst_vars_spec : forall dst_vars src_vars l,
  fill_dst_vars dst_vars src_vars = Ok l ->
  List.length l = List.length dst_vars
  /\ (Forall (fun x => isinstance_OpResult x = true) src_vars ->
      Forall (fun x => isinstance_OpResult x = true) l).
Proof.
  induction dst_vars as [| item r IH]; intros src_vars l H; simpl in H.
  - inversion H. split; [reflexivity | constructor].
  - match type of H with
    | match ?u with _ => _ end = _ => destruct u as [x | e] eqn:Eu; [| discriminate]
    end.
    destruct (fill_dst_vars r (tl src_vars)) as [l' | e] eqn:Er; [| discriminate].
    inversion H; subst. destruct (IH _ _ Er) as [H1 H2].
    split; [simpl; lia |]. intros Hsrc. constructor.
    + destruct item; try discriminate.
      * destruct src_vars as [| y ys]; [discriminate |].
        inversion Eu; subst. inversion Hsrc; assumption.
      * inversion Eu; subst. reflexivity.
    + apply H2. destruct src_vars; [constructor | inversion Hsrc; assumption].
Qed.

Lemma fill_dst_vars_untouched : forall src_vars,
  fill_dst_vars (repeat PyNone (List.length src_vars)) src_vars = Ok src_vars.
Proof.
  induction src_vars as [| x r IH]; simpl; [reflexivity |].
  rewrite IH. reflexivity.
Qed.

Section Forward.

Variable ops_contain_none : list string.
Variable decomp_ops_contain_unused_output : list (string * list nat).
Variable forward_blacklist : list string.
Variable get_decomp_rule : string -> option (list PyVal -> M PyVal).
Variable has_decomp : Operation -> bool.
Variable call_decomp : Operation -> M (list (list (option Value))).

Let one :=
  decompose_one ops_contain_none decomp_ops_contain_unused_output get_decomp_rule
                has_decomp call_decomp.
Let all :=
  decompose_loop ops_contain_none decomp_ops_contain_unused_output get_decomp_rule
                 has_decomp call_decomp.
Let run :=
  decompose ops_contain_none decomp_ops_contain_unused_output forward_blacklist
            get_decomp_rule has_decomp call_decomp.

Lemma decompose_one_keeps_size ops_list ov f idx op temp dv s temp' dv' s' :
  one ops_list ov f idx op temp dv s = (Ok (temp', dv'), s') ->
  option_map (@List.length PyVal) dv' = option_map (@List.length PyVal) dv.
Proof.
  unfold one, decompose_one.
  match goal with
  | |- (if ?c then _ else _) s = _ -> _ => destruct c
  end.
  - intros H.
    apply bind_inv in H. destruct H as [? [s1 [_ H]]].
    apply bind_inv in H. destruct H as [? [s2 [_ H]]].
    rewrite bind_get_store in H.
    apply bind_inv in H. destruct H as [input_args [s3 [_ H]]].
    apply bind_inv in H. destruct H as [new_outs [s4 [_ H]]].
    apply bind_inv in H. destruct H as [dv1 [s5 [Hcheck H]]].
    apply lift_inv in Hcheck. destruct Hcheck as [Hcheck _].
    apply bind_inv in H. destruct H as [? [s6 [_ H]]].
    apply bind_inv in H. destruct H as [? [s7 [_ H]]].
    apply bind_inv in H. destruct H as [? [s8 [_ H]]].
    inversion H; subst.
    exact (check_op_results_keeps_size _ _ _ _ _ _ _ Hcheck).
  - intros H. inversion H. reflexivity.
Qed.

Lemma decompose_loop_keeps_size ops_list ov f : forall todo idx temp dv s dv' s',
  all ops_list ov f idx todo temp dv s = (Ok dv', s') ->
  option_map (@List.length PyVal) dv' = option_map (@List.length PyVal) dv.
Proof.
  induction todo as [| op rest IH]; intros idx temp dv s dv' s' H.
  - inversion H. reflexivity.
  - unfold all in H. simpl in H. apply bind_inv in H.
    destruct H as [[temp1 dv1] [s1 [Hone Hrest]]].
    rewrite (IH _ _ _ _ _ _ Hrest).
    exact (decompose_one_keeps_size _ _ _ _ _ _ _ _ _ _ _ Hone).
Qed.

(** X9: with the forward switch enabled, [decompose] refuses a list
    [src_vars] with an item that is no [OpResult]: it raises TypeError and
    the program is as it was. *)
Theorem decompose_refuses_foreign_src_vars src_vars blacklist whitelist s :
  Exists (fun x => isinstance_OpResult x = false) src_vars ->
  run true AProgram src_vars (ASet blacklist) (ASet whitelist) s = (Raise TypeError, s).
Proof.
  intros H. unfold run, decompose. simpl.
  rewrite (bind_lift_raise _ _ _ _ (index_src_vars_refuses _ 0 [] H)). reflexivity.
Qed.

(** X10: whatever the rules do, the list that [decompose] returns has one
    variable per item of [src_vars]; with the forward switch enabled every
    one of them is an [OpResult]. *)
Theorem decompose_returns_one_per_src_var enabled program src_vars blacklist whitelist
    s dst_vars s' :
  run enabled program src_vars blacklist whitelist s = (Ok dst_vars, s') ->
  List.length dst_vars = List.length src_vars
  /\ (enabled = true -> Forall (fun x => isinstance_OpResult x = true) dst_vars).
Proof.
  unfold run, decompose. destruct enabled; simpl.
  - destruct program; [| discriminate].
    destruct blacklist as [bl |]; [| discriminate].
    destruct whitelist as [wl |]; [| discriminate].
    intros H.
    apply bind_inv in H. destruct H as [dct [s1 [Hidx H]]].
    apply lift_inv in Hidx. destruct Hidx as [Hidx _].
    apply bind_inv in H. destruct H as [dv [s2 [Hsub H]]].
    unfold program_guard in Hsub.
    apply bind_inv in Hsub. destruct Hsub as [? [s3 [_ Hsub]]].
    simpl in Hsub. rewrite bind_get_store in Hsub.
    apply decompose_loop_keeps_size in Hsub.
    destruct dv as [dv |]; [| discriminate].
    simpl in Hsub. inversion Hsub as [Hlen]. rewrite repeat_length in Hlen.
    apply lift_inv in H. destruct H as [H _].
    destruct (fill_dst_vars_spec _ _ _ H) as [H1 H2].
    split; [lia |]. intros _. apply H2. exact (index_src_vars_ok _ _ _ _ Hidx).
  - intros H. inversion H. split; [reflexivity | discriminate].
Qed.

Lemma decompose_loop_nothing_eligible ops_list ov f : forall todo idx temp dv s,
  (forall op, In op todo ->
     (get_decomp_rule (op_name op) = None /\ has_decomp op = false) \/ f op = false) ->
  all ops_list ov f idx todo temp dv s = (Ok dv, s).
Proof.
  induction todo as [| op rest IH]; intros idx temp dv s H; [reflexivity |].
  unfold all. simpl.
  assert (Hone : decompose_one ops_contain_none decomp_ops_contain_unused_output
                   get_decomp_rule has_decomp call_decomp ops_list ov f idx op temp dv s
                 = (Ok (if String.eqb (op_name op) combine_op_name then Some op else temp,
                        dv), s)).
  { unfold decompose_one.
    destruct (H op (or_introl eq_refl)) as [[Hr Hd] | Hf].
    - rewrite Hr, Hd. reflexivity.
    - rewrite Hf, andb_false_r. reflexivity. }
  rewrite (bind_ok _ _ _ _ _ Hone). apply IH.
  intros o Ho. apply H. right. exact Ho.
Qed.

(** X11: on a program where no operation is eligible (each has neither a
    registered rule nor a native decomposition, or is refused by the
    filter), [decompose] returns [src_vars] itself and leaves every
    operation of the block as it was; a second pass over a program of
    primitive operations rewrites nothing. *)
Theorem decompose_nothing_eligible src_vars blacklist whitelist s :
  Forall (fun x => isinstance_OpResult x = true) src_vars ->
  (forall op, In op (blk_ops s) ->
     (get_decomp_rule (op_name op) = None /\ has_decomp op = false)
     \/ op_filter (effective_blacklist forward_blacklist blacklist) whitelist op = false) ->
  run true AProgram src_vars (ASet blacklist) (ASet whitelist) s
  = (Ok src_vars, mkStore (blk_ops s) (next_id s) None (composite_ops_record s)).
Proof.
  intros Hsrc Hops. unfold run, decompose. simpl.
  destruct (index_src_vars_accepts src_vars 0 [] Hsrc) as [dct Hdct].
  rewrite (bind_lift_ok _ _ _ _ Hdct).
  set (s0 := mkStore (blk_ops s) (next_id s) None (composite_ops_record s)).
  assert (Hsub : program_guard
                   (_decompose_subgraph ops_contain_none decomp_ops_contain_unused_output
                      get_decomp_rule has_decomp call_decomp ABlock (Some dct)
                      (Some (repeat PyNone (List.length src_vars)))
                      (op_filter (effective_blacklist forward_blacklist blacklist)
                                 whitelist)) s
                 = (Ok (Some (repeat PyNone (List.length src_vars))), s0)).
  { unfold program_guard.
    rewrite (bind_ok set_insertion_point_to_end _ s tt s0 eq_refl).
    simpl. rewrite bind_get_store.
    apply (decompose_loop_nothing_eligible (blk_ops s0) (Some dct)). exact Hops. }
  rewrite (bind_ok _ _ _ _ _ Hsub).
  unfold lift. rewrite fill_dst_vars_untouched. reflexivity.
Qed.

End Forward.

Lemma decompose_refuses_foreign_src_vars_witness :
  decompose [] [] [] rules.get_decomp_rule no_decomp no_call_decomp true AProgram
            [PyOpResult TanhExample.out; PyInt 1] (ASet []) (ASet []) TanhExample.block
  = (Raise TypeError, TanhExample.block).
Proof.
  apply (decompose_refuses_foreign_src_vars [] [] [] rules.get_decomp_rule no_decomp
           no_call_decomp [PyOpResult TanhExample.out; PyInt 1] [] [] TanhExample.block).
  right. left. reflexivity.
Defined.

Lemma decompose_returns_one_per_src_var_witness :
  List.length [PyOpResult (OpRes 7 0 (f32 [2]%Z))] = List.length [PyOpResult CombineExample.y]
  /\ (true = true ->
      Forall (fun x => isinstance_OpResult x = true) [PyOpResult (OpRes 7 0 (f32 [2]%Z))]).
Proof.
  apply (decompose_returns_one_per_src_var [] [] [] no_rule CombineExample.has_decomp
           CombineExample.call_decomp true AProgram [PyOpResult CombineExample.y]
           (ASet []) (ASet []) CombineExample.two_consumers
           [PyOpResult (OpRes 7 0 (f32 [2]%Z))]
           (snd (CombineExample.run CombineExample.two_consumers))).
  reflexivity.
Defined.

Lemma decompose_nothing_eligible_witness :
  decompose [] [] [] no_rule no_decomp no_call_decomp true AProgram
            [PyOpResult TanhExample.out] (ASet []) (ASet ["pd_op.tanh"]) TanhExample.block
  = (Ok [PyOpResult TanhExample.out], TanhExample.block).
Proof.
  apply (decompose_nothing_eligible [] [] [] no_rule no_decomp no_call_decomp
           [PyOpResult TanhExample.out] [] ["pd_op.tanh"] TanhExample.block).
  - repeat constructor.
  - intros op _. left. split; reflexivity.
Defined.

(** ** The decomposition of the forward operation *)

Lemma find_op_remove_id i l : find_op i (remove_id i l) = None.
Proof.
  induction l as [| o r IH]; simpl; [reflexivity |].
  destruct (Nat.eqb (op_id o) i) eqn:E; simpl; [exact IH |].
  rewrite E. exact IH.
Qed.

Lemma remap_outputs_spec orig_outs news : forall d d',
  remap_outputs orig_outs news d = Ok d' ->
  Forall2 (remapped orig_outs news) d d'.
Proof.
  induction d as [| [g v] r IH]; intros d' H; simpl in H.
  - inversion H. constructor.
  - destruct (value_in v orig_outs) eqn:Ein.
    + destruct (value_index v orig_outs) as [i | e] eqn:Ei; [| discriminate].
      unfold getitem in H. destruct (nth_error news i) as [w |] eqn:En; [| discriminate].
      destruct (remap_outputs orig_outs news r) as [r' | e] eqn:Er; [| discriminate].
      inversion H; subst. constructor; [| apply IH; reflexivity].
      split; [reflexivity |]. right. exists i. split; assumption.
    + destruct (remap_outputs orig_outs news r) as [r' | e] eqn:Er; [| discriminate].
      inversion H; subst. constructor; [| apply IH; reflexivity].
      split; [reflexivity |]. left. split; [exact Ein | reflexivity].
Qed.

(** X12: when [_decomp_fwd_op] returns [True], whatever the rule or the
    native decomposition did: the new outputs are one value per result of
    the forward operation, the forward operation is no more in the block,
    and [grad_var_to_var] has the same keys in the same order, where each
    value that was a result of the forward operation is now the new output
    of the same position and every other value is unchanged. *)
Theorem decomp_fwd_op_decomposed none unused rule has_dec call fwd_op d s news d' s' :
  _decomp_fwd_op none unused rule has_dec call true fwd_op d s = (Ok (news, true, d'), s') ->
  List.length news = List.length (op_results fwd_op)
  /\ find_op (op_id fwd_op) (blk_ops s') = None
  /\ Forall2 (remapped (op_results fwd_op) news) d d'.
Proof.
  unfold _decomp_fwd_op, program_guard. simpl. intros H.
  apply bind_inv in H. destruct H as [? [s0 [_ H]]].
  match type of H with
  | (if ?c then _ else _) s0 = _ => destruct c; [| inversion H]
  end.
  rewrite bind_get_store in H.
  apply bind_inv in H. destruct H as [input_args [s1 [_ H]]].
  apply bind_inv in H. destruct H as [? [s2 [_ H]]].
  apply bind_inv in H. destruct H as [new_outs [s3 [_ H]]].
  apply bind_inv in H. destruct H as [? [s4 [_ H]]].
  apply bind_inv in H. destruct H as [vs [s5 [Hvs H]]].
  apply lift_inv in Hvs. destruct Hvs as [Hvs _].
  apply bind_inv in H. destruct H as [d1 [s6 [Hd H]]].
  apply lift_inv in Hd. destruct Hd as [Hd _].
  apply bind_inv in H. destruct H as [? [s7 [Hrep H]]].
  apply bind_inv in H. destruct H as [? [s8 [Hrem H]]].
  inversion H; subst. clear H.
  unfold op_replace_all_uses_with in Hrep.
  destruct (Nat.eqb (List.length (op_results fwd_op)) (List.length news)) eqn:El;
    [| discriminate].
  apply Nat.eqb_eq in El.
  unfold block_remove_op in Hrem. inversion Hrem; subst. simpl.
  split; [lia |]. split; [apply find_op_remove_id |].
  apply remap_outputs_spec. exact Hd.
Qed.

Lemma decomp_fwd_op_decomposed_witness :
  List.length [OpRes 5 0 (f32 [4]%Z)] = List.length (op_results MeanExample.mean_op)
  /\ find_op (op_id MeanExample.mean_op) (blk_ops (snd (MeanExample.fwd MeanExample.block)))
     = None
  /\ Forall2 (remapped (op_results MeanExample.mean_op) [OpRes 5 0 (f32 [4]%Z)])
             MeanExample.grad_var_to_var
             [(MeanExample.y_grad, OpRes 5 0 (f32 [4]%Z)); (MeanExample.x, MeanExample.x)].
Proof.
  apply (decomp_fwd_op_decomposed [] [] rules.get_decomp_rule no_decomp no_call_decomp
           MeanExample.mean_op MeanExample.grad_var_to_var MeanExample.block).
  reflexivity.
Defined.

(** ** The gradient operation after the forward decomposition *)

Lemma lookup_all_missing d : forall keys,
  Exists (fun k => vdict_get d k = None) keys -> lookup_all d keys = Raise KeyError.
Proof.
  induction keys as [| k r IH]; intros H; simpl; [inversion H |].
  destruct (vdict_get d k) as [v |] eqn:E; [| reflexivity].
  inversion H; subst; [congruence |]. rewrite (IH H1). reflexivity.
Qed.

Lemma lookup_all_outcome d keys :
  (exists l, lookup_all d keys = Ok l) \/ lookup_all d keys = Raise KeyError.
Proof.
  induction keys as [| k r IH]; simpl.
  - left. eexists. reflexivity.
  - destruct (vdict_get d k); [| right; reflexivity].
    destruct IH as [[l Hl] | Hr]; rewrite ?Hl, ?Hr; [left; eexists |right]; reflexivity.
Qed.

Lemma grad_results_spec new_grad_inputs : forall grad_inputs k,
  List.length (filter initialized grad_inputs) + k <= List.length new_grad_inputs ->
  exists res,
    grad_results grad_inputs new_grad_inputs k = Ok res
    /\ List.length res = List.length grad_inputs
    /\ Forall2 slot_filled grad_inputs res.
Proof.
  induction grad_inputs as [| g r IH]; intros k H; simpl.
  - exists []. split; [reflexivity |]. split; [reflexivity | constructor].
  - simpl in H. destruct (initialized g) eqn:Eg.
    + simpl in H. unfold getitem.
      destruct (nth_error new_grad_inputs k) as [v |] eqn:En.
      * destruct (IH (S k)) as [res [Hr [Hl Hf]]]; [lia |].
        rewrite Hr. exists (v :: res). split; [reflexivity |]. split; [simpl; lia |].
        constructor; [| exact Hf]. unfold slot_filled. congruence.
      * apply nth_error_None in En. lia.
    + destruct (IH k) as [res [Hr [Hl Hf]]]; [lia |].
      rewrite Hr. exists (Fake :: res). split; [reflexivity |]. split; [simpl; lia |].
      constructor; [| exact Hf]. unfold slot_filled. reflexivity.
Qed.

(** The end of both replacements of a gradient operation: the appended
    operations are moved to its position, the uses of its results are
    rewired and it is removed. *)
Lemma relocate_and_replace {X} (bwd_op : Operation) (res : list Value) (s s' : Store)
    (idx : nat) (app : list Operation) (result : X) :
  op_index (op_id bwd_op) (blk_ops s) = Ok idx ->
  blk_ops s' = blk_ops s ++ app ->
  NoDup (ids (blk_ops s')) ->
  List.length res = List.length (op_results bwd_op) ->
  (move_appended (List.length (blk_ops s))
                 (List.length (blk_ops s') - List.length (blk_ops s)) idx ;;;
   op_replace_all_uses_with bwd_op res ;;;
   block_remove_op bwd_op ;;;
   ret result)%M s'
  = (Ok result,
     with_ops s' (rewire_all (op_results bwd_op) res
                    (firstn idx (blk_ops s) ++ app ++ skipn (S idx) (blk_ops s)))).
Proof.
  intros Hidx Happ Hnd0 Hlen.
  destruct (op_index_split _ _ _ Hidx) as [o [Hsplit [Hid Hpre]]].
  set (pre := firstn idx (blk_ops s)) in *.
  set (post := skipn (S idx) (blk_ops s)) in *.
  assert (Hops' : blk_ops s' = pre ++ (o :: post) ++ app).
  { rewrite Happ, Hsplit at 1. rewrite <- app_assoc. reflexivity. }
  assert (Hnd : NoDup (ids (pre ++ (o :: post) ++ app))).
  { rewrite <- Hops'. exact Hnd0. }
  assert (Hcount : List.length (blk_ops s') - List.length (blk_ops s) = List.length app).
  { rewrite Happ, length_app. lia. }
  assert (Hbefore : List.length (blk_ops s) = List.length pre + List.length (o :: post)).
  { rewrite Hsplit at 1. rewrite length_app. reflexivity. }
  pose proof (move_appended_spec app pre (o :: post) s' Hops' Hnd) as Hmove.
  rewrite <- Hbefore, <- Hcount, Hpre in Hmove.
  rewrite (bind_ok _ _ _ _ _ Hmove).
  unfold bind, op_replace_all_uses_with, block_remove_op, ret, with_ops. simpl.
  rewrite Hlen, Nat.eqb_refl. simpl.
  rewrite remove_id_rewire_all, !remove_id_app.
  rewrite <- Hid, remove_id_head.
  rewrite !ids_app in Hnd. simpl in Hnd.
  apply NoDup_remove_2 in Hnd.
  assert (H1 : ~ In (op_id o) (ids pre)).
  { intros Hin. apply Hnd. apply in_or_app. left. exact Hin. }
  assert (H2 : ~ In (op_id o) (ids post)).
  { intros Hin. apply Hnd. apply in_or_app. right. apply in_or_app. left. exact Hin. }
  assert (H3 : ~ In (op_id o) (ids app)).
  { intros Hin. apply Hnd. apply in_or_app. right. apply in_or_app. right. exact Hin. }
  rewrite !remove_id_notin by assumption. reflexivity.
Qed.

Section WithoutVjp.

Variable grad : list Value -> list Value -> list Value -> M (list Value).
Variable bwd_op : Operation.
Variable d : GradMap.
Variables fwd_inputs fwd_outputs : list Value.
Variable s : Store.

(** The inputs of the gradient operation that are gradients of outputs. *)
Let grad_outputs : list Value :=
  filter (fun bwd_input =>
            negb (value_in bwd_input fwd_inputs || value_in bwd_input fwd_outputs))
         (operands_now bwd_op s).

(** X13: the fallback after the forward decomposition.  When [grad] only
    appends operations to the block and hands back at least one gradient per
    initialized result of the gradient operation, [_decomp_bwd_without_vjp]
    returns [True] with exactly one value per result slot, the fake value in
    every slot that is not initialized; the appended operations stand, in
    their order, where the gradient operation stood, the uses of its results
    are rewired to the returned values and it is removed. *)
Theorem decomp_bwd_without_vjp_replaces s' fo fi idx new_grad_inputs app :
  lookup_all d grad_outputs = Ok fo ->
  lookup_all d (filter initialized (op_results bwd_op)) = Ok fi ->
  op_index (op_id bwd_op) (blk_ops s) = Ok idx ->
  grad fo fi grad_outputs s = (Ok new_grad_inputs, s') ->
  blk_ops s' = blk_ops s ++ app ->
  NoDup (ids (blk_ops s')) ->
  List.length (filter initialized (op_results bwd_op)) <= List.length new_grad_inputs ->
  exists res d',
    _decomp_bwd_without_vjp grad bwd_op d fwd_inputs (Some fwd_outputs) s
    = (Ok (Some res, true, d'),
       with_ops s' (rewire_all (op_results bwd_op) res
                      (firstn idx (blk_ops s) ++ app ++ skipn (S idx) (blk_ops s))))
    /\ List.length res = List.length (op_results bwd_op)
    /\ Forall2 slot_filled (op_results bwd_op) res.
Proof.
  intros Hfo Hfi Hidx Hgrad Happ Hnd Hcount.
  destruct (grad_results_spec new_grad_inputs (op_results bwd_op) 0) as [res [Hres [Hlen Hf]]];
    [lia |].
  destruct (migrate_grads_ok (op_results bwd_op) res d) as [d' Hd']; [lia |].
  exists res, d'. split; [| split; [exact Hlen | exact Hf]].
  unfold _decomp_bwd_without_vjp. rewrite bind_get_store.
  fold grad_outputs.
  rewrite (bind_lift_ok _ _ _ _ Hfo), (bind_lift_ok _ _ _ _ Hfi),
    (bind_lift_ok _ _ _ _ Hidx).
  rewrite (bind_ok _ _ _ _ _ Hgrad). rewrite bind_get_store.
  rewrite (bind_lift_ok _ _ _ _ Hres), (bind_lift_ok _ _ _ _ Hd').
  apply relocate_and_replace; assumption.
Qed.

(** X14: [_decomp_bwd_without_vjp] raises KeyError, before [grad] is called
    and with the block as it was, when a gradient among the inputs of the
    gradient operation, or an initialized result of it, is no key of
    [grad_var_to_var]; called without the outputs of the decomposed forward
    operation it raises RuntimeError. *)
Theorem decomp_bwd_without_vjp_missing_key :
  (Exists (fun k => vdict_get d k = None)
          (grad_outputs ++ filter initialized (op_results bwd_op)) ->
   _decomp_bwd_without_vjp grad bwd_op d fwd_inputs (Some fwd_outputs) s
   = (Raise KeyError, s))
  /\ _decomp_bwd_without_vjp grad bwd_op d fwd_inputs None s = (Raise RuntimeError, s).
Proof.
  split; [| reflexivity].
  intros H. unfold _decomp_bwd_without_vjp. rewrite bind_get_store.
  fold grad_outputs. apply Exists_app in H.
  destruct (lookup_all_outcome d grad_outputs) as [[fo Hfo] | Hr].
  - rewrite (bind_lift_ok _ _ _ _ Hfo).
    destruct H as [H | H].
    + rewrite (lookup_all_missing _ _ H) in Hfo. discriminate.
    + rewrite (bind_lift_raise _ _ _ _ (lookup_all_missing _ _ H)). reflexivity.
  - rewrite (bind_lift_raise _ _ _ _ Hr). reflexivity.
Qed.

End WithoutVjp.

Lemma decomp_bwd_without_vjp_replaces_witness :
  exists res d',
    FallbackExample.run TanhExample.grad_var_to_var TanhExample.block
    = (Ok (Some res, true, d'),
       with_ops (snd (FallbackExample.grad [TanhExample.out] [TanhExample.x]
                        [TanhExample.out_grad] TanhExample.block))
                (rewire_all (op_results TanhExample.tanh_grad) res
                   (firstn 3 (blk_ops TanhExample.block)
                    ++ skipn 5 (blk_ops (snd (FallbackExample.grad
                                                [TanhExample.out] [TanhExample.x]
                                                [TanhExample.out_grad] TanhExample.block)))
                    ++ skipn 4 (blk_ops TanhExample.block))))
    /\ List.length res = List.length (op_results TanhExample.tanh_grad)
    /\ Forall2 slot_filled (op_results TanhExample.tanh_grad) res.
Proof.
  apply (decomp_bwd_without_vjp_replaces FallbackExample.grad TanhExample.tanh_grad
           TanhExample.grad_var_to_var [TanhExample.x] [TanhExample.out] TanhExample.block
           (snd (FallbackExample.grad [TanhExample.out] [TanhExample.x]
                   [TanhExample.out_grad] TanhExample.block))
           [TanhExample.out] [TanhExample.x] 3 [OpRes 6 0 (f32 [2]%Z)]).
  - reflexivity.
  - reflexivity.
  - reflexivity.
  - reflexivity.
  - reflexivity.
  - simpl. distinct_ids.
  - simpl. lia.
Defined.

Lemma decomp_bwd_without_vjp_missing_key_witness :
  FallbackExample.run [] TanhExample.block = (Raise KeyError, TanhExample.block).
Proof.
  apply (proj1 (decomp_bwd_without_vjp_missing_key FallbackExample.grad
                  TanhExample.tanh_grad [] [TanhExample.x] [TanhExample.out]
                  TanhExample.block)).
  left. reflexivity.
Defined.

(** ** The translation of the variable map *)

Lemma vdict_set_In {A} (k0 : Value) (a0 : A) : forall d k a,
  In (k, a) (vdict_set d k0 a0) -> (k = k0 /\ a = a0) \/ In (k, a) d.
Proof.
  induction d as [| [k' a'] r IH]; intros k a H; simpl in H.
  - destruct H as [H | []]. inversion H. left. split; reflexivity.
  - destruct (Value_eqb k0 k') eqn:E.
    + apply Value_eqb_eq in E. subst k'. destruct H as [H | H].
      * inversion H. left. split; reflexivity.
      * right. right. exact H.
    + destruct H as [H | H]; [right; left; exact H |].
      destruct (IH _ _ H) as [Hl | Hr]; [left; exact Hl | right; right; exact Hr].
Qed.

Lemma translate_items_single s pm : forall items acc,
  (forall name l, sdict_get pm name = Some l -> List.length l = 1) ->
  exists d,
    translate_items s pm items acc = Ok d
    /\ forall g v, In (g, v) d -> In (g, v) acc \/ translated pm items g v.
Proof.
  induction items as [| [grad_var var] rest IH]; intros acc Hone; simpl.
  - exists acc. split; [reflexivity | auto].
  - destruct (sdict_get pm grad_var) as [gs |] eqn:Eg.
    + destruct (sdict_get pm var) as [vs |] eqn:Ev.
      * pose proof (Hone _ _ Eg) as Hg. pose proof (Hone _ _ Ev) as Hv.
        destruct gs as [| g [| g2 gs]]; simpl in Hg; try discriminate.
        destruct vs as [| v [| v2 vs]]; simpl in Hv; try discriminate.
        destruct (IH (vdict_set acc g v) Hone) as [d [Hd Hin]].
        exists d. split; [exact Hd |].
        intros g' v' H. destruct (Hin _ _ H) as [Ha | [gn [vn [H1 [H2 H3]]]]].
        -- apply vdict_set_In in Ha. destruct Ha as [[Hk Hx] | Ha]; [| left; exact Ha].
           subst. right. exists grad_var, var. split; [left; reflexivity | auto].
        -- right. exists gn, vn. split; [right; exact H1 | auto].
      * destruct (IH acc Hone) as [d [Hd Hin]]. exists d. split; [exact Hd |].
        intros g' v' H. destruct (Hin _ _ H) as [Ha | [gn [vn [H1 [H2 H3]]]]];
          [left; exact Ha |].
        right. exists gn, vn. split; [right; exact H1 | auto].
    + destruct (IH acc Hone) as [d [Hd Hin]]. exists d. split; [exact Hd |].
      intros g' v' H. destruct (Hin _ _ H) as [Ha | [gn [vn [H1 [H2 H3]]]]];
        [left; exact Ha |].
      right. exists gn, vn. split; [right; exact H1 | auto].
Qed.

(** X15: when every name of [param_mapping] has exactly one value,
    [_translate_gradvartovar_to_pir] does not raise, and every item of the
    map it returns is the pair of the values of an item of [grad_var_to_var]
    whose two names are in [param_mapping]. *)
Theorem translate_single_values pm items s :
  (forall name l, sdict_get pm name = Some l -> List.length l = 1) ->
  exists d,
    _translate_gradvartovar_to_pir pm items s = Ok d
    /\ forall g v, In (g, v) d -> translated pm items g v.
Proof.
  intros Hone. unfold _translate_gradvartovar_to_pir.
  destruct (translate_items_single s pm items [] Hone) as [d [Hd Hin]].
  exists d. split; [exact Hd |].
  intros g v H. destruct (Hin g v H) as [[] | Ht]. exact Ht.
Qed.

Lemma translate_single_values_witness :
  exists d,
    _translate_gradvartovar_to_pir TanhExample.param_mapping TanhExample.grad_names
                                   TanhExample.block = Ok d
    /\ forall g v, In (g, v) d ->
                   translated TanhExample.param_mapping TanhExample.grad_names g v.
Proof.
  apply (translate_single_values TanhExample.param_mapping TanhExample.grad_names
           TanhExample.block).
  intros name l H. unfold TanhExample.param_mapping in H. simpl in H.
  repeat match type of H with
         | (if ?c then _ else _) = _ => destruct c; [inversion H; reflexivity |]
         end.
  discriminate.
Defined.

(** X16: the choice among two values of a gradient name, for an item whose
    variable name has one value.  The second value is taken when a
    [builtin.slice] produces it; otherwise the first is taken when the name
    of the producer of the second ends with ["_"]; otherwise the translation
    raises the assertion error. *)
Theorem translate_two_values pm grad_var var g0 g1 v o s :
  sdict_get pm grad_var = Some [g0; g1] ->
  sdict_get pm var = Some [v] ->
  get_defining_op g1 s = Some o ->
  _translate_gradvartovar_to_pir pm [(grad_var, var)] s
  = if String.eqb (op_name o) "builtin.slice" then Ok [(g1, v)]
    else if endswith (op_name o) "_" then Ok [(g0, v)]
    else Raise AssertionError.
Proof.
  intros Hg Hv Ho. unfold _translate_gradvartovar_to_pir. simpl.
  rewrite Hg, Hv. unfold select_var. rewrite Ho. simpl.
  destruct (String.eqb (op_name o) "builtin.slice"); [reflexivity |].
  rewrite Ho. destruct (endswith (op_name o) "_"); reflexivity.
Qed.

Lemma translate_two_values_witness :
  _translate_gradvartovar_to_pir TanhExample.param_mapping_two_values
                                 [("x@GRAD", "x")] TanhExample.block
  = Raise AssertionError.
Proof.
  apply (translate_two_values TanhExample.param_mapping_two_values "x@GRAD" "x"
           TanhExample.x_grad (OpRes 4 0 (f32 [2]%Z)) TanhExample.x TanhExample.fetch
           TanhExample.block); reflexivity.
Defined.

(** ** The mean over all axes *)

Lemma as_ints_of_ints l : rules.as_ints (map PyInt l) = Ok l.
Proof. induction l as [| n r IH]; simpl; [reflexivity |]. rewrite IH. reflexivity. Qed.

Lemma shape_getitem_in_range (shape : Shape) (i : nat) (x : Z) :
  nth_error shape i = Some x -> shape_getitem shape (Z.of_nat i) = Ok x.
Proof.
  intros H. unfold shape_getitem.
  assert (Hlt : i < List.length shape) by (apply nth_error_Some; congruence).
  assert (E1 : Z.ltb (Z.of_nat i) 0 = false) by (apply Z.ltb_ge; lia).
  assert (E2 : Z.leb (Z.of_nat (List.length shape)) (Z.of_nat i) = false)
    by (apply Z.leb_gt; lia).
  cbv zeta. rewrite E1. cbv iota. rewrite E1, E2. cbn [orb].
  unfold getitem. rewrite Nat2Z.id, H. reflexivity.
Qed.

Lemma product_of_all_dims : forall (suffix prefix : Shape) (acc : Z),
  rules.product_of_dims (prefix ++ suffix)
    (map Z.of_nat (seq (List.length prefix) (List.length suffix))) acc
  = Ok (acc * fold_right Z.mul 1 suffix)%Z.
Proof.
  induction suffix as [| x r IH]; intros prefix acc; simpl.
  - f_equal. lia.
  - rewrite (shape_getitem_in_range (prefix ++ x :: r) (List.length prefix) x).
    + replace (prefix ++ x :: r) with ((prefix ++ [x]) ++ r)
        by (rewrite <- app_assoc; reflexivity).
      replace (S (List.length prefix)) with (List.length (prefix ++ [x]))
        by (rewrite length_app; simpl; lia).
      rewrite IH. f_equal. lia.
    + rewrite nth_error_app2 by lia. rewrite Nat.sub_diag. reflexivity.
Qed.

Lemma normalize_all_axes (rank : nat) : forall k n,
  k + n <= rank ->
  primitives.normalize_axes rank (map Z.of_nat (seq k n)) = Ok (seq k n).
Proof.
  intros k n. revert k. induction n as [| n IH]; intros k H; simpl; [reflexivity |].
  unfold primitives.normalize_axis.
  assert (E1 : Z.ltb (Z.of_nat k) 0 = false) by (apply Z.ltb_ge; lia).
  assert (E2 : Z.leb (Z.of_nat rank) (Z.of_nat k) = false) by (apply Z.leb_gt; lia).
  cbv zeta. rewrite E1. cbv iota. rewrite E1, E2. cbn [orb].
  rewrite IH by lia. rewrite Nat2Z.id. reflexivity.
Qed.

Lemma nat_in_seq i k n : k <= i < k + n -> nat_in i (seq k n) = true.
Proof.
  revert k. induction n as [| n IH]; intros k H; simpl; [lia |].
  destruct (Nat.eqb i k) eqn:E; [reflexivity |].
  apply Nat.eqb_neq in E. apply IH. lia.
Qed.

Lemma reduce_all_dims axes : forall (shape : Shape) idx,
  (forall i, idx <= i < idx + List.length shape -> nat_in i axes = true) ->
  primitives.reduce_shape axes false idx shape = [].
Proof.
  induction shape as [| x r IH]; intros idx H; simpl; [reflexivity |].
  rewrite H by (simpl; lia). apply IH. intros i Hi. apply H. simpl. lia.
Qed.

(** X17: [mean] with [axis] [None] or [[]] reduces over all the axes: called
    with [keepdim] false on an input of dtype [d] and any shape, it builds
    the sum over the axes 0 .. rank-1, the constant whose value is the
    product of all the dimension sizes, and their quotient, of shape [] and
    dtype [d]; the two spellings of [axis] give the same result. *)
Theorem mean_over_all_axes (d : DType) (shape : Shape) (s : Store) (owner slot : nat) :
  let x := OpRes owner slot (Some (d, shape)) in
  let all_axes := map Z.of_nat (seq 0 (List.length shape)) in
  let i := next_id s in
  let sum_x := OpRes i 0 (Some (d, [])) in
  let norm := OpRes (S i) 0 (Some (d, [])) in
  let res := OpRes (S (S i)) 0 (Some (d, [])) in
  let sum_op :=
    mkOp i "pd_op.sum" [x] [sum_x] ["x"] ["out"] ["axis"; "keepdim"]
         [("axis", PyList (map PyInt all_axes)); ("keepdim", PyBool false)] in
  let full_op :=
    mkOp (S i) "pd_op.full" [] [norm] [] ["out"] ["shape"; "value"; "dtype"]
         [("shape", PyList []); ("value", PyInt (fold_right Z.mul 1%Z shape));
          ("dtype", PyStr (dtype_name d))] in
  let divide_op :=
    mkOp (S (S i)) "pd_op.divide" [sum_x; norm] [res] ["x"; "y"] ["out"] [] [] in
  let ip := insertion_point s in
  rules.mean [PyOpResult x; PyNone; PyBool false] s
  = (Ok (PyOpResult res),
     mkStore (insert_at ip divide_op (insert_at ip full_op (insert_at ip sum_op (blk_ops s))))
             (S (S (S i))) ip (composite_ops_record s))
  /\ rules.mean [PyOpResult x; PyList []; PyBool false] s
     = rules.mean [PyOpResult x; PyNone; PyBool false] s.
Proof.
  cbv zeta. split; [| reflexivity].
  unfold rules.mean. cbn [value_type rules.as_int].
  rewrite <- (map_map Z.of_nat PyInt), as_ints_of_ints.
  unfold primitives.sum. cbn [value_type].
  rewrite (normalize_all_axes (List.length shape) 0 (List.length shape)) by lia.
  rewrite reduce_all_dims by (intros j Hj; apply nat_in_seq; lia).
  unfold bind at 1. unfold bind at 1. unfold build_op at 1. cbn [getitem nth_error mk_results lift].
  unfold bind at 1. unfold lift at 1.
  pose proof (product_of_all_dims shape [] 1%Z) as Hprod.
  cbn [app List.length] in Hprod. rewrite Hprod.
  replace (1 * fold_right Z.mul 1 shape)%Z with (fold_right Z.mul 1%Z shape) by lia.
  destruct s as [ops n ip rec]. reflexivity.
Qed.

(** ** The route through the forward decomposition *)

Section Fallback.

Variable ops_contain_none : list string.
Variable decomp_ops_contain_unused_output : list (string * list nat).
Variable get_decomp_rule : string -> option (list PyVal -> M PyVal).
Variable has_decomp : Operation -> bool.
Variable call_decomp : Operation -> M (list (list (option Value))).
Variable call_vjp :
  Operation -> list (list Value) -> list (list Value) -> list (list Value) ->
  list (list bool) -> M (list (list (option Value))).
Variable grad : list Value -> list Value -> list Value -> M (list Value).

(** X18: a gradient operation whose forward operation passes the check, has
    no composite vjp rule (the vjp appends the gradient operation again) and
    is decomposed by [_decomp_fwd_op]: the result of [_decomp_bwd_op] is the
    one of [_decomp_bwd_without_vjp], called in the store and with the
    variable map that the forward decomposition leaves, with the operands
    that the forward operation had before it was decomposed and with its new
    outputs. *)
Theorem decomp_bwd_op_falls_back bwd_op d s fwd s' grad_outputs idx new_grad_inputs app
    news d1 s1 :
  _get_fwd_op bwd_op d s = Ok (Some fwd) ->
  _check_op (Some fwd) bwd_op s = Ok true ->
  _prepare_output_grads fwd bwd_op s = Ok grad_outputs ->
  op_index (op_id bwd_op) (blk_ops s) = Ok idx ->
  call_vjp fwd (wrap (operands_now fwd s)) (wrap (op_results fwd)) grad_outputs
           (map (fun grad_input => [negb (initialized grad_input)]) (op_results bwd_op)) s
  = (Ok new_grad_inputs, s') ->
  blk_ops s' = blk_ops s ++ app ->
  NoDup (ids (blk_ops s')) ->
  same_op_appended app bwd_op ->
  _decomp_fwd_op ops_contain_none decomp_ops_contain_unused_output get_decomp_rule
                 has_decomp call_decomp true fwd d (with_ops s' (blk_ops s))
  = (Ok (news, true, d1), s1) ->
  _decomp_bwd_op ops_contain_none decomp_ops_contain_unused_output get_decomp_rule
                 has_decomp call_decomp call_vjp grad true true bwd_op d s
  = _decomp_bwd_without_vjp grad bwd_op d1 (operands_now fwd s) (Some news) s1.
Proof.
  intros Hget Hcheck Hprep Hidx Hvjp Happ Hnd Hsame Hfwd.
  unfold _decomp_bwd_op. simpl.
  rewrite bind_get_store, (bind_lift_ok _ _ _ _ Hget), (bind_lift_ok _ _ _ _ Hcheck).
  rewrite (bind_ok _ _ _ _ _
             (decomp_bwd_with_vjp_undo call_vjp fwd bwd_op d s s' grad_outputs idx
                new_grad_inputs app Hprep Hidx Hvjp Happ Hnd Hsame)).
  simpl. rewrite bind_get_store.
  rewrite (bind_ok _ _ _ _ _ Hfwd). reflexivity.
Qed.

End Fallback.

Lemma decomp_bwd_op_falls_back_witness :
  MeanGradExample.bwd MeanGradExample.block
  = _decomp_bwd_without_vjp MeanGradExample.grad MeanGradExample.mean_grad
      [(MeanGradExample.y_grad, OpRes 8 0 (f32 [4]%Z));
       (MeanGradExample.x_grad, MeanGradExample.x)]
      [MeanGradExample.x] (Some [OpRes 8 0 (f32 [4]%Z)])
      (snd (_decomp_fwd_op [] [] rules.get_decomp_rule no_decomp no_call_decomp true
              MeanGradExample.mean_op MeanGradExample.grad_var_to_var
              (mkStore (blk_ops MeanGradExample.block) 6 None []))).
Proof.
  refine (decomp_bwd_op_falls_back
            [] [] rules.get_decomp_rule no_decomp no_call_decomp MeanGradExample.call_vjp
            MeanGradExample.grad MeanGradExample.mean_grad MeanGradExample.grad_var_to_var
            MeanGradExample.block MeanGradExample.mean_op
            (snd (MeanGradExample.call_vjp MeanGradExample.mean_op [[MeanGradExample.x]]
                    [[MeanGradExample.y]] [[MeanGradExample.y_grad]] [[false]]
                    MeanGradExample.block))
            [[MeanGradExample.y_grad]] 3 [[Some (OpRes 5 0 (f32 [4; 5]%Z))]]
            (skipn 5 (blk_ops (snd (MeanGradExample.call_vjp MeanGradExample.mean_op
                                      [[MeanGradExample.x]] [[MeanGradExample.y]]
                                      [[MeanGradExample.y_grad]] [[false]]
                                      MeanGradExample.block))))
            [OpRes 8 0 (f32 [4]%Z)]
            [(MeanGradExample.y_grad, OpRes 8 0 (f32 [4]%Z));
             (MeanGradExample.x_grad, MeanGradExample.x)]
            _ _ _ _ _ _ _ _ _ _).
  - reflexivity.
  - reflexivity.
  - reflexivity.
  - reflexivity.
  - reflexivity.
  - reflexivity.
  - simpl. distinct_ids.
  - eexists. split; reflexivity.
  - reflexivity.
Defined.

(** The fallback on the block of mean, end to end: the forward operation is
    replaced by the three operations of its rule, the gradient operation by
    the three operations of [grad], in its place. *)
Example mean_grad_through_fallback :
  let r := MeanGradExample.bwd MeanGradExample.block in
  fst r = Ok (Some [OpRes 11 0 (f32 [4; 5]%Z)], true,
              [(MeanGradExample.y_grad, OpRes 8 0 (f32 [4]%Z));
               (OpRes 11 0 (f32 [4; 5]%Z), MeanGradExample.x)])
  /\ map (fun o => (op_id o, op_name o)) (blk_ops (snd r))
     = [(0, "pd_op.data"); (6, "pd_op.sum"); (7, "pd_op.full"); (8, "pd_op.divide");
        (2, "pd_op.data"); (9, "pd_op.expand"); (10, "pd_op.full"); (11, "pd_op.divide");
        (4, "pd_op.fetch")].
Proof. split; reflexivity. Qed.

(** * The deny precedence in a run of decompose *)

(** ** Steps that keep a property of the store *)

Lemma hoare_bind {A B} P (m : M A) (k : A -> M B) (Q : A -> Prop) (R : B -> Prop) :
  hoare P m Q -> (forall a, Q a -> hoare P (k a) R) -> hoare P (bind m k) R.
Proof.
  intros Hm Hk s Hs. destruct (Hm s Hs) as [Hp Hq]. unfold bind.
  destruct (m s) as [[a | e] s1]; simpl in *.
  - apply (Hk a (Hq a eq_refl) s1 Hp).
  - split; [exact Hp | intros a H; discriminate].
Qed.

Lemma hoare_ret {A} P (a : A) (Q : A -> Prop) : Q a -> hoare P (ret a) Q.
Proof.
  intros Ha s Hs. split; [exact Hs |]. simpl. intros b H. inversion H; subst. exact Ha.
Qed.

Lemma hoare_raise {A} P e (Q : A -> Prop) : hoare P (raise e) Q.
Proof. intros s Hs. split; [exact Hs |]. simpl. intros b H. discriminate. Qed.

Lemma hoare_lift {A} P (o : Outcome A) : hoare P (lift o) (fun _ => True).
Proof. intros s Hs. split; [exact Hs | trivial]. Qed.

Lemma hoare_get_store P : hoare P get_store (fun _ => True).
Proof. intros s Hs. split; [exact Hs | trivial]. Qed.

Lemma hoare_weaken {A} P (m : M A) (Q Q' : A -> Prop) :
  hoare P m Q -> (forall a, Q a -> Q' a) -> hoare P m Q'.
Proof.
  intros H HQ s Hs. destruct (H s Hs) as [Hp Hq].
  split; [exact Hp |]. intros a Ha. apply HQ, Hq, Ha.
Qed.

(** ** Operations of the block and the identifiers *)

Lemma ids_injective l : forall a b,
  NoDup (ids l) -> In a l -> In b l -> op_id a = op_id b -> a = b.
Proof.
  induction l as [| o r IH]; intros a b Hnd Ha Hb Hid; [inversion Ha |].
  simpl in Hnd. inversion Hnd as [| ? ? Hnot Hnd']; subst.
  destruct Ha as [Ha | Ha]; destruct Hb as [Hb | Hb]; subst.
  - reflexivity.
  - exfalso. apply Hnot. rewrite Hid. apply in_map. exact Hb.
  - exfalso. apply Hnot. rewrite <- Hid. apply in_map. exact Ha.
  - apply IH; assumption.
Qed.

Lemma find_op_In l : forall x,
  NoDup (ids l) -> In x l -> find_op (op_id x) l = Some x.
Proof.
  induction l as [| o r IH]; intros x Hnd Hx; [inversion Hx |].
  simpl. destruct (Nat.eqb (op_id o) (op_id x)) eqn:E.
  - apply Nat.eqb_eq in E. f_equal.
    apply (ids_injective (o :: r)); [exact Hnd | left; reflexivity | exact Hx | exact E].
  - destruct Hx as [Hx | Hx]; [subst; rewrite Nat.eqb_refl in E; discriminate |].
    simpl in Hnd. inversion Hnd; subst. apply IH; assumption.
Qed.

Lemma find_op_some_In i : forall l o, find_op i l = Some o -> In o l /\ op_id o = i.
Proof.
  induction l as [| y r IH]; intros o H; simpl in H; [discriminate |].
  destruct (Nat.eqb (op_id y) i) eqn:E.
  - inversion H; subst. apply Nat.eqb_eq in E. split; [left; reflexivity | exact E].
  - destruct (IH o H) as [H1 H2]. split; [right; exact H1 | exact H2].
Qed.

Lemma find_op_remove_other i j : forall l,
  i <> j -> find_op i (remove_id j l) = find_op i l.
Proof.
  induction l as [| o r IH]; intros Hij; simpl; [reflexivity |].
  destruct (Nat.eqb (op_id o) j) eqn:Ej; simpl.
  - apply Nat.eqb_eq in Ej.
    destruct (Nat.eqb (op_id o) i) eqn:Ei; [apply Nat.eqb_eq in Ei; congruence |].
    apply IH. exact Hij.
  - destruct (Nat.eqb (op_id o) i); [reflexivity | apply IH; exact Hij].
Qed.

Lemma find_op_rewire i old new : forall l x operands,
  find_op i l = Some (set_operands x operands) ->
  exists operands', find_op i (rewire old new l) = Some (set_operands x operands').
Proof.
  intros l x operands H. unfold rewire. destruct old as [| owner slot ty].
  - exists operands. exact H.
  - induction l as [| o r IH]; simpl in *; [discriminate |].
    destruct (Nat.eqb (op_id o) i).
    + inversion H; subst. eexists. reflexivity.
    + apply IH. exact H.
Qed.

Lemma In_rewire old new l o :
  In o (rewire old new l) -> exists o0, In o0 l /\ op_id o = op_id o0.
Proof.
  unfold rewire. destruct old.
  - intros H. exists o. split; [exact H | reflexivity].
  - intros H. apply in_map_iff in H. destruct H as [o0 [Ho Hin]].
    exists o0. split; [exact Hin |]. subst o. reflexivity.
Qed.

Lemma insert_before_In i o : forall l o',
  In o' (insert_before i o l) -> o' = o \/ In o' l.
Proof.
  induction l as [| y r IH]; intros o' H; simpl in H.
  - destruct H as [H | []]. left. symmetry. exact H.
  - destruct (Nat.eqb (op_id y) i).
    + destruct H as [H | H]; [left; symmetry; exact H | right; exact H].
    + destruct H as [H | H]; [right; left; exact H |].
      destruct (IH o' H) as [H1 | H1]; [left; exact H1 | right; right; exact H1].
Qed.

Lemma find_op_insert_before j i o : forall l,
  op_id o <> j -> find_op j (insert_before i o l) = find_op j l.
Proof.
  intros l Hj. apply Nat.eqb_neq in Hj.
  induction l as [| y r IH]; simpl.
  - rewrite Hj. reflexivity.
  - destruct (Nat.eqb (op_id y) i); simpl.
    + rewrite Hj. reflexivity.
    + destruct (Nat.eqb (op_id y) j); [reflexivity | exact IH].
Qed.

Lemma find_op_app_other j o : forall l,
  op_id o <> j -> find_op j (l ++ [o]) = find_op j l.
Proof.
  intros l Hj. apply Nat.eqb_neq in Hj.
  induction l as [| y r IH]; simpl.
  - rewrite Hj. reflexivity.
  - destruct (Nat.eqb (op_id y) j); [reflexivity | exact IH].
Qed.

(** ** Rules that only build operations *)

Lemma builds_only_ret {A} (a : A) : builds_only (ret a).
Proof. intros s H. simpl. auto. Qed.

Lemma builds_only_raise {A} e : builds_only (@raise A e).
Proof. intros s H. simpl. auto. Qed.

Lemma builds_only_lift {A} (o : Outcome A) : builds_only (lift o).
Proof. intros s H. simpl. auto. Qed.

Lemma builds_only_bind {A B} (m : M A) (k : A -> M B) :
  builds_only m -> (forall a, builds_only (k a)) -> builds_only (bind m k).
Proof.
  intros Hm Hk s Hs. destruct (Hm s Hs) as [H1 [H2 H3]]. unfold bind.
  destruct (m s) as [[a | e] s1]; simpl in *; [| auto].
  destruct (Hk a s1 H1) as [K1 [K2 K3]].
  split; [exact K1 |]. split; [| congruence].
  intros i o Ho. apply K2, H2, Ho.
Qed.

Lemma builds_only_build_op name operands in_names out_names attrs tys :
  builds_only (build_op name operands in_names out_names attrs tys).
Proof.
  intros s Hs. unfold build_op. simpl. split; [| split; [| reflexivity]].
  - intros o Ho. unfold well_numbered in Hs.
    assert (Hcase : o = mkOp (next_id s) name operands (mk_results (next_id s) 0 tys)
                             in_names out_names (map fst attrs) attrs
                    \/ In o (blk_ops s)).
    { unfold insert_at in Ho. destruct (insertion_point s) as [i |].
      - apply insert_before_In in Ho. exact Ho.
      - apply in_app_or in Ho. destruct Ho as [Ho | [Ho | []]]; [right | left]; auto. }
    destruct Hcase as [Ho' | Ho']; [rewrite Ho'; cbn [op_id next_id]; lia |].
    specialize (Hs o Ho'). cbn [next_id]. lia.
  - intros i o Ho. destruct (find_op_some_In _ _ _ Ho) as [Hin Hid].
    specialize (Hs o Hin).
    unfold insert_at. destruct (insertion_point s) as [j |].
    + rewrite find_op_insert_before; [exact Ho | simpl; lia].
    + rewrite find_op_app_other; [exact Ho | simpl; lia].
Qed.

Ltac builds :=
  repeat first
    [ apply builds_only_ret
    | apply builds_only_raise
    | apply builds_only_lift
    | apply builds_only_build_op
    | apply builds_only_bind; [| intros ?]
    | match goal with
      | |- builds_only (match ?e with _ => _ end) => destruct e
      end ].

(** The rule of mean only builds operations, whatever its arguments. *)
Lemma mean_builds_only args : builds_only (rules.mean args).
Proof.
  unfold rules.mean, primitives.sum, primitives.fill_constant, primitives.divide.
  cbv zeta. builds.
Qed.

Lemma registered_rules_build_only name f args :
  rules.get_decomp_rule name = Some f -> builds_only (f args).
Proof.
  unfold rules.get_decomp_rule. destruct (String.eqb name "pd_op.mean"); [| discriminate].
  intros H. inversion H; subst. apply mean_builds_only.
Qed.

(** ** The pass leaves a refused operation alone *)

Section Denied.

Variable ops_contain_none : list string.
Variable decomp_ops_contain_unused_output : list (string * list nat).
Variable get_decomp_rule : string -> option (list PyVal -> M PyVal).
Variable has_decomp : Operation -> bool.
Variable call_decomp : Operation -> M (list (list (option Value))).

Variable x : Operation.
Variable record0 : list string.

Hypothesis rules_build :
  forall name f args, get_decomp_rule name = Some f -> builds_only (f args).
Hypothesis native_builds : forall op, builds_only (call_decomp op).

(** An operation whose removal leaves [x] in the block. *)
Let foreign (o : Operation) : Prop :=
  op_name x <> combine_op_name -> op_id o <> op_id x.

Let P : Store -> Prop := left_alone x record0.

Lemma builds_only_keeps {A} (m : M A) : builds_only m -> hoare P m (fun _ => True).
Proof.
  intros Hb s [Hwf [Hrec Hfind]]. destruct (Hb s Hwf) as [Hwf' [Hf' Hr']].
  split; [| trivial]. split; [exact Hwf' |]. split.
  - rewrite Hr'. exact Hrec.
  - intros Hn. destruct (Hfind Hn) as [operands Ho]. exists operands. apply Hf'. exact Ho.
Qed.

Lemma set_insertion_point_keeps o : hoare P (set_insertion_point o) (fun _ => True).
Proof. intros s Hs. split; [exact Hs | trivial]. Qed.

Lemma record_composite_op_keeps name :
  name <> op_name x -> hoare P (record_composite_op name) (fun _ => True).
Proof.
  intros Hn s [Hwf [Hrec Hfind]]. split; [| trivial].
  split; [exact Hwf |]. split; [| exact Hfind].
  simpl. intros Hin. apply Hrec.
  destruct (str_in name (composite_ops_record s)); [exact Hin |].
  apply in_app_or in Hin. destruct Hin as [Hin | [Hin | []]]; [exact Hin | congruence].
Qed.

Lemma left_alone_rewire old new s :
  P s -> P (with_ops s (rewire old new (blk_ops s))).
Proof.
  intros [Hwf [Hrec Hfind]]. split; [| split; [exact Hrec |]].
  - intros o Ho. simpl in Ho. apply In_rewire in Ho. destruct Ho as [o0 [Hin Hid]].
    simpl. rewrite Hid. apply Hwf. exact Hin.
  - intros Hn. destruct (Hfind Hn) as [operands Ho]. simpl.
    apply (find_op_rewire _ old new _ _ _ Ho).
Qed.

Lemma left_alone_rewire_all olds : forall news s,
  P s -> P (with_ops s (rewire_all olds news (blk_ops s))).
Proof.
  induction olds as [| old olds IH]; intros news s Hs; simpl.
  - destruct s; exact Hs.
  - destruct news as [| new news]; [destruct s; exact Hs |].
    apply (IH news (with_ops s (rewire old new (blk_ops s)))).
    apply left_alone_rewire. exact Hs.
Qed.

Lemma left_alone_remove o s :
  foreign o -> P s -> P (with_ops s (remove_id (op_id o) (blk_ops s))).
Proof.
  intros Hf [Hwf [Hrec Hfind]]. split; [| split; [exact Hrec |]].
  - intros o' Ho'. simpl in Ho'. apply filter_In in Ho'. simpl. apply Hwf, Ho'.
  - intros Hn. destruct (Hfind Hn) as [operands Ho]. exists operands. simpl.
    rewrite find_op_remove_other; [exact Ho |].
    intros E. apply (Hf Hn). symmetry. exact E.
Qed.

Lemma value_replace_keeps old new :
  hoare P (value_replace_all_uses_with old new) (fun _ => True).
Proof. intros s Hs. split; [apply (left_alone_rewire old new s Hs) | trivial]. Qed.

Lemma op_replace_keeps o news :
  hoare P (op_replace_all_uses_with o news) (fun _ => True).
Proof.
  intros s Hs. unfold op_replace_all_uses_with.
  destruct (Nat.eqb (List.length (op_results o)) (List.length news)); simpl.
  - split; [apply (left_alone_rewire_all (op_results o) news s Hs) | trivial].
  - split; [exact Hs | trivial].
Qed.

Lemma block_remove_keeps o : foreign o -> hoare P (block_remove_op o) (fun _ => True).
Proof. intros Hf s Hs. split; [apply (left_alone_remove o s Hf Hs) | trivial]. Qed.

Lemma rewire_used_keeps name new_outs : forall orig_outs idx,
  hoare P (rewire_used decomp_ops_contain_unused_output name idx orig_outs new_outs)
        (fun _ => True).
Proof.
  induction orig_outs as [| orig rest IH]; intros idx; simpl.
  - apply hoare_ret. trivial.
  - apply hoare_bind with (Q := fun _ => True); [| intros _ _; apply IH].
    destruct (unused_output decomp_ops_contain_unused_output name idx);
      [apply hoare_ret; trivial |].
    destruct (nth_error new_outs idx) as [[| | | | v | | | |] |];
      first [apply hoare_raise | apply value_replace_keeps].
Qed.

Lemma decomposed_outs_keeps op orig_outs decom_rule has_sink input_args :
  (forall f args, decom_rule = Some f -> builds_only (f args)) ->
  hoare P (decomposed_outs decomp_ops_contain_unused_output call_decomp op orig_outs
                           decom_rule has_sink input_args)
        (fun _ => True).
Proof.
  intros Hrule. unfold decomposed_outs. destruct has_sink.
  - apply hoare_bind with (Q := fun _ => True).
    + apply builds_only_keeps. apply native_builds.
    + intros a _. apply hoare_lift.
  - destruct decom_rule as [f |]; [| apply hoare_raise].
    apply hoare_bind with (Q := fun _ => True); [apply hoare_lift |].
    intros args _. apply hoare_bind with (Q := fun _ => True).
    + apply builds_only_keeps. apply (Hrule f args eq_refl).
    + intros a _. apply hoare_lift.
Qed.

Lemma cleanup_combine_keeps temp :
  (forall t, temp = Some t -> foreign t) ->
  hoare P (cleanup_combine temp) (fun _ => True).
Proof.
  intros Ht. unfold cleanup_combine. destruct temp as [t |]; [| apply hoare_ret; trivial].
  apply hoare_bind with (Q := fun _ => True); [apply hoare_get_store |].
  intros s0 _. destruct (existsb _ _); [apply hoare_ret; trivial |].
  apply block_remove_keeps. apply Ht. reflexivity.
Qed.

(** One iteration: an operation that is lowered is not [x], and the pending
    combine, when there is one, is not [x] either. *)
Lemma decompose_one_keeps ops_list ov f idx op temp dv :
  (f op = true -> op_name op <> op_name x /\ op_id op <> op_id x) ->
  (op_name op = combine_op_name -> foreign op) ->
  (forall t, temp = Some t -> foreign t) ->
  hoare P (decompose_one ops_contain_none decomp_ops_contain_unused_output get_decomp_rule
                         has_decomp call_decomp ops_list ov f idx op temp dv)
        (fun r => forall t, fst r = Some t -> foreign t).
Proof.
  intros Hop Hself Htemp. unfold decompose_one.
  set (temp' := if String.eqb (op_name op) combine_op_name then Some op else temp).
  assert (Htemp' : forall t, temp' = Some t -> foreign t).
  { intros t Ht. unfold temp' in Ht.
    destruct (String.eqb (op_name op) combine_op_name) eqn:E.
    - inversion Ht; subst. apply Hself. apply String.eqb_eq. exact E.
    - apply Htemp. exact Ht. }
  match goal with
  | |- hoare P (if ?c then _ else _) _ => destruct c eqn:Elower
  end; [| apply hoare_ret; exact Htemp'].
  apply andb_true_iff in Elower. destruct Elower as [_ Hf].
  destruct (Hop Hf) as [Hname Hid].
  apply hoare_bind with (Q := fun _ => True);
    [apply record_composite_op_keeps; exact Hname |]. intros _ _.
  apply hoare_bind with (Q := fun _ => True).
  { destruct temp' as [t |]; [| apply set_insertion_point_keeps].
    apply hoare_bind with (Q := fun _ => True); [apply hoare_lift |].
    intros prev _. destruct (String.eqb (op_name prev) combine_op_name);
      apply set_insertion_point_keeps. }
  intros _ _.
  apply hoare_bind with (Q := fun _ => True); [apply hoare_get_store |]. intros s0 _.
  apply hoare_bind with (Q := fun _ => True); [apply hoare_lift |]. intros input_args _.
  apply hoare_bind with (Q := fun _ => True).
  { apply decomposed_outs_keeps. intros g args Hg. apply (rules_build _ g args Hg). }
  intros new_outs _.
  apply hoare_bind with (Q := fun _ => True); [apply hoare_lift |]. intros dv' _.
  apply hoare_bind with (Q := fun _ => True).
  { destruct (has_unused_output decomp_ops_contain_unused_output (op_name op)).
    - apply hoare_bind with (Q := fun _ => True); [apply hoare_lift |].
      intros items _. apply rewire_used_keeps.
    - apply hoare_bind with (Q := fun _ => True); [apply hoare_lift |].
      intros news _. apply op_replace_keeps. }
  intros _ _.
  apply hoare_bind with (Q := fun _ => True);
    [apply block_remove_keeps; intros _; exact Hid |]. intros _ _.
  apply hoare_bind with (Q := fun _ => True);
    [apply cleanup_combine_keeps; exact Htemp' |]. intros _ _.
  apply hoare_ret. simpl. intros t Ht. discriminate.
Qed.

Lemma decompose_loop_keeps ops_list ov f : forall todo idx temp dv,
  (forall op, In op todo ->
     (f op = true -> op_name op <> op_name x /\ op_id op <> op_id x)
     /\ (op_name op = combine_op_name -> foreign op)) ->
  (forall t, temp = Some t -> foreign t) ->
  hoare P (decompose_loop ops_contain_none decomp_ops_contain_unused_output get_decomp_rule
                          has_decomp call_decomp ops_list ov f idx todo temp dv)
        (fun _ => True).
Proof.
  induction todo as [| op rest IH]; intros idx temp dv Hops Htemp; simpl.
  - apply hoare_ret. trivial.
  - destruct (Hops op (or_introl eq_refl)) as [H1 H2].
    apply hoare_bind with (Q := fun r => forall t, fst r = Some t -> foreign t).
    + apply decompose_one_keeps; assumption.
    + intros [temp1 dv1] Hq. apply IH; [| exact Hq].
      intros o Ho. apply Hops. right. exact Ho.
Qed.

End Denied.

Lemma op_filter_by_name bl wl a b :
  op_name a = op_name b -> op_filter bl wl a = op_filter bl wl b.
Proof. intros H. unfold op_filter. rewrite H. reflexivity. Qed.

Lemma set_operands_same x : set_operands x (op_operands x) = x.
Proof. destruct x. reflexivity. Qed.

(** A run of [decompose] leaves alone an operation of the block that the
    filter refuses. *)
Lemma decompose_leaves_refused_alone
    none unused forward_blacklist rule has_dec call enabled program src_vars
    blacklist whitelist (x : Operation) (s : Store) :
  (forall name f args, rule name = Some f -> builds_only (f args)) ->
  (forall op, builds_only (call op)) ->
  well_numbered s ->
  NoDup (ids (blk_ops s)) ->
  In x (blk_ops s) ->
  op_filter (effective_blacklist forward_blacklist blacklist) whitelist x = false ->
  left_alone x (composite_ops_record s)
    (snd (decompose none unused forward_blacklist rule has_dec call enabled program
                    src_vars (ASet blacklist) (ASet whitelist) s)).
Proof.
  intros Hrule Hcall Hwf Hnd Hx Hfx.
  set (f := op_filter (effective_blacklist forward_blacklist blacklist) whitelist) in *.
  assert (Hs : left_alone x (composite_ops_record s) s).
  { split; [exact Hwf |]. split; [auto |].
    intros _. exists (op_operands x). rewrite set_operands_same.
    apply find_op_In; assumption. }
  unfold decompose. destruct enabled; simpl; [| exact Hs].
  destruct program; [| exact Hs].
  destruct (index_src_vars 0 src_vars []) as [dct | e] eqn:Hidx; [| exact Hs].
  rewrite (bind_lift_ok _ _ _ _ eq_refl).
  set (s_end := mkStore (blk_ops s) (next_id s) None (composite_ops_record s)).
  assert (Hend : left_alone x (composite_ops_record s) s_end) by exact Hs.
  assert (Hdiff : forall op, In op (blk_ops s) -> op_name op <> op_name x ->
                             op_id op <> op_id x).
  { intros op Hop Hn Hid. apply Hn. f_equal.
    apply (ids_injective (blk_ops s)); assumption. }
  assert (Hloop :
            hoare (left_alone x (composite_ops_record s))
              (decompose_loop none unused rule has_dec call (blk_ops s) (Some dct) f 0
                              (blk_ops s) None
                              (Some (repeat PyNone (List.length src_vars))))
              (fun _ => True)).
  { apply decompose_loop_keeps; [exact Hrule | exact Hcall | | intros t Ht; discriminate].
    intros op Hop. split.
    - intros Hf.
      assert (Hn : op_name op <> op_name x).
      { intros E. pose proof Hfx as Hfx'. unfold f in Hf, Hfx'.
        rewrite (op_filter_by_name _ _ op x E) in Hf. congruence. }
      split; [exact Hn | apply Hdiff; assumption].
    - intros Hc Hxc. apply Hdiff; [exact Hop | congruence]. }
  match goal with
  | |- left_alone _ _ (snd (bind (program_guard ?sub) ?K s)) =>
      change (left_alone x (composite_ops_record s)
                (snd (bind (decompose_loop none unused rule has_dec call (blk_ops s)
                                           (Some dct) f 0 (blk_ops s) None
                                           (Some (repeat PyNone (List.length src_vars))))
                           K s_end)))
  end.
  refine (proj1 (hoare_bind _ _ _ _ (fun _ => True) Hloop _ s_end Hend)).
  intros dv _. destruct dv; [apply hoare_lift | apply hoare_raise].
Qed.

(** C7: the filter of [decompose] is, case by case on the two lists, the one
    stated (the blacklist being the one in force, joined with the configured
    one).  An operation of the program whose name is in both lists is
    refused by it, and a run of [decompose], however it ends, does not
    decompose it: its name is not added to the record of the decomposed
    operations and, unless it is a [builtin.combine], which the cleanup of a
    consumer may remove, the operation is still in the block as it was, up to
    the rewiring of its operands.  The rules and the native decomposition of
    the other operations are taken to only build operations, in a program
    whose operations have distinct identifiers. *)
Theorem decompose_never_decomposes_denied
    (forward_blacklist blacklist whitelist : list string) (x : Operation) :
  let bl := effective_blacklist forward_blacklist blacklist in
  (bl <> [] -> whitelist <> [] ->
   (op_filter bl whitelist x = true <->
    In (op_name x) whitelist /\ ~ In (op_name x) bl))
  /\ (bl <> [] -> whitelist = [] ->
      (op_filter bl whitelist x = true <-> ~ In (op_name x) bl))
  /\ (bl = [] -> whitelist <> [] ->
      (op_filter bl whitelist x = true <-> In (op_name x) whitelist))
  /\ (bl = [] -> whitelist = [] -> op_filter bl whitelist x = true)
  /\ (In (op_name x) blacklist -> In (op_name x) whitelist ->
      op_filter bl whitelist x = false
      /\ forall none unused rule has_dec call enabled program src_vars s,
           (forall name f args, rule name = Some f -> builds_only (f args)) ->
           (forall op, builds_only (call op)) ->
           well_numbered s ->
           NoDup (ids (blk_ops s)) ->
           In x (blk_ops s) ->
           let s' :=
             snd (decompose none unused forward_blacklist rule has_dec call enabled
                            program src_vars (ASet blacklist) (ASet whitelist) s) in
           (In (op_name x) (composite_ops_record s') ->
            In (op_name x) (composite_ops_record s))
           /\ (op_name x <> combine_op_name ->
               exists operands,
                 find_op (op_id x) (blk_ops s') = Some (set_operands x operands))).
Proof.
  intros bl.
  destruct (op_filter_cases forward_blacklist blacklist whitelist x)
    as [H1 [H2 [H3 [H4 H5]]]].
  split; [exact H1 |]. split; [exact H2 |]. split; [exact H3 |]. split; [exact H4 |].
  intros Hb Hw. destruct (H5 Hb Hw) as [Hf _]. split; [exact Hf |].
  intros none unused rule has_dec call enabled program src_vars s
         Hrule Hcall Hwf Hnd Hx s'.
  destruct (decompose_leaves_refused_alone none unused forward_blacklist rule has_dec call
              enabled program src_vars blacklist whitelist x s
              Hrule Hcall Hwf Hnd Hx Hf) as [_ [Hrec Hfind]].
  split; [exact Hrec | exact Hfind].
Qed.

Lemma decompose_never_decomposes_denied_witness :
  let s' :=
    snd (decompose [] [] [] rules.get_decomp_rule no_decomp no_call_decomp true AProgram
                   [PyOpResult MeanExample.y] (ASet ["pd_op.mean"])
                   (ASet ["pd_op.mean"; "pd_op.gelu"]) MeanExample.block) in
  (In (op_name MeanExample.mean_op) (composite_ops_record s') ->
   In (op_name MeanExample.mean_op) (composite_ops_record MeanExample.block))
  /\ (op_name MeanExample.mean_op <> combine_op_name ->
      exists operands,
        find_op (op_id MeanExample.mean_op) (blk_ops s')
        = Some (set_operands MeanExample.mean_op operands)).
Proof.
  refine (proj2 (proj2 (proj2 (proj2 (proj2
            (decompose_never_decomposes_denied [] ["pd_op.mean"]
               ["pd_op.mean"; "pd_op.gelu"] MeanExample.mean_op)))) _ _)
            [] [] rules.get_decomp_rule no_decomp no_call_decomp true AProgram
            [PyOpResult MeanExample.y] MeanExample.block _ _ _ _ _).
  - left. reflexivity.
  - left. reflexivity.
  - apply registered_rules_build_only.
  - intros op. apply builds_only_raise.
  - intros o [H | [H | [H | []]]]; subst; simpl; lia.
  - simpl. distinct_ids.
  - right. left. reflexivity.
Defined.

(** Without the lists the same program has its [mean] decomposed: the
    deny precedence is what keeps it. *)
Example mean_decomposed_without_lists :
  find_op (op_id MeanExample.mean_op)
          (blk_ops (snd (decompose [] [] [] rules.get_decomp_rule no_decomp no_call_decomp
                                   true AProgram [PyOpResult MeanExample.y]
                                   (ASet []) (ASet []) MeanExample.block)))
  = None
  /\ find_op (op_id MeanExample.mean_op)
             (blk_ops (snd (decompose [] [] [] rules.get_decomp_rule no_decomp
                                      no_call_decomp true AProgram
                                      [PyOpResult MeanExample.y] (ASet ["pd_op.mean"])
                                      (ASet ["pd_op.mean"; "pd_op.gelu"])
                                      MeanExample.block)))
     = Some MeanExample.mean_op.
Proof. split; reflexivity. Qed.
